(** * ZeroDev SDK: the account signer and the Gnosis Safe account API

    A shallow embedding of [packages/sdk/src/ZeroDevSigner.ts],
    [packages/sdk/src/GnosisAccountAPI.ts] and [packages/sdk/src/api.ts],
    the properties of the signer that the design document states about
    them, and further properties that the code has.

    JavaScript strings are modelled as Rocq strings holding the UTF-8
    bytes of the text; every pattern the code searches for is ASCII, so
    searching, splitting and prefix tests agree with their UTF-16
    counterparts. *)

From Stdlib Require Import ZArith NArith Ascii String.
From Stdlib.Strings Require Import Byte.
From stdpp Require Import base option list gmap strings.

Local Open Scope Z_scope.

(** ** Strings as the JavaScript runtime handles them *)

Module Js.

(** The rest of [s] behind the prefix [p], if [s] starts with [p]. *)
Fixpoint strip_prefix (p s : string) : option string :=
  match p with
  | EmptyString => Some s
  | String a p' =>
      match s with
      | String b s' => if Ascii.eqb a b then strip_prefix p' s' else None
      | EmptyString => None
      end
  end.

Definition starts_with (p s : string) : bool :=
  match strip_prefix p s with
  | Some _ => true
  | None => false
  end.

(** [s.includes(sub)] *)
Fixpoint includes (sub s : string) : bool :=
  starts_with sub s ||
  match s with
  | EmptyString => false
  | String _ r => includes sub r
  end.

(** [s.split(',')]: never empty, one more field than there are commas. *)
Fixpoint split_comma (s : string) : list string :=
  match s with
  | EmptyString => [EmptyString]
  | String c r =>
      if Ascii.eqb c "," then EmptyString :: split_comma r
      else match split_comma r with
           | f :: fs => String c f :: fs
           | [] => [String c EmptyString]
           end
  end.

(** What a template literal prints for a string that may be [undefined]. *)
Definition display (o : option string) : string :=
  match o with
  | Some s => s
  | None => "undefined"
  end.

(** [String.prototype.toLowerCase] on the ASCII letters.  The only
    strings it is compared with hold hexadecimal digits and [x], and no
    character outside ASCII lowers to one of those, so leaving the other
    bytes alone does not change the outcome of the comparison. *)
Definition lower_ascii (c : ascii) : ascii :=
  let n := N_of_ascii c in
  if ((65 <=? n) && (n <=? 90))%N then ascii_of_N (n + 32) else c.

Fixpoint toLowerCase (s : string) : string :=
  match s with
  | EmptyString => EmptyString
  | String c r => String (lower_ascii c) (toLowerCase r)
  end.

(** The line terminators that [.] of a regular expression refuses:
    LF, CR, and U+2028 / U+2029 (E2 80 A8 / E2 80 A9 in UTF-8). *)
Definition starts_line_terminator (s : string) : bool :=
  match s with
  | String c r =>
      let n := N_of_ascii c in
      if ((n =? 10) || (n =? 13))%N then true
      else match r with
           | String c1 (String c2 _) =>
               ((n =? 226) && (N_of_ascii c1 =? 128) &&
                ((N_of_ascii c2 =? 168) || (N_of_ascii c2 =? 169)))%N
           | _ => false
           end
  | EmptyString => false
  end.

(** The longest prefix that a greedy run of [.] can cover. *)
Fixpoint dot_star (s : string) : string :=
  if starts_line_terminator s then EmptyString
  else match s with
       | EmptyString => EmptyString
       | String c r => String c (dot_star r)
       end.

(** The part of [s] before its last [")"], if it has one. *)
Fixpoint before_last_rparen (s : string) : option string :=
  match s with
  | EmptyString => None
  | String c r =>
      match before_last_rparen r with
      | Some t => Some (String c t)
      | None => if Ascii.eqb c ")" then Some EmptyString else None
      end
  end.

(** The part of [s] before the suffix [suffix], if [s] ends with it. *)
Definition strip_suffix (suffix s : string) : option string :=
  let n := (String.length s - String.length suffix)%nat in
  if bool_decide (String.length suffix ≤ String.length s)%nat
     && String.eqb (String.substring n (String.length suffix) s) suffix
  then Some (String.substring 0 n s)
  else None.

(** [s.match(re)] for the pattern the signer uses: the text FailedOp,
    an opening parenthesis, a greedy capture group of any characters but
    line terminators, a closing parenthesis.  Reduced to the capture
    group: the leftmost place where the pattern matches, the group
    running to the last closing parenthesis of that line. *)
Fixpoint match_FailedOp (s : string) : option string :=
  let here :=
    match strip_prefix "FailedOp(" s with
    | Some rest => before_last_rparen (dot_star rest)
    | None => None
    end in
  match here with
  | Some g => Some g
  | None =>
      match s with
      | EmptyString => None
      | String _ r => match_FailedOp r
      end
  end.

End Js.

(** ** JSON values and [JSON.parse] *)

Module JSON.

(** A number keeps the text of its literal: the signer never computes
    with one. *)
#[local] Unset Elimination Schemes.
Inductive json : Type :=
| JNull
| JBool (b : bool)
| JNumber (literal : string)
| JString (s : string)
| JArray (items : list json)
| JObject (members : list (string * json)).
#[local] Set Elimination Schemes.

(** Own-property lookup.  [JSON.parse] keeps the last of several
    members with one key. *)
Fixpoint lookup_member (k : string) (kvs : list (string * json)) : option json :=
  match kvs with
  | [] => None
  | (k', v) :: rest =>
      match lookup_member k rest with
      | Some w => Some w
      | None => if String.eqb k k' then Some v else None
      end
  end.

(** [v?.k] where [None] stands for [undefined]: short-circuits on
    [undefined] and [null]; arrays, strings, numbers and booleans have
    no property of the names the signer asks for. *)
Definition opt_get (v : option json) (k : string) : option json :=
  match v with
  | Some (JObject kvs) => lookup_member k kvs
  | _ => None
  end.

(** *** Lexing *)

Definition is_ws (c : ascii) : bool :=
  let n := N_of_ascii c in ((n =? 32) || (n =? 9) || (n =? 10) || (n =? 13))%N.

Fixpoint skip_ws (s : string) : string :=
  match s with
  | String c r => if is_ws c then skip_ws r else s
  | EmptyString => s
  end.

Definition is_digit (c : ascii) : bool :=
  let n := N_of_ascii c in ((48 <=? n) && (n <=? 57))%N.

Definition hex_val (c : ascii) : option N :=
  let n := N_of_ascii c in
  if ((48 <=? n) && (n <=? 57))%N then Some (n - 48)%N
  else if ((97 <=? n) && (n <=? 102))%N then Some (n - 87)%N
  else if ((65 <=? n) && (n <=? 70))%N then Some (n - 55)%N
  else None.

(** One element of a string literal: a byte of the text as it stands, or
    the UTF-16 code unit an escape sequence names. *)
Inductive unit16 : Type :=
| Raw (c : ascii)
| Esc (u : N).

Definition simple_escape (e : ascii) : option N :=
  match N_of_ascii e with
  | 34%N => Some 34%N    (* quotation mark *)
  | 92%N => Some 92%N    (* reverse solidus *)
  | 47%N => Some 47%N    (* solidus *)
  | 98%N => Some 8%N     (* b *)
  | 102%N => Some 12%N   (* f *)
  | 110%N => Some 10%N   (* n *)
  | 114%N => Some 13%N   (* r *)
  | 116%N => Some 9%N    (* t *)
  | _ => None
  end.

Definition hex4 (a b c d : ascii) : option N :=
  match hex_val a, hex_val b, hex_val c, hex_val d with
  | Some x, Some y, Some z, Some w => Some (((x * 16 + y) * 16 + z) * 16 + w)%N
  | _, _, _, _ => None
  end.

Definition cons_unit (u : unit16) (r : option (list unit16 * string))
  : option (list unit16 * string) :=
  match r with
  | Some (us, rest) => Some (u :: us, rest)
  | None => None
  end.

(** The body of a string literal, after its opening quotation mark, up
    to and including the closing one. *)
Fixpoint lex_string (s : string) : option (list unit16 * string) :=
  match s with
  | EmptyString => None
  | String c r =>
      if Ascii.eqb c "034" then Some ([], r)
      else if Ascii.eqb c "\" then
        match r with
        | String e r1 =>
            match simple_escape e with
            | Some u => cons_unit (Esc u) (lex_string r1)
            | None =>
                if Ascii.eqb e "u" then
                  match r1 with
                  | String h1 (String h2 (String h3 (String h4 r2))) =>
                      match hex4 h1 h2 h3 h4 with
                      | Some u => cons_unit (Esc u) (lex_string r2)
                      | None => None
                      end
                  | _ => None
                  end
                else None
            end
        | EmptyString => None
        end
      else if (N_of_ascii c <? 32)%N then None
      else cons_unit (Raw c) (lex_string r)
  end.

(** UTF-8 bytes of a code point. *)
Definition utf8 (n : N) : list ascii :=
  if (n <? 128)%N then [ascii_of_N n]
  else if (n <? 2048)%N then
    [ascii_of_N (192 + n / 64); ascii_of_N (128 + n mod 64)]
  else if (n <? 65536)%N then
    [ascii_of_N (224 + n / 4096); ascii_of_N (128 + (n / 64) mod 64);
     ascii_of_N (128 + n mod 64)]
  else
    [ascii_of_N (240 + n / 262144); ascii_of_N (128 + (n / 4096) mod 64);
     ascii_of_N (128 + (n / 64) mod 64); ascii_of_N (128 + n mod 64)].

Definition is_high_surrogate (u : N) : bool := ((55296 <=? u) && (u <=? 56319))%N.
Definition is_low_surrogate (u : N) : bool := ((56320 <=? u) && (u <=? 57343))%N.

(** The text a sequence of units stands for: an escaped surrogate pair
    is one code point. *)
Fixpoint text_of_units (us : list unit16) : list ascii :=
  match us with
  | [] => []
  | Raw c :: rest => c :: text_of_units rest
  | Esc hi :: rest =>
      match rest with
      | Esc lo :: rest' =>
          if is_high_surrogate hi && is_low_surrogate lo
          then utf8 (65536 + (hi - 55296) * 1024 + (lo - 56320))%N ++ text_of_units rest'
          else utf8 hi ++ text_of_units rest
      | _ => utf8 hi ++ text_of_units rest
      end
  end.

(** The longest run of decimal digits at the head of [s]. *)
Fixpoint span_digits (s : string) : string * string :=
  match s with
  | String c r =>
      if is_digit c then let '(ds, rest) := span_digits r in (String c ds, rest)
      else (EmptyString, s)
  | EmptyString => (EmptyString, s)
  end.

(** [eat c s]: the rest of [s] behind its first character, if that is
    [c]. *)
Definition eat (c : ascii) (s : string) : option string :=
  match s with
  | String d r => if Ascii.eqb c d then Some r else None
  | EmptyString => None
  end.

(** An optional fraction: a point and at least one digit. *)
Definition parse_fraction (s : string) : option (string * string) :=
  match eat "." s with
  | Some r =>
      let '(digits, rest) := span_digits r in
      match digits with
      | EmptyString => None
      | _ => Some ("." +:+ digits, rest)
      end
  | None => Some (EmptyString, s)
  end.

(** An optional sign of the given kind. *)
Definition parse_sign (c : ascii) (s : string) : string * string :=
  match eat c s with
  | Some r => (String c EmptyString, r)
  | None => (EmptyString, s)
  end.

(** An optional exponent: [e] or [E], an optional sign, at least one
    digit. *)
Definition parse_exponent (s : string) : option (string * string) :=
  match s with
  | String e r =>
      if Ascii.eqb e "e" || Ascii.eqb e "E" then
        let '(sign, r1) :=
          match eat "+" r with
          | Some r' => ("+", r')
          | None => parse_sign "-" r
          end in
        let '(digits, rest) := span_digits r1 in
        match digits with
        | EmptyString => None
        | _ => Some (String e sign +:+ digits, rest)
        end
      else Some (EmptyString, s)
  | EmptyString => Some (EmptyString, s)
  end.

(** A number literal: sign, integer part without a leading zero,
    fraction, exponent. *)
Definition parse_number (s : string) : option (string * string) :=
  let '(sign, s1) := parse_sign "-" s in
  let '(int, s2) := span_digits s1 in
  match int with
  | EmptyString => None
  | String d ds =>
      if Ascii.eqb d "0" && negb (String.eqb ds EmptyString) then None
      else
        match parse_fraction s2 with
        | None => None
        | Some (fraction, s3) =>
            match parse_exponent s3 with
            | None => None
            | Some (exponent, s4) => Some (sign +:+ int +:+ fraction +:+ exponent, s4)
            end
        end
  end.

Definition parse_string (s : string) : option (string * string) :=
  match lex_string s with
  | Some (us, rest) => Some (string_of_list_ascii (text_of_units us), rest)
  | None => None
  end.

(** *** Parsing *)

(** The recursion on the nesting of values is bounded by a counter;
    [OutOfFuel] tells a syntax error from a counter that was too small
    ([parse_value_fuel] shows that the one [parse] starts with never
    is). *)
Inductive parsed (A : Type) : Type :=
| Parsed (a : A) (rest : string)
| SyntaxErr
| OutOfFuel.
Arguments Parsed {A} a rest.
Arguments SyntaxErr {A}.
Arguments OutOfFuel {A}.

(** [true], [false] and [null]. *)
Definition parse_literal (s : string) : parsed json :=
  match Js.strip_prefix "true" s with
  | Some r => Parsed (JBool true) r
  | None =>
      match Js.strip_prefix "false" s with
      | Some r => Parsed (JBool false) r
      | None =>
          match Js.strip_prefix "null" s with
          | Some r => Parsed JNull r
          | None => SyntaxErr
          end
      end
  end.

Fixpoint parse_value (fuel : nat) (s : string) : parsed json :=
  match fuel with
  | O => OutOfFuel
  | S f =>
      match skip_ws s with
      | EmptyString => SyntaxErr
      | String c r =>
          if Ascii.eqb c "{" then
            match eat "}" (skip_ws r) with
            | Some r1 => Parsed (JObject []) r1
            | None =>
                match parse_members f r with
                | Parsed kvs r2 => Parsed (JObject kvs) r2
                | SyntaxErr => SyntaxErr
                | OutOfFuel => OutOfFuel
                end
            end
          else if Ascii.eqb c "[" then
            match eat "]" (skip_ws r) with
            | Some r1 => Parsed (JArray []) r1
            | None =>
                match parse_elements f r with
                | Parsed vs r2 => Parsed (JArray vs) r2
                | SyntaxErr => SyntaxErr
                | OutOfFuel => OutOfFuel
                end
            end
          else if Ascii.eqb c "034" then
            match parse_string r with
            | Some (str, r1) => Parsed (JString str) r1
            | None => SyntaxErr
            end
          else if Ascii.eqb c "-" || is_digit c then
            match parse_number (String c r) with
            | Some (lit, r1) => Parsed (JNumber lit) r1
            | None => SyntaxErr
            end
          else parse_literal (String c r)
      end
  end

(** The members of an object from its first key on, through the closing
    brace. *)
with parse_members (fuel : nat) (s : string) : parsed (list (string * json)) :=
  match fuel with
  | O => OutOfFuel
  | S f =>
      match eat "034" (skip_ws s) with
      | None => SyntaxErr
      | Some r =>
          match parse_string r with
          | None => SyntaxErr
          | Some (k, r1) =>
              match eat ":" (skip_ws r1) with
              | None => SyntaxErr
              | Some r2 =>
                  match parse_value f r2 with
                  | Parsed v r3 =>
                      match eat "," (skip_ws r3), eat "}" (skip_ws r3) with
                      | Some r4, _ =>
                          match parse_members f r4 with
                          | Parsed kvs r5 => Parsed ((k, v) :: kvs) r5
                          | SyntaxErr => SyntaxErr
                          | OutOfFuel => OutOfFuel
                          end
                      | None, Some r4 => Parsed [(k, v)] r4
                      | None, None => SyntaxErr
                      end
                  | SyntaxErr => SyntaxErr
                  | OutOfFuel => OutOfFuel
                  end
              end
          end
      end
  end

(** The elements of an array from its first element on, through the
    closing bracket. *)
with parse_elements (fuel : nat) (s : string) : parsed (list json) :=
  match fuel with
  | O => OutOfFuel
  | S f =>
      match parse_value f s with
      | Parsed v r1 =>
          match eat "," (skip_ws r1), eat "]" (skip_ws r1) with
          | Some r2, _ =>
              match parse_elements f r2 with
              | Parsed vs r3 => Parsed (v :: vs) r3
              | SyntaxErr => SyntaxErr
              | OutOfFuel => OutOfFuel
              end
          | None, Some r2 => Parsed [v] r2
          | None, None => SyntaxErr
          end
      | SyntaxErr => SyntaxErr
      | OutOfFuel => OutOfFuel
      end
  end.

Definition parse_fuel (s : string) : nat := 2 * String.length s + 2.

(** [JSON.parse(text)]: the value, or [None] where the runtime throws a
    [SyntaxError]. *)
Definition parse (s : string) : option json :=
  match parse_value (parse_fuel s) s with
  | Parsed v rest =>
      match skip_ws rest with
      | EmptyString => Some v
      | _ => None
      end
  | _ => None
  end.

End JSON.

(** ** Hexadecimal data strings (ethers' [bytes] utilities) *)

Module Hex.

Definition hex_digit (n : N) : ascii :=
  if (n <? 10)%N then ascii_of_N (48 + n) else ascii_of_N (87 + n).

Definition hex_of_byte (b : byte) (tail : string) : string :=
  let n := Byte.to_N b in
  String (hex_digit (n / 16)) (String (hex_digit (n mod 16)) tail).

Fixpoint hex_of_bytes (bs : list byte) : string :=
  match bs with
  | [] => EmptyString
  | b :: r => hex_of_byte b (hex_of_bytes r)
  end.

(** [hexlify(bytes)]: lower-case digits behind [0x]. *)
Definition hexlify (bs : list byte) : string := "0x" +:+ hex_of_bytes bs.

Definition byte_of_digits (a b : ascii) : option byte :=
  match JSON.hex_val a, JSON.hex_val b with
  | Some x, Some y => Byte.of_N (x * 16 + y)
  | _, _ => None
  end.

Fixpoint bytes_of_hex (s : string) : option (list byte) :=
  match s with
  | EmptyString => Some []
  | String a (String b r) =>
      match byte_of_digits a b, bytes_of_hex r with
      | Some x, Some bs => Some (x :: bs)
      | _, _ => None
      end
  | String _ EmptyString => None
  end.

(** [arrayify(hex)] of a string: [None] where ethers throws (no [0x],
    a character that is no digit, an odd number of digits). *)
Definition arrayify (s : string) : option (list byte) :=
  match s with
  | String "0" (String "x" r) => bytes_of_hex r
  | _ => None
  end.

Fixpoint all_hex (s : string) : bool :=
  match s with
  | EmptyString => true
  | String c r => bool_decide (is_Some (JSON.hex_val c)) && all_hex r
  end.

Definition isHexString (s : string) : bool :=
  match s with
  | String "0" (String "x" r) => all_hex r
  | _ => false
  end.

Fixpoint zeros (n : nat) (tail : string) : string :=
  match n with
  | O => tail
  | S k => String "0" (zeros k tail)
  end.

(** [hexZeroPad(value, length)]: zeros are put behind [0x] until the
    string has [2 * length + 2] characters; [None] where ethers throws
    (no hex string, or already longer). *)
Definition hexZeroPad (value : string) (len : nat) : option string :=
  if isHexString value then
    if decide (String.length value ≤ 2 * len + 2)%nat then
      match value with
      | String _ (String _ digits) =>
          Some ("0x" +:+ zeros (2 * len + 2 - String.length value) digits)
      | _ => None
      end
    else None
  else None.

Fixpoint arrayify_all (items : list string) : option (list byte) :=
  match items with
  | [] => Some []
  | s :: rest =>
      match arrayify s, arrayify_all rest with
      | Some bs, Some more => Some (bs ++ more)
      | _, _ => None
      end
  end.

(** [hexConcat(items)] *)
Definition hexConcat (items : list string) : option string :=
  hexlify <$> arrayify_all items.

End Hex.

(** ** The ABI coder, for the one tuple the signer encodes *)

Module Abi.

Definition byte_of_N (n : N) : byte :=
  match Byte.of_N n with
  | Some b => b
  | None => x00
  end.

(** [w] bytes, most significant first. *)
Fixpoint be_bytes (w : nat) (n : N) : list byte :=
  match w with
  | O => []
  | S w' => be_bytes w' (n / 256) ++ [byte_of_N (n mod 256)]
  end.

Definition be_value (bs : list byte) : N :=
  fold_left (fun acc b => (acc * 256 + Byte.to_N b)%N) bs 0%N.

(** One 32-byte word; the coder throws on a value that needs more. *)
Definition word (n : N) : option (list byte) :=
  if (n <? 2 ^ 256)%N then Some (be_bytes 32 n) else None.

Definition address_word (a : N) : option (list byte) :=
  if (a <? 2 ^ 160)%N then Some (be_bytes 32 a) else None.

Definition padding (len : nat) : nat := ((32 - len mod 32) mod 32)%nat.

(** A dynamic [bytes] value: its length, then the data filled with zero
    bytes up to a whole number of words. *)
Definition encode_bytes (bs : list byte) : option (list byte) :=
  len ← word (N.of_nat (length bs));
  Some (len ++ bs ++ replicate (padding (length bs)) x00).

(** [coder.encode(['address', 'bytes', 'bytes'], [a, b1, b2])]: three
    head words (the address and the offsets of the two tails), then the
    tails. *)
Definition encode_address_bytes_bytes (a : N) (b1 b2 : list byte)
  : option (list byte) :=
  head ← address_word a;
  t1 ← encode_bytes b1;
  t2 ← encode_bytes b2;
  o1 ← word 96;
  o2 ← word (96 + N.of_nat (length t1));
  Some (head ++ o1 ++ o2 ++ t1 ++ t2).

Definition read_word (off : nat) (data : list byte) : option N :=
  let w := take 32 (drop off data) in
  if decide (length w = 32%nat) then Some (be_value w) else None.

Definition read_bytes (off : nat) (data : list byte) : option (list byte) :=
  len ← read_word off data;
  let body := take (N.to_nat len) (drop (off + 32) data) in
  if decide (length body = N.to_nat len) then Some body else None.

(** [coder.decode(['address', 'bytes', 'bytes'], data)] *)
Definition decode_address_bytes_bytes (data : list byte)
  : option (N * list byte * list byte) :=
  a ← read_word 0 data;
  o1 ← read_word 32 data;
  o2 ← read_word 64 data;
  b1 ← read_bytes (N.to_nat o1) data;
  b2 ← read_bytes (N.to_nat o2) data;
  Some (a, b1, b2).

End Abi.

(** ** Values that cross the signer's interfaces *)

(** What a [throw] carries. *)
Record JsError : Type := mkJsError {
  err_message : string;
  err_stack : option string;
  err_code : option string;
  err_body : option string;     (* the response text a failed RPC request keeps *)
}.

Inductive thrown : Type :=
| ErrorObj (e : JsError)        (* an error object *)
| SyntaxError                   (* raised by [JSON.parse] *)
| TypeError                     (* raised on calling what is no function *)
| EthersError (reason : string). (* raised inside ethers; only the reason it
                                   gives is kept *)

(** [new Error(message)].  The stack that the engine records for a new
    error is not modelled: [stack] is what the code assigns to it, if it
    assigns one. *)
Definition new_Error (message : string) (stack : option string) : thrown :=
  ErrorObj {| err_message := message; err_stack := stack;
              err_code := None; err_body := None |}.

(** [e.body], [e.stack] and [e.code] of a caught value of any kind. *)
Definition body_of (e : thrown) : option string :=
  match e with
  | ErrorObj o => err_body o
  | _ => None
  end.

Definition code_of (e : thrown) : option string :=
  match e with
  | ErrorObj o => err_code o
  | _ => None
  end.

(** The engine fills in the stack of the errors it raises itself; the
    model keeps it only for error objects. *)
Definition stack_of (e : thrown) : option string :=
  match e with
  | ErrorObj o => err_stack o
  | _ => None
  end.

(** The outcome of a call: a value, or an exception. *)
Inductive Res (A : Type) : Type :=
| Ok (a : A)
| Throw (e : thrown).
Arguments Ok {A} a.
Arguments Throw {A} e.

#[export] Instance Res_ret : MRet Res := @Ok.
#[export] Instance Res_bind : MBind Res := fun A B f r =>
  match r with
  | Ok a => f a
  | Throw e => Throw e
  end.

Definition of_option {A : Type} (e : thrown) (o : option A) : Res A :=
  match o with
  | Some a => Ok a
  | None => Throw e
  end.

(** [BigNumberish]: a number or a [BigNumber] object (its string and byte
    forms are left out).  A number can be falsy while present ([0]); an
    object never is. *)
Inductive BigNumberish : Type :=
| Num (n : Z)
| Big (n : Z).

Definition truthy (v : option BigNumberish) : bool :=
  match v with
  | None => false
  | Some (Num n) => negb (n =? 0)
  | Some (Big _) => true
  end.

(** [BigNumber.from(v)] *)
Definition BigNumber_from (v : BigNumberish) : Z :=
  match v with
  | Num n => n
  | Big n => n
  end.

Inductive AssetType : Type := ETH | ERC20 | ERC721 | ERC1155.

Record AssetTransfer : Type := mkAsset {
  assetType : AssetType;
  asset_address : option string;
  tokenId : option BigNumberish;
  amount : option BigNumberish;
}.

(** An entry of a multi-send batch. *)
Record Call : Type := mkCall {
  call_to : string;
  call_value : BigNumberish;
  call_data : string;
}.

(** Arguments handed to a call encoder. *)
Inductive AbiArg : Type :=
| AStr (s : string)             (* an address or hex data, as a string *)
| ANum (n : BigNumberish)
| AMissing.                     (* [undefined], from a [!] on an absent field *)

Record TransactionRequest : Type := mkTx {
  tx_to : option string;
  tx_from : option string;
  tx_data : option string;
  tx_value : option BigNumberish;
  tx_gasLimit : option BigNumberish;
  tx_gasPrice : option BigNumberish;
  tx_maxFeePerGas : option BigNumberish;
  tx_maxPriorityFeePerGas : option BigNumberish;
}.

(** The argument of [createUnsignedUserOp] and [createSignedUserOp]. *)
Record UserOpInfo : Type := mkInfo {
  info_target : string;
  info_data : string;
  info_value : option BigNumberish;
  info_gasLimit : option BigNumberish;
  info_maxFeePerGas : option BigNumberish;
  info_maxPriorityFeePerGas : option BigNumberish;
}.

Record UserOperationStruct : Type := mkUserOp {
  sender : string;
  nonce : Z;
  initCode : string;
  callData : string;
  callGasLimit : Z;
  verificationGasLimit : Z;
  preVerificationGas : Z;
  maxFeePerGas : Z;
  maxPriorityFeePerGas : Z;
  paymasterAndData : string;
  signature : string;
}.

Record GasInfo : Type := mkGasInfo {
  gas_preVerificationGas : Z;
  gas_verificationGas : Z;
  gas_callGasLimit : Z;
}.

Record TransactionResponse : Type := mkResponse {
  hash : string;
}.

(** The argument of the [transactionStarted] hook. *)
Record HookInfo : Type := mkHookInfo {
  hook_hash : string;
  hook_from : option string;
  hook_to : option string;
  hook_value : BigNumberish;
  hook_sponsored : bool;
  hook_module : option string;
}.

(** Objects live in a store and are named by their location. *)
Definition loc : Type := nat.

(** A [GnosisAccountAPI] object: the fields of the class, and those of
    [BaseAccountAPI] that the code at hand reads or writes. *)
Record AccountAPI : Type := mkApi {
  (* BaseAccountAPI *)
  senderAddress : option string;
  isPhantom : bool;
  delegateMode : bool;
  entryPointAddress : string;
  (* GnosisAccountAPI *)
  factoryAddress : option string;
  owner : nat;                       (* the owner's [Signer] *)
  index : Z;
  accountContract : option string;   (* a [GnosisSafe] handle, by its address *)
  factory : option string;           (* a factory handle, by its address *)
}.

(** A [ZeroDevSigner] object.  The collaborators are named by
    identifiers; [hooked] tells whether the configuration has a
    [transactionStarted] hook. *)
Record Signer : Type := mkSigner {
  config : nat;
  hooked : bool;
  originalSigner : nat;
  zdProvider : nat;
  httpRpcClient : nat;
  smartAccountAPI : loc;
  address : option string;
}.

(** Every call that leaves the process, and the calls into the parts of
    the SDK that are answered by the environment. *)
Inductive Event : Type :=
| EvSignerGetAddress (signer : nat)
| EvSignMessage (signer : nat) (digest : list byte)
| EvGetCode (account : string)
| EvNonce (account : string)
| EvGetBalance (account : string)
| EvBalanceOf (token holder : string)
| EvBalanceOf1155 (token holder : string) (id : AbiArg)
| EvGetOwners (safe : string)
| EvGetSenderAccountAddress (provider : nat)
| EvCreateUnsignedUserOp (api : loc) (info : UserOpInfo)
| EvEstimateUserOpGas (client : nat) (op : UserOperationStruct)
| EvCreateSignedUserOp (api : loc) (info : UserOpInfo)
| EvConstructResponse (provider : nat) (op : UserOperationStruct)
| EvTransactionStarted (info : HookInfo)
| EvSendUserOpToBundler (client : nat) (op : UserOperationStruct).

(** ** The environment of the signer

    The chain, the bundler, the key holders, the library functions that
    hash or encode, and the parts of the SDK whose sources are not at
    hand.  Each is a function from the question to the answer; a call
    that leaves the process is also written to the trace. *)
Record Env : Type := mkEnv {
  (* the JavaScript runtime: the text of a number, from its literal *)
  Number_toString : string -> string;
  (* key holders *)
  signer_getAddress : nat -> Res string;
  signer_signMessage : nat -> list byte -> Res string;
  (* ethers: hashing, address parsing, call encoding *)
  hashMessage : string -> string;
  parseAddress : string -> option N;
  encodeFunctionData : string -> list AbiArg -> string;
  (* the chain, as the provider and the contracts report it *)
  chain_getCode : string -> string;
  chain_getBalance : string -> Z;
  safe_nonce : string -> Z;
  safe_getOwners : string -> Res (list string);
  erc20_balanceOf : string -> string -> Z;
  erc1155_balanceOf : string -> string -> AbiArg -> Z;
  (* the bundler, through [HttpRpcClient] *)
  bundler_estimateUserOpGas : UserOperationStruct -> Res GasInfo;
  bundler_sendUserOp : UserOperationStruct -> Res string;
  (* [BaseAccountAPI], [ZeroDevProvider], [utils], [multisend], [types] *)
  deriveAddress : AccountAPI -> Res string;
  getFactoryAddress : AccountAPI -> Res string;
  getFactoryAccountInitCode : AccountAPI -> Res string;
  createUnsignedUserOp : AccountAPI -> UserOpInfo -> Res UserOperationStruct;
  createSignedUserOp : AccountAPI -> UserOpInfo -> Res UserOperationStruct;
  getSenderAccountAddress : nat -> Res string;
  constructUserOpTransactionResponse : UserOperationStruct -> Res TransactionResponse;
  fixSignedData : string -> string;
  encodeMultiSend : list Call -> string;
  MULTISEND_ADDR : string;
  getModuleInfo : TransactionRequest -> option string;
}.

(** ** The object store and the monad of the methods *)

Record State : Type := mkState {
  apis : gmap loc AccountAPI;
  signers : gmap loc Signer;
  trace : list Event;
}.

Definition M (A : Type) : Type := State -> Res A * State.

#[export] Instance M_ret : MRet M := fun A a st => (Ok a, st).
#[export] Instance M_bind : MBind M := fun A B f m st =>
  match m st with
  | (Ok a, st') => f a st'
  | (Throw e, st') => (Throw e, st')
  end.

Definition throw {A : Type} (e : thrown) : M A := fun st => (Throw e, st).

Definition lift {A : Type} (r : Res A) : M A := fun st => (r, st).

(** [try { m } catch (e) { h e }] *)
Definition try_catch {A : Type} (m : M A) (h : thrown -> M A) : M A := fun st =>
  match m st with
  | (Ok a, st') => (Ok a, st')
  | (Throw e, st') => h e st'
  end.

Definition emit (ev : Event) : M unit := fun st =>
  (Ok tt, {| apis := apis st; signers := signers st; trace := trace st ++ [ev] |}).

(** A call that leaves the process: written to the trace, then answered. *)
Definition ask {A : Type} (ev : Event) (answer : Res A) : M A :=
  _ ← emit ev; lift answer.

Definition read_api (l : loc) : M AccountAPI := fun st =>
  match apis st !! l with
  | Some a => (Ok a, st)
  | None => (Throw TypeError, st)
  end.

Definition write_api (l : loc) (a : AccountAPI) : M unit := fun st =>
  (Ok tt, {| apis := <[l := a]> (apis st); signers := signers st; trace := trace st |}).

Definition read_signer (l : loc) : M Signer := fun st =>
  match signers st !! l with
  | Some s => (Ok s, st)
  | None => (Throw TypeError, st)
  end.

Definition write_signer (l : loc) (s : Signer) : M unit := fun st =>
  (Ok tt, {| apis := apis st; signers := <[l := s]> (signers st); trace := trace st |}).

(** A new object gets a location that no object has. *)
Definition alloc_api (a : AccountAPI) : M loc := fun st =>
  let l := fresh (dom (apis st)) in
  (Ok l, {| apis := <[l := a]> (apis st); signers := signers st; trace := trace st |}).

Definition alloc_signer (s : Signer) : M loc := fun st =>
  let l := fresh (dom (signers st)) in
  (Ok l, {| apis := apis st; signers := <[l := s]> (signers st); trace := trace st |}).

(** [await Promise.all(items.map(f))]: [map] starts every closure, in
    the order of the items, whether or not an earlier one fails; the
    result is the list of the values, or the exception of the first item
    that failed. *)
Fixpoint promise_all {A B : Type} (f : A -> M B) (items : list A) : M (list B) :=
  fun st =>
    match items with
    | [] => (Ok [], st)
    | x :: rest =>
        let '(r, st1) := f x st in
        let '(rs, st2) := promise_all f rest st1 in
        (match r, rs with
         | Ok y, Ok ys => Ok (y :: ys)
         | Ok _, Throw e => Throw e
         | Throw e, _ => Throw e
         end, st2)
    end.

(** ** GnosisAccountAPI.ts *)

Module GnosisAccountAPI.
Section WithEnv.

Context (E : Env).

Definition set_senderAddress (v : option string) (a : AccountAPI) : AccountAPI :=
{| senderAddress := v; isPhantom := isPhantom a; delegateMode := delegateMode a;
   entryPointAddress := entryPointAddress a; factoryAddress := factoryAddress a;
   owner := owner a; index := index a; accountContract := accountContract a;
   factory := factory a |}.

Definition set_isPhantom (v : bool) (a : AccountAPI) : AccountAPI :=
{| senderAddress := senderAddress a; isPhantom := v; delegateMode := delegateMode a;
   entryPointAddress := entryPointAddress a; factoryAddress := factoryAddress a;
   owner := owner a; index := index a; accountContract := accountContract a;
   factory := factory a |}.

Definition set_delegateMode (v : bool) (a : AccountAPI) : AccountAPI :=
{| senderAddress := senderAddress a; isPhantom := isPhantom a; delegateMode := v;
   entryPointAddress := entryPointAddress a; factoryAddress := factoryAddress a;
   owner := owner a; index := index a; accountContract := accountContract a;
   factory := factory a |}.

Definition set_factoryAddress (v : option string) (a : AccountAPI) : AccountAPI :=
{| senderAddress := senderAddress a; isPhantom := isPhantom a; delegateMode := delegateMode a;
   entryPointAddress := entryPointAddress a; factoryAddress := v;
   owner := owner a; index := index a; accountContract := accountContract a;
   factory := factory a |}.

Definition set_accountContract (v : option string) (a : AccountAPI) : AccountAPI :=
{| senderAddress := senderAddress a; isPhantom := isPhantom a; delegateMode := delegateMode a;
   entryPointAddress := entryPointAddress a; factoryAddress := factoryAddress a;
   owner := owner a; index := index a; accountContract := v;
   factory := factory a |}.

Definition set_factory (v : option string) (a : AccountAPI) : AccountAPI :=
{| senderAddress := senderAddress a; isPhantom := isPhantom a; delegateMode := delegateMode a;
   entryPointAddress := entryPointAddress a; factoryAddress := factoryAddress a;
   owner := owner a; index := index a; accountContract := accountContract a;
   factory := v |}.

(** Modelled from the spec: [BaseAccountAPI.getAccountAddress] is not
  among the sources.  The account address is derived from owner,
  factory and salt, deterministically, and is kept once known ("the
  account's write-once deployment state/address cache"); deriving it
  fails when no factory is configured and the address is not known. *)
Definition getAccountAddress (this : loc) : M string :=
api ← read_api this;
match senderAddress api with
| Some a => mret a
| None =>
    a ← lift (deriveAddress E api);
    api ← read_api this;
    _ ← write_api this (set_senderAddress (Some a) api);
    mret a
end.

(** Modelled from the spec: [BaseAccountAPI.checkAccountPhantom] is not
  among the sources.  An account is Phantom until code is seen at its
  address; "Phantom to Deployed is one-way and cached permanently
  once observed", so a Deployed account is not looked up again. *)
Definition checkAccountPhantom (this : loc) : M bool :=
api ← read_api this;
if negb (isPhantom api) then mret false
else
  a ← getAccountAddress this;
  code ← ask (EvGetCode a) (Ok (chain_getCode E a));
  if decide (2 < String.length code)%nat then
    api ← read_api this;
    _ ← write_api this (set_isPhantom false api);
    mret false
  else mret true.

Definition _getAccountContract (this : loc) : M string :=
api ← read_api this;
match accountContract api with
| None =>
    a ← getAccountAddress this;
    api ← read_api this;
    _ ← write_api this (set_accountContract (Some a) api);
    mret a
| Some c => mret c
end.

Definition migrated_owners : list string :=
[ "0x0d68adA5ba372a508Cd76f46000292028E64B1f8";
  "0xd19B624010d6bd0223658059Ac892514e41676B7";
  "0x7AeCA2dFf97B9692E17a1fa64E42d527179624d3";
  "0x3cE0223eDBfA89eCDf9Dc85abB3d1b7361B24354" ].

Definition migration_factory : string := "0x5d7a58eFbC95f5b3Da446D9496D73a6E9D57b0a4".

(** The loop over the four addresses: each one that equals the owner,
  letter case aside, sets the factory address. *)
Fixpoint override_factory (addrs : list string) (ownerAddress : string)
  (this : loc) : M unit :=
match addrs with
| [] => mret tt
| addr :: rest =>
    _ ← (if String.eqb (Js.toLowerCase addr) (Js.toLowerCase ownerAddress)
         then api ← read_api this;
              write_api this (set_factoryAddress (Some migration_factory) api)
         else mret tt);
    override_factory rest ownerAddress this
end.

Definition no_factory_message : string := "no factory to get initCode".

Definition getAccountInitCode (this : loc) : M string :=
api ← read_api this;
ownerAddress ← ask (EvSignerGetAddress (owner api)) (signer_getAddress E (owner api));
_ ← override_factory migrated_owners ownerAddress this;
api ← read_api this;
_ ← match factory api with
    | None =>
        match factoryAddress api with
        | Some a =>
            if negb (String.eqb a EmptyString)
            then write_api this (set_factory (Some a) api)
            else throw (new_Error no_factory_message None)
        | None => throw (new_Error no_factory_message None)
        end
    | Some _ => mret tt
    end;
api ← read_api this;
match factory api with
| Some f =>
    lift (of_option (EthersError "invalid arrayify value")
            (Hex.hexConcat
               [f; encodeFunctionData E "createAccount"
                     [AStr ownerAddress; ANum (Num (index api))]]))
| None => throw TypeError
end.

Definition getNonce (this : loc) : M Z :=
phantom ← checkAccountPhantom this;
if (phantom : bool) then mret 0
else
  accountContract ← _getAccountContract this;
  ask (EvNonce accountContract) (Ok (safe_nonce E accountContract)).

(** The two encoders of a call from the entry point to the account: the
    handle of the account contract is fetched first, the manager
    interface then encodes [executeAndRevert] with the operation 0 (call)
    or 1 (delegate call). *)
Definition encodeExecute (this : loc) (target : string) (value : BigNumberish)
    (data : string) : M string :=
  accountContract ← _getAccountContract this;
  mret (encodeFunctionData E "executeAndRevert"
          [AStr target; ANum value; AStr data; ANum (Num 0)]).

Definition encodeExecuteDelegate (this : loc) (target : string) (value : BigNumberish)
    (data : string) : M string :=
  accountContract ← _getAccountContract this;
  mret (encodeFunctionData E "executeAndRevert"
          [AStr target; ANum value; AStr data; ANum (Num 1)]).

Definition signUserOpHash (this : loc) (userOpHash : string) : M string :=
  api ← read_api this;
  digest ← lift (of_option (EthersError "invalid arrayify value")
                   (Hex.arrayify userOpHash));
  ask (EvSignMessage (owner api) digest) (signer_signMessage E (owner api) digest).


End WithEnv.
End GnosisAccountAPI.

(** ** ZeroDevSigner.ts *)

Module ZeroDevSigner.
Section WithEnv.

Context (E : Env).

Import GnosisAccountAPI.

Definition set_address (v : option string) (s : Signer) : Signer :=
{| config := config s; hooked := hooked s; originalSigner := originalSigner s;
   zdProvider := zdProvider s; httpRpcClient := httpRpcClient s;
   smartAccountAPI := smartAccountAPI s; address := v |}.

(** [Object.assign] onto a new object copies every field;
  [new ZeroDevSigner] leaves the [address] of the new signer unset. *)
Definition delegateCopy (this : loc) : M loc :=
s ← read_signer this;
original ← read_api (smartAccountAPI s);
delegateAccountAPI ← alloc_api original;
copy ← read_api delegateAccountAPI;
_ ← write_api delegateAccountAPI (set_delegateMode true copy);
alloc_signer {| config := config s; hooked := hooked s;
                originalSigner := originalSigner s; zdProvider := zdProvider s;
                httpRpcClient := httpRpcClient s;
                smartAccountAPI := delegateAccountAPI; address := None |}.

Definition getAddress (this : loc) : M string :=
s ← read_signer this;
match address s with
| None =>
    a ← ask (EvGetSenderAccountAddress (zdProvider s))
            (getSenderAccountAddress E (zdProvider s));
    s ← read_signer this;
    _ ← write_signer this (set_address (Some a) s);
    mret a
| Some a => mret a
end.

(** *** Error translation *)

Definition is_FailedOp_string (v : JSON.json) : bool :=
match v with
| JSON.JString s => String.eqb s "FailedOp"
| _ => false
end.

(** [m?.includes('FailedOp') === true], for whatever the body holds
  under [error.message]: a string is searched, an array is asked for
  an element, [undefined] and [null] end the chain, and anything else
  has no [includes] to call. *)
Definition includes_FailedOp (m : option JSON.json) : Res bool :=
match m with
| None => Ok false
| Some JSON.JNull => Ok false
| Some (JSON.JString s) => Ok (Js.includes "FailedOp" s)
| Some (JSON.JArray items) => Ok (existsb is_FailedOp_string items)
| Some _ => Throw TypeError
end.

(** [m.match(re)]: only a string has [match]. *)
Definition match_call (m : option JSON.json) : Res (option string) :=
match m with
| Some (JSON.JString s) => Ok (Js.match_FailedOp s)
| _ => Throw TypeError
end.

(** What a template literal makes of a value.  An array is joined with
  commas, [null] elements printing as nothing.  An object is converted
  through its [toString]: the one it inherits prints [[object Object]];
  a member of that name, which is never a function in a parsed body,
  leaves the inherited [valueOf], which returns the object, and the
  conversion throws. *)
Fixpoint to_text (v : JSON.json) : Res string :=
match v with
| JSON.JNull => Ok "null"
| JSON.JBool true => Ok "true"
| JSON.JBool false => Ok "false"
| JSON.JNumber literal => Ok (Number_toString E literal)
| JSON.JString s => Ok s
| JSON.JArray items =>
    (fix join (l : list JSON.json) : Res string :=
       match l with
       | [] => Ok EmptyString
       | x :: rest =>
           here ← match x with
                  | JSON.JNull => Ok EmptyString
                  | _ => to_text x
                  end;
           match rest with
           | [] => Ok here
           | _ => tail ← join rest; Ok (here +:+ "," +:+ tail)
           end
       end) items
| JSON.JObject members =>
    match JSON.lookup_member "toString" members with
    | Some _ => Throw TypeError
    | None => Ok "[object Object]"
    end
end.

Definition display (m : option JSON.json) : Res string :=
match m with
| Some v => to_text v
| None => Ok "undefined"
end.

Definition bundler_failure : string :=
"The bundler has failed to include UserOperation in a batch: ".

Definition unwrapError (errorIn : thrown) : Res thrown :=
match body_of errorIn with
| Some body =>
    errorBody ← of_option SyntaxError (JSON.parse body);
    let paymasterInfo := EmptyString in
    let failedOpMessage :=
      JSON.opt_get (JSON.opt_get (Some errorBody) "error") "message" in
    found ← includes_FailedOp failedOpMessage;
    info ← (if (found : bool) then
              matched ← match_call failedOpMessage;
              match matched with
              | Some group =>
                  let split := Js.split_comma group in
                  Ok ("(paymaster address: " +:+ Js.display (split !! 1%nat) +:+ ")",
                      JSON.JString <$> split !! 2%nat)
              | None => Ok (paymasterInfo, failedOpMessage)
              end
            else Ok (paymasterInfo, failedOpMessage));
    let '(paymasterInfo, failedOpMessage) := info in
    text ← display failedOpMessage;
    Ok (new_Error (bundler_failure +:+ text +:+ " " +:+ paymasterInfo +:+ ")")
                  (stack_of errorIn))
| None => Ok errorIn
end.

(** *** Sending a transaction *)

Definition set_from (v : option string) (t : TransactionRequest) : TransactionRequest :=
{| tx_to := tx_to t; tx_from := v; tx_data := tx_data t; tx_value := tx_value t;
   tx_gasLimit := tx_gasLimit t; tx_gasPrice := tx_gasPrice t;
   tx_maxFeePerGas := tx_maxFeePerGas t;
   tx_maxPriorityFeePerGas := tx_maxPriorityFeePerGas t |}.

Definition set_gasLimit (v : option BigNumberish) (t : TransactionRequest) : TransactionRequest :=
{| tx_to := tx_to t; tx_from := tx_from t; tx_data := tx_data t; tx_value := tx_value t;
   tx_gasLimit := v; tx_gasPrice := tx_gasPrice t;
   tx_maxFeePerGas := tx_maxFeePerGas t;
   tx_maxPriorityFeePerGas := tx_maxPriorityFeePerGas t |}.

(** The first statement of [sendTransaction]: the fee fields are set
  to zero. *)
Definition zero_fees (t : TransactionRequest) : TransactionRequest :=
if truthy (tx_maxFeePerGas t) || truthy (tx_maxPriorityFeePerGas t) then
  {| tx_to := tx_to t; tx_from := tx_from t; tx_data := tx_data t; tx_value := tx_value t;
     tx_gasLimit := tx_gasLimit t; tx_gasPrice := tx_gasPrice t;
     tx_maxFeePerGas := Some (Num 0);
     tx_maxPriorityFeePerGas := Some (Num 0) |}
else
  {| tx_to := tx_to t; tx_from := tx_from t; tx_data := tx_data t; tx_value := tx_value t;
     tx_gasLimit := tx_gasLimit t; tx_gasPrice := Some (Num 0);
     tx_maxFeePerGas := tx_maxFeePerGas t;
     tx_maxPriorityFeePerGas := tx_maxPriorityFeePerGas t |}.

(** [Signer.checkTransaction] of ethers, with the properties resolved:
  [from] becomes the address of the signer, and a [from] that names
  another address is refused. *)
Definition checkTransaction (this : loc) (t : TransactionRequest) : M TransactionRequest :=
a ← getAddress this;
match tx_from t with
| None => mret (set_from (Some a) t)
| Some f =>
    if String.eqb (Js.toLowerCase f) (Js.toLowerCase a) then mret t
    else throw (EthersError "from address mismatch")
end.

Definition dummy_signature : string :=
"0x4046ab7d9c387d7a5ef5ca0777eded29767fd9863048946d35b3042d2f7458ff7c62ade2903503e15973a63a296313eab15b964a18d79f4b06c8c01c7028143c1c".

Definition with_signature (sig : string) (op : UserOperationStruct) : UserOperationStruct :=
{| sender := sender op; nonce := nonce op; initCode := initCode op;
   callData := callData op; callGasLimit := callGasLimit op;
   verificationGasLimit := verificationGasLimit op;
   preVerificationGas := preVerificationGas op; maxFeePerGas := maxFeePerGas op;
   maxPriorityFeePerGas := maxPriorityFeePerGas op;
   paymasterAndData := paymasterAndData op; signature := sig |}.

Definition estimateGas (this : loc) (transaction : TransactionRequest) : M Z :=
t ← checkTransaction this transaction;
s ← read_signer this;
api ← read_api (smartAccountAPI s);
let info := {| info_target := default EmptyString (tx_to t);
               info_data := default "0x" (tx_data t);
               info_value := tx_value t;
               info_gasLimit := None;
               info_maxFeePerGas := tx_maxFeePerGas t;
               info_maxPriorityFeePerGas := tx_maxPriorityFeePerGas t |} in
userOperation ← ask (EvCreateUnsignedUserOp (smartAccountAPI s) info)
                    (createUnsignedUserOp E api info);
let op := with_signature dummy_signature userOperation in
gasInfo ← ask (EvEstimateUserOpGas (httpRpcClient s) op)
              (bundler_estimateUserOpGas E op);
mret (gas_preVerificationGas gasInfo + gas_verificationGas gasInfo
      + gas_callGasLimit gasInfo).

Definition forwardErrors : list string :=
["INSUFFICIENT_FUNDS"; "NONCE_EXPIRED"; "REPLACEMENT_UNDERPRICED"].

(** [Signer.populateTransaction] of ethers, as far as [sendTransaction]
  relies on it ("populateTransaction internally calls estimateGas"):
  the request is checked, and a request without a gas limit gets one
  from [estimateGas], whose failure is passed on for the codes in
  [forwardErrors] and replaced otherwise.  Left out are the look-ups
  of the nonce and the chain, whose results [sendTransaction] does not
  read, the resolution of [to], which may change the letter case of an
  address, and the fee handling of ethers, which on some chains fills
  in or moves the fee fields and refuses a gas price beside EIP-1559
  fees.  [sendTransaction] passes the fee fields of the populated
  request on; nothing below is stated about their values after
  populating.  The reason of an error of ethers is given in short. *)
Definition populateTransaction (this : loc) (transaction : TransactionRequest)
: M TransactionRequest :=
t ← checkTransaction this transaction;
match tx_gasLimit t with
| Some _ => mret t
| None =>
    g ← try_catch (estimateGas this t)
          (fun e =>
             match code_of e with
             | Some c =>
                 if bool_decide (c ∈ forwardErrors) then throw e
                 else throw (EthersError "cannot estimate gas")
             | None => throw (EthersError "cannot estimate gas")
             end);
    mret (set_gasLimit (Some (Big g)) t)
end.

Definition verifyAllNecessaryFields (transactionRequest : TransactionRequest) : M unit :=
match tx_to transactionRequest with
| None => throw (new_Error "Missing call target" None)
| Some _ =>
    match tx_data transactionRequest, tx_value transactionRequest with
    | None, None => throw (new_Error "Missing call data or value" None)
    | _, _ => mret tt
    end
end.

Definition sendTransaction (this : loc) (transaction : TransactionRequest)
: M TransactionResponse :=
let transaction := zero_fees transaction in
t ← populateTransaction this transaction;
_ ← verifyAllNecessaryFields t;
s ← read_signer this;
api ← read_api (smartAccountAPI s);
let info := {| info_target := default EmptyString (tx_to t);
               info_data := default "0x" (tx_data t);
               info_value := tx_value t;
               info_gasLimit := tx_gasLimit t;
               info_maxFeePerGas := tx_maxFeePerGas t;
               info_maxPriorityFeePerGas := tx_maxPriorityFeePerGas t |} in
userOperation ← ask (EvCreateSignedUserOp (smartAccountAPI s) info)
                    (createSignedUserOp E api info);
transactionResponse ← ask (EvConstructResponse (zdProvider s) userOperation)
                          (constructUserOpTransactionResponse E userOperation);
_ ← (if hooked s then
       emit (EvTransactionStarted
               {| hook_hash := hash transactionResponse;
                  hook_from := tx_from t;
                  hook_to := tx_to t;
                  hook_value := if truthy (tx_value t)
                                then default (Num 0) (tx_value t) else Num 0;
                  hook_sponsored := negb (String.eqb (paymasterAndData userOperation) "0x");
                  hook_module := getModuleInfo E t |})
     else mret tt);
_ ← try_catch
      (ask (EvSendUserOpToBundler (httpRpcClient s) userOperation)
           (bundler_sendUserOp E userOperation))
      (fun error => translated ← lift (unwrapError error); throw translated);
mret transactionResponse.

(** A state-changing method of an ethers [Contract] that is connected
  to a signer: the call is encoded, [from] is the address of the
  signer, the overrides are copied, and the request goes to the
  signer's [sendTransaction]. *)
Definition contract_send (signer : loc) (target : string) (method : string)
  (args : list AbiArg) (gasLimit gasPrice : option BigNumberish)
: M TransactionResponse :=
from ← getAddress signer;
sendTransaction signer
  {| tx_to := Some target; tx_from := Some from;
     tx_data := Some (encodeFunctionData E method args);
     tx_value := None;
     tx_gasLimit := (fun v => Big (BigNumber_from v)) <$> gasLimit;
     tx_gasPrice := (fun v => Big (BigNumber_from v)) <$> gasPrice;
     tx_maxFeePerGas := None; tx_maxPriorityFeePerGas := None |}.

(** *** Signing a message *)

Definition MAGIC_SUFFIX : string :=
"6492649264926492649264926492649264926492649264926492649264926492".

(** [coder.encode(['address', 'bytes', 'bytes'], [a, b1, b2])] on the
  strings the signer passes. *)
Definition coder_encode (a b1 b2 : string) : Res string :=
n ← of_option (EthersError "invalid address") (parseAddress E a);
x1 ← of_option (EthersError "invalid arrayify value") (Hex.arrayify b1);
x2 ← of_option (EthersError "invalid arrayify value") (Hex.arrayify b2);
data ← of_option (EthersError "value out-of-bounds")
         (Abi.encode_address_bytes_bytes n x1 x2);
Ok (Hex.hexlify data).

(** The end of [signMessage]: the ERC-6492 wrapping of a signature
  while the account is undeployed. *)
Definition wrap (api : loc) (sig : string) : M string :=
phantom ← checkAccountPhantom E api;
if (phantom : bool) then
  a ← read_api api;
  factoryAddress ← lift (getFactoryAddress E a);
  a ← read_api api;
  initPayload ← lift (getFactoryAccountInitCode E a);
  encoded ← lift (coder_encode factoryAddress initPayload sig);
  mret (encoded +:+ MAGIC_SUFFIX)
else mret sig.

Definition signMessage (this : loc) (message : string) : M string :=
s ← read_signer this;
dataHash ← lift (of_option (EthersError "invalid arrayify value")
                   (Hex.arrayify (hashMessage E message)));
raw ← ask (EvSignMessage (originalSigner s) dataHash)
          (signer_signMessage E (originalSigner s) dataHash);
wrap (smartAccountAPI s) (fixSignedData E raw).

(** *** Batches *)

Record BatchOptions : Type := mkOptions {
opt_gasLimit : option Z;
opt_gasPrice : option BigNumberish;
opt_multiSendAddress : option string;
}.

Definition execBatch (this : loc) (calls : list Call) (options : option BatchOptions)
: M TransactionResponse :=
delegateSigner ← delegateCopy this;
contract_send delegateSigner
  (default (MULTISEND_ADDR E) (options ≫= opt_multiSendAddress))
  "multiSend" [AStr (encodeMultiSend E calls)]
  (Num <$> (options ≫= opt_gasLimit))
  (options ≫= opt_gasPrice).

(** [asset.amount ? asset.amount : await read] *)
Definition amount_or (asset : AssetTransfer) (read : M Z) : M BigNumberish :=
match amount asset with
| Some v => if truthy (Some v) then mret v else balance ← read; mret (Big balance)
| None => balance ← read; mret (Big balance)
end.

(** The contract helpers of [utils] build an ethers [Contract], which
  refuses an absent address. *)
Definition contract_at (a : option string) : M string :=
match a with
| Some token => mret token
| None => throw (EthersError "invalid contract address or ENS name")
end.

Definition arg_of (v : option BigNumberish) : AbiArg :=
match v with
| Some n => ANum n
| None => AMissing
end.

(** The body of the closure that [transferAllAssets] maps over the
  assets. *)
Definition asset_call (selfAddress to : string) (asset : AssetTransfer) : M Call :=
match assetType asset with
| ETH =>
    value ← amount_or asset
              (ask (EvGetBalance selfAddress) (Ok (chain_getBalance E selfAddress)));
    mret {| call_to := to; call_value := value; call_data := "0x" |}
| ERC20 =>
    erc20 ← contract_at (asset_address asset);
    value ← amount_or asset
              (ask (EvBalanceOf erc20 selfAddress)
                   (Ok (erc20_balanceOf E erc20 selfAddress)));
    mret {| call_to := erc20; call_value := Num 0;
            call_data := encodeFunctionData E "transfer" [AStr to; ANum value] |}
| ERC721 =>
    erc721 ← contract_at (asset_address asset);
    mret {| call_to := erc721; call_value := Num 0;
            call_data := encodeFunctionData E "transferFrom"
                           [AStr selfAddress; AStr to; arg_of (tokenId asset)] |}
| ERC1155 =>
    erc1155 ← contract_at (asset_address asset);
    value ← amount_or asset
              (ask (EvBalanceOf1155 erc1155 selfAddress (arg_of (tokenId asset)))
                   (Ok (erc1155_balanceOf E erc1155 selfAddress (arg_of (tokenId asset)))));
    mret {| call_to := erc1155; call_value := Num 0;
            call_data := encodeFunctionData E "safeTransferFrom"
                           [AStr selfAddress; AStr to; arg_of (tokenId asset);
                            ANum value; AStr "0x"] |}
end.

Definition transferAllAssets (this : loc) (to : string) (assets : list AssetTransfer)
  (options : option BatchOptions) : M TransactionResponse :=
selfAddress ← getAddress this;
awaitedCall ← promise_all (asset_call selfAddress to) assets;
execBatch this awaitedCall options.

(** *** Ownership *)

Definition single_owner_message : string :=
"transferOwnership is only supported for single-owner safes".

Definition transferOwnership (this : loc) (newOwner : string) : M TransactionResponse :=
selfAddress ← getAddress this;
owners ← ask (EvGetOwners selfAddress) (safe_getOwners E selfAddress);
if decide (length (owners : list string) ≠ 1%nat) then
  throw (new_Error single_owner_message None)
else
  prevOwner ← lift (of_option (EthersError "value out of range") (Hex.hexZeroPad "0x01" 20));
  s ← read_signer this;
  ownerAddress ← ask (EvSignerGetAddress (originalSigner s))
                     (signer_getAddress E (originalSigner s));
  contract_send this selfAddress "swapOwner"
    [AStr prevOwner; AStr ownerAddress; AStr newOwner]
    (Some (Num 200000)) None.

(** *** Modules, and what the signer does not support *)


Definition connect (this : loc) (provider : nat) : M loc :=
  throw (new_Error "changing providers is not supported" None).

Definition signTransaction (this : loc) (transaction : TransactionRequest) : M string :=
  throw (new_Error "not implemented" None).

(** *** Updates *)

Section WithUpdateController.

(** [UpdateController] is not among the sources: its two methods are
    whatever computations they are. *)
Context (checkUpdate : loc -> string -> M bool).
Context (controller_update : loc -> M TransactionResponse).
Context (ACCOUNT_FACTORY_ADDRESS : string).

(** [confirm] is the callback of the caller; the result is [undefined]
    unless the update is sent. *)
Definition update (this : loc) (confirm : M bool) : M (option TransactionResponse) :=
  available ← checkUpdate this ACCOUNT_FACTORY_ADDRESS;
  if (available : bool) then
    confirmed ← confirm;
    if (confirmed : bool) then
      response ← controller_update this;
      mret (Some response)
    else mret None
  else mret None.

End WithUpdateController.

End WithEnv.
End ZeroDevSigner.

(** ** The notions of the design document, in terms of the model *)

Module Spec.

Import GnosisAccountAPI ZeroDevSigner.

(** The message that the error translation looks at:
    [errorBody?.error?.message]. *)
Definition nested_message (errorBody : JSON.json) : option JSON.json :=
  JSON.opt_get (JSON.opt_get (Some errorBody) "error") "message".

(** The nested message is a string in which the FailedOp pattern is
    found. *)
Definition matches_FailedOp (m : option JSON.json) : bool :=
  match m with
  | Some (JSON.JString s) => bool_decide (is_Some (Js.match_FailedOp s))
  | _ => false
  end.

(** A relay error whose body is absent, or whose nested message does
    not match the pattern. *)
Definition absent_or_unmatched (errorIn : thrown) : Prop :=
  match body_of errorIn with
  | None => True
  | Some body =>
      match JSON.parse body with
      | Some errorBody => matches_FailedOp (nested_message errorBody) = false
      | None => True
      end
  end.

(** A value that a template literal can print: no object in it, at any
    depth of arrays, has a member named [toString]. *)
Fixpoint printable (v : JSON.json) : bool :=
  match v with
  | JSON.JArray items =>
      (fix all (l : list JSON.json) : bool :=
         match l with
         | [] => true
         | x :: rest => printable x && all rest
         end) items
  | JSON.JObject members =>
      match JSON.lookup_member "toString" members with
      | Some _ => false
      | None => true
      end
  | _ => true
  end.

(** The nested messages for which the translation neither finds the
    pattern nor fails: none at all, [null], a string without a match,
    an array without the element ["FailedOp"] that can be printed. *)
Definition plainly_unmatched (m : option JSON.json) : bool :=
  match m with
  | None => true
  | Some JSON.JNull => true
  | Some (JSON.JString s) => bool_decide (Js.match_FailedOp s = None)
  | Some (JSON.JArray items) =>
      negb (existsb is_FailedOp_string items) && printable (JSON.JArray items)
  | Some _ => false
  end.

(** The error that reports a rejection by the bundler. *)
Definition bundler_rejection (reason paymasterAddress : string)
    (stack : option string) : thrown :=
  new_Error (bundler_failure +:+ reason +:+ " (paymaster address: "
               +:+ paymasterAddress +:+ "))") stack.

(** A request without [to], or with [to] but with neither [data] nor
    [value]. *)
Definition lacks_required_fields (t : TransactionRequest) : bool :=
  match tx_to t with
  | None => true
  | Some _ =>
      match tx_data t, tx_value t with
      | None, None => true
      | _, _ => false
      end
  end.

(** What [sendTransaction] asks [createSignedUserOp] for. *)
Definition signed_op_info (t : TransactionRequest) : UserOpInfo :=
  {| info_target := default EmptyString (tx_to t);
     info_data := default "0x" (tx_data t);
     info_value := tx_value t;
     info_gasLimit := tx_gasLimit t;
     info_maxFeePerGas := tx_maxFeePerGas t;
     info_maxPriorityFeePerGas := tx_maxPriorityFeePerGas t |}.

Definition missing_field_error (t : TransactionRequest) : thrown :=
  match tx_to t with
  | None => new_Error "Missing call target" None
  | Some _ => new_Error "Missing call data or value" None
  end.

Definition is_missing_field_error (e : thrown) : Prop :=
  e = new_Error "Missing call target" None
  ∨ e = new_Error "Missing call data or value" None.

(** Gas estimation at the bundler, building or signing an operation, and
    submission. *)
Definition is_estimation (ev : Event) : bool :=
  match ev with
  | EvCreateUnsignedUserOp _ _ | EvEstimateUserOpGas _ _ => true
  | _ => false
  end.

Definition is_signing_or_submission (ev : Event) : bool :=
  match ev with
  | EvCreateSignedUserOp _ _ | EvConstructResponse _ _
  | EvTransactionStarted _ | EvSendUserOpToBundler _ _ => true
  | _ => false
  end.

(** Every event that passes [P], and no other, is added to the trace by
    [m], from whatever state. *)
Definition emits_only (P : Event -> bool) {A : Type} (m : M A) : Prop :=
  forall st : State,
    exists evs : list Event,
      trace (snd (m st)) = trace st ++ evs /\ forallb P evs = true.

Definition before_signing (ev : Event) : bool := negb (is_signing_or_submission ev).

Definition is_nonce_read (ev : Event) : bool :=
  match ev with
  | EvNonce _ => true
  | _ => false
  end.

(** The owner is one of the four migrated addresses, letter case
    aside. *)
Definition is_migrated (ownerAddress : string) : bool :=
  existsb (fun addr => String.eqb (Js.toLowerCase addr) (Js.toLowerCase ownerAddress))
          migrated_owners.

(** The factory that [getAccountInitCode] ends up with: the handle it
    has, or else one for the configured address, if there is one. *)
Definition factory_in_use (api : AccountAPI) : option string :=
  match factory api with
  | Some f => Some f
  | None =>
      match factoryAddress api with
      | Some a => if String.eqb a EmptyString then None else Some a
      | None => None
      end
  end.

(** Taking a wrapped signature apart again: the suffix is stripped, the
    rest is decoded as (address, bytes, bytes), and the last component
    is the raw signature. *)
Definition unwrap (blob : string) : option (list byte) :=
  front ← Js.strip_suffix MAGIC_SUFFIX blob;
  data ← Hex.arrayify front;
  parts ← Abi.decode_address_bytes_bytes data;
  Some (snd parts).

Section WithEnv.

Context (E : Env).

(** The address the API reports for the account: the one it keeps, or
    else the derived one. *)
Definition account_address (api : AccountAPI) : Res string :=
  match senderAddress api with
  | Some a => Ok a
  | None => deriveAddress E api
  end.

(** The API object once the address [a] has been looked up. *)
Definition with_address (a : string) (api : AccountAPI) : AccountAPI :=
  match senderAddress api with
  | Some _ => api
  | None => set_senderAddress (Some a) api
  end.



(** Phantom: never seen deployed, and no code at the address. *)
Definition Phantom (st : State) (l : loc) (api : AccountAPI) (a : string) : Prop :=
  apis st !! l = Some api ∧ isPhantom api = true ∧ account_address api = Ok a
  ∧ (String.length (chain_getCode E a) ≤ 2)%nat.

(** Deployed: seen deployed before, or code at the address now. *)
Definition Deployed (st : State) (l : loc) (api : AccountAPI) (a : string) : Prop :=
  apis st !! l = Some api ∧ account_address api = Ok a
  ∧ (isPhantom api = false ∨ (2 < String.length (chain_getCode E a))%nat).

(** The handle [_getAccountContract] answers with. *)
Definition contract_of (api : AccountAPI) (a : string) : string :=
  default a (accountContract api).

End WithEnv.

End Spec.

(** ** A concrete environment

    One account (owner 7) with a configured factory, a token with a
    balance, a bundler that accepts.  Used to run the model. *)

Module Demo.

Definition operation : UserOperationStruct :=
  {| sender := "0x00000000000000000000000000000000000005e1";
     nonce := 0; initCode := "0x"; callData := "0x";
     callGasLimit := 30000; verificationGasLimit := 100000;
     preVerificationGas := 21000; maxFeePerGas := 0; maxPriorityFeePerGas := 0;
     paymasterAndData := "0x"; signature := "0x" |}.

(** An address is accepted when it is twenty bytes of hex data (the
    check sum of mixed-case addresses is not looked at). *)
Definition parse_address (s : string) : option N :=
  match Hex.arrayify s with
  | Some bs => if decide (length bs = 20%nat) then Some (Abi.be_value bs) else None
  | None => None
  end.

(** Call data for the illustrations: the selector of the method alone. *)
Definition selector_of (method : string) (args : list AbiArg) : string :=
  if String.eqb method "createAccount" then "0x5fbfb9cf"
  else if String.eqb method "transfer" then "0xa9059cbb"
  else "0x".

Definition env_of (ownerAddress : string) : Env :=
  {| Number_toString := fun literal => literal;
     signer_getAddress := fun _ => Ok ownerAddress;
     signer_signMessage := fun _ _ => Ok "0x0102031b";
     hashMessage := fun _ => "0xab";
     parseAddress := parse_address;
     encodeFunctionData := selector_of;
     chain_getCode := fun _ => "0x";
     chain_getBalance := fun _ => 9;
     safe_nonce := fun _ => 3;
     safe_getOwners := fun _ => Ok ["0x00000000000000000000000000000000000000a7"];
     erc20_balanceOf := fun _ _ => 42;
     erc1155_balanceOf := fun _ _ _ => 1;
     bundler_estimateUserOpGas := fun _ => Ok (mkGasInfo 21000 100000 30000);
     bundler_sendUserOp := fun _ => Ok "0xhash";
     deriveAddress := fun _ => Ok "0x00000000000000000000000000000000000005e1";
     getFactoryAddress := fun _ => Ok "0x00000000000000000000000000000000000000fa";
     getFactoryAccountInitCode := fun _ => Ok "0xc0de";
     createUnsignedUserOp := fun _ _ => Ok operation;
     createSignedUserOp := fun _ _ => Ok operation;
     getSenderAccountAddress := fun _ => Ok "0x00000000000000000000000000000000000005e1";
     constructUserOpTransactionResponse := fun _ => Ok (mkResponse "0xhash");
     fixSignedData := fun sig => sig;
     encodeMultiSend := fun _ => "0x";
     MULTISEND_ADDR := "0x8ae01fcf7c655655ff2c6ef907b8b4718ab4e17c";
     getModuleInfo := fun _ => None |}.

Definition env : Env := env_of "0x00000000000000000000000000000000000000a7".

(** The first of the migrated owners, in capital letters. *)
Definition migrated_env : Env := env_of "0x0D68ADA5BA372A508CD76F46000292028E64B1F8".


(** The same environment with another answer of the bundler to a
    submission. *)
Definition with_submission (answer : Res string) (E : Env) : Env :=
  {| Number_toString := Number_toString E;
     signer_getAddress := signer_getAddress E;
     signer_signMessage := signer_signMessage E;
     hashMessage := hashMessage E;
     parseAddress := parseAddress E;
     encodeFunctionData := encodeFunctionData E;
     chain_getCode := chain_getCode E;
     chain_getBalance := chain_getBalance E;
     safe_nonce := safe_nonce E;
     safe_getOwners := safe_getOwners E;
     erc20_balanceOf := erc20_balanceOf E;
     erc1155_balanceOf := erc1155_balanceOf E;
     bundler_estimateUserOpGas := bundler_estimateUserOpGas E;
     bundler_sendUserOp := fun _ => answer;
     deriveAddress := deriveAddress E;
     getFactoryAddress := getFactoryAddress E;
     getFactoryAccountInitCode := getFactoryAccountInitCode E;
     createUnsignedUserOp := createUnsignedUserOp E;
     createSignedUserOp := createSignedUserOp E;
     getSenderAccountAddress := getSenderAccountAddress E;
     constructUserOpTransactionResponse := constructUserOpTransactionResponse E;
     fixSignedData := fixSignedData E;
     encodeMultiSend := encodeMultiSend E;
     MULTISEND_ADDR := MULTISEND_ADDR E;
     getModuleInfo := getModuleInfo E |}.

(** The same environment with a bundler that refuses to estimate. *)
Definition with_failing_estimate (E : Env) : Env :=
  {| Number_toString := Number_toString E;
     signer_getAddress := signer_getAddress E;
     signer_signMessage := signer_signMessage E;
     hashMessage := hashMessage E;
     parseAddress := parseAddress E;
     encodeFunctionData := encodeFunctionData E;
     chain_getCode := chain_getCode E;
     chain_getBalance := chain_getBalance E;
     safe_nonce := safe_nonce E;
     safe_getOwners := safe_getOwners E;
     erc20_balanceOf := erc20_balanceOf E;
     erc1155_balanceOf := erc1155_balanceOf E;
     bundler_estimateUserOpGas :=
       fun _ => Throw (ErrorObj {| err_message := "processing response error";
                                   err_stack := None;
                                   err_code := Some "SERVER_ERROR";
                                   err_body := None |});
     bundler_sendUserOp := bundler_sendUserOp E;
     deriveAddress := deriveAddress E;
     getFactoryAddress := getFactoryAddress E;
     getFactoryAccountInitCode := getFactoryAccountInitCode E;
     createUnsignedUserOp := createUnsignedUserOp E;
     createSignedUserOp := createSignedUserOp E;
     getSenderAccountAddress := getSenderAccountAddress E;
     constructUserOpTransactionResponse := constructUserOpTransactionResponse E;
     fixSignedData := fixSignedData E;
     encodeMultiSend := encodeMultiSend E;
     MULTISEND_ADDR := MULTISEND_ADDR E;
     getModuleInfo := getModuleInfo E |}.

Definition api : AccountAPI :=
  {| senderAddress := None; isPhantom := true; delegateMode := false;
     entryPointAddress := "0x00000000000000000000000000000000000000e9";
     factoryAddress := Some "0x00000000000000000000000000000000000000fa";
     owner := 7; index := 0; accountContract := None; factory := None |}.

Definition signer : Signer :=
  {| config := 1; hooked := true; originalSigner := 7; zdProvider := 2;
     httpRpcClient := 3; smartAccountAPI := 0%nat; address := None |}.

Definition state : State :=
  {| apis := {[ 0%nat := api ]}; signers := {[ 0%nat := signer ]}; trace := [] |}.

(** The same account once it has been seen deployed. *)
Definition deployed_api : AccountAPI :=
  {| senderAddress := Some "0x00000000000000000000000000000000000005e1";
     isPhantom := false; delegateMode := false;
     entryPointAddress := "0x00000000000000000000000000000000000000e9";
     factoryAddress := Some "0x00000000000000000000000000000000000000fa";
     owner := 7; index := 0;
     accountContract := Some "0x00000000000000000000000000000000000005e1";
     factory := None |}.

Definition deployed_state : State :=
  {| apis := {[ 0%nat := deployed_api ]}; signers := {[ 0%nat := signer ]};
     trace := [] |}.

(** A failed RPC request, with the text of the response as its body. *)
Definition relay_error (body : option string) : thrown :=
  ErrorObj {| err_message := "processing response error";
              err_stack := Some "Error: processing response error at fetchJson";
              err_code := Some "SERVER_ERROR"; err_body := body |}.

(** A string between quotation marks. *)
Definition quoted (s : string) : string :=
  String "034" (s +:+ String "034" EmptyString).

(** The body of a rejection: an object whose member [error] is an object
    whose member [message] is the given text. *)
Definition error_body (message : string) : string :=
  "{" +:+ quoted "error" +:+ ":{" +:+ quoted "message" +:+ ":"
      +:+ quoted message +:+ "}}".

Definition failed_op_body : string :=
  error_body "FailedOp(0,0xPAYMASTER,AA21 didn't pay prefund)".

Definition nonce_body : string := error_body "nonce too low".

Definition empty_request : TransactionRequest :=
  {| tx_to := None; tx_from := None; tx_data := None; tx_value := None;
     tx_gasLimit := None; tx_gasPrice := None;
     tx_maxFeePerGas := None; tx_maxPriorityFeePerGas := None |}.

(** A transfer of value. *)
Definition transfer_request : TransactionRequest :=
  {| tx_to := Some "0x00000000000000000000000000000000000000d0";
     tx_from := None; tx_data := None; tx_value := Some (Num 1);
     tx_gasLimit := None; tx_gasPrice := None;
     tx_maxFeePerGas := None; tx_maxPriorityFeePerGas := None |}.

(** A request that names a recipient and nothing else. *)
Definition bare_request : TransactionRequest :=
  {| tx_to := Some "0x00000000000000000000000000000000000000d0";
     tx_from := None; tx_data := None; tx_value := None;
     tx_gasLimit := None; tx_gasPrice := None;
     tx_maxFeePerGas := None; tx_maxPriorityFeePerGas := None |}.

End Demo.

(** ** api.ts *)

Module Api.

(** A member of a request body before it is made a string. *)
Inductive BodyValue : Type :=
| BString (s : string)
| BNumber (n : Z)
| BAny (v : JSON.json).

Record Request : Type := mkRequest {
  req_url : string;
  req_method : string;
  req_body : option (list (string * BodyValue));
  req_content_type : string;
}.

(** [const { k } = value]: a [TypeError] for [null], the member or
    [undefined] for anything else. *)
Definition destructure (k : string) (value : JSON.json) : Res (option JSON.json) :=
  match value with
  | JSON.JNull => Throw TypeError
  | _ => Ok (JSON.opt_get (Some value) k)
  end.

Section WithTransport.

(** The two URLs of [constants], and [fetch] followed by [resp.json()]. *)
Context (PAYMASTER_URL BACKEND_URL : string).
Context (fetch_json : Request -> Res JSON.json).

Definition signUserOp (projectId : string) (chainId : Z) (userOp : JSON.json)
    (paymasterUrl : option string) : Res (option JSON.json) :=
  resp ← fetch_json
           {| req_url := default PAYMASTER_URL paymasterUrl +:+ "/sign";
              req_method := "POST";
              req_body := Some [("projectId", BString projectId);
                                ("chainId", BNumber chainId);
                                ("userOp", BAny userOp)];
              req_content_type := "application/json" |};
  destructure "paymasterAndData" resp.

Definition getChainId (projectId : string) (backendUrl : option string)
  : Res (option JSON.json) :=
  resp ← fetch_json
           {| req_url := default BACKEND_URL backendUrl +:+ "/v1/projects/get-chain-id";
              req_method := "POST";
              req_body := Some [("projectId", BString projectId)];
              req_content_type := "application/json" |};
  destructure "chainId" resp.

Definition getProjectConfiguration (projectId : string) (backendUrl : option string)
  : Res JSON.json :=
  fetch_json
    {| req_url := default BACKEND_URL backendUrl +:+ "/v1/projects/" +:+ projectId;
       req_method := "GET";
       req_body := None;
       req_content_type := "application/json" |}.

Definition getPrivateKeyByToken (projectId identity token : string)
    (backendUrl : option string) : Res (option JSON.json) :=
  resp ← fetch_json
           {| req_url := default BACKEND_URL backendUrl +:+ "/v1/keys/get-by-token";
              req_method := "POST";
              req_body := Some [("projectId", BString projectId);
                                ("identity", BString identity);
                                ("token", BString token)];
              req_content_type := "application/json" |};
  destructure "privateKey" resp.

End WithTransport.

End Api.

(** ** Notions for the behaviour of the methods *)

Module Behaviour.

Import GnosisAccountAPI ZeroDevSigner.

#[export] Instance BigNumberish_eq_dec : EqDecision BigNumberish.
Proof. solve_decision. Defined.

(** What [m] adds to the trace when run from [st] passes [P]. *)
Definition emits_from (st : State) (P : Event -> bool) {A : Type} (m : M A) : Prop :=
  exists evs : list Event,
    trace (snd (m st)) = trace st ++ evs /\ forallb P evs = true.

(** From a state in which [J] holds, [m] ends in one in which it holds,
    and what [m] adds to the trace passes [P]. *)
Definition keeps (J : State -> Prop) (P : Event -> bool) {A : Type} (m : M A) : Prop :=
  forall st : State, J st -> J (snd (m st)) /\ emits_from st P m.

(** The signer at [who] works on the account API object at [l], which is
    in delegate mode; the signer at [this] and the object at [l0] are
    [s] and [api]. *)
Definition delegates_to (who l this l0 : loc) (s : Signer) (api : AccountAPI)
    (st : State) : Prop :=
  (exists d, signers st !! who = Some d /\ smartAccountAPI d = l)
  /\ (exists a, apis st !! l = Some a /\ delegateMode a = true)
  /\ signers st !! this = Some s
  /\ apis st !! l0 = Some api.

(** [a'] is [a] but for the address and the handle of the factory, and
    a handle that [a] has is the handle of [a']. *)
Definition same_but_factory (a a' : AccountAPI) : Prop :=
  senderAddress a' = senderAddress a
  /\ isPhantom a' = isPhantom a
  /\ delegateMode a' = delegateMode a
  /\ entryPointAddress a' = entryPointAddress a
  /\ owner a' = owner a
  /\ index a' = index a
  /\ accountContract a' = accountContract a
  /\ (forall f : string, factory a = Some f -> factory a' = Some f).

(** From [st0] to [st] no object has changed but the account API object
    at [this], and that one in its factory only. *)
Definition only_factory_of (this : loc) (st0 st : State) : Prop :=
  signers st = signers st0
  /\ (forall l : loc, l <> this -> apis st !! l = apis st0 !! l)
  /\ match apis st0 !! this with
     | Some a => exists a', apis st !! this = Some a' /\ same_but_factory a a'
     | None => apis st !! this = None
     end.

(** An event that names an account API object names [l]. *)
Definition names_api (l : loc) (ev : Event) : bool :=
  match ev with
  | EvCreateUnsignedUserOp l' _ | EvCreateSignedUserOp l' _ => bool_decide (l' = l)
  | _ => true
  end.

(** Nothing is estimated, and an operation that is signed is for this
    data, value and gas limit. *)
Definition signs_as (data : string) (value gasLimit : option BigNumberish)
    (ev : Event) : bool :=
  match ev with
  | EvCreateUnsignedUserOp _ _ | EvEstimateUserOpGas _ _ => false
  | EvCreateSignedUserOp _ info =>
      bool_decide (info_data info = data /\ info_value info = value
                   /\ info_gasLimit info = gasLimit)
  | _ => true
  end.

(** Nothing is estimated, and an operation that is signed has this gas
    limit. *)
Definition limited_to (gasLimit : BigNumberish) (ev : Event) : bool :=
  match ev with
  | EvCreateUnsignedUserOp _ _ | EvEstimateUserOpGas _ _ => false
  | EvCreateSignedUserOp _ info => bool_decide (info_gasLimit info = Some gasLimit)
  | _ => true
  end.

(** What an estimation may ask: an unsigned operation without a gas
    limit, an estimate for an operation that carries the dummy
    signature, the address of the signer; no signature, no signed
    operation, no submission. *)
Definition estimates_unsigned (ev : Event) : bool :=
  match ev with
  | EvCreateUnsignedUserOp _ info => bool_decide (info_gasLimit info = None)
  | EvEstimateUserOpGas _ op => String.eqb (signature op) dummy_signature
  | EvGetSenderAccountAddress _ => true
  | _ => false
  end.

(** What the hook is told of a transaction: [tx.value || 0] for the
    value. *)
Definition started (E : Env) (t : TransactionRequest) (op : UserOperationStruct)
    (response : TransactionResponse) : HookInfo :=
  {| hook_hash := hash response;
     hook_from := tx_from t;
     hook_to := tx_to t;
     hook_value := match tx_value t with
                   | Some v => if truthy (Some v) then v else Num 0
                   | None => Num 0
                   end;
     hook_sponsored := negb (String.eqb (paymasterAndData op) "0x");
     hook_module := getModuleInfo E t |}.

Definition is_hook_or_submission (ev : Event) : bool :=
  match ev with
  | EvTransactionStarted _ | EvSendUserOpToBundler _ _ => true
  | _ => false
  end.

(** The call for an asset: value to the destination without data, or a
    call of the asset's contract without value. *)
Definition call_matches (to : string) (asset : AssetTransfer) (call : Call) : Prop :=
  match assetType asset with
  | ETH => call_to call = to /\ call_data call = "0x"
  | _ => asset_address asset = Some (call_to call) /\ call_value call = Num 0
  end.

(** Reading the address of the signer, or a balance. *)
Definition is_read (ev : Event) : bool :=
  match ev with
  | EvGetSenderAccountAddress _ | EvGetBalance _ | EvBalanceOf _ _
  | EvBalanceOf1155 _ _ _ => true
  | _ => false
  end.

Definition without_amount (asset : AssetTransfer) : AssetTransfer :=
  {| assetType := assetType asset; asset_address := asset_address asset;
     tokenId := tokenId asset; amount := None |}.

(** What the translation of a relay error can return when the error has
    a body. *)
Definition is_bundler_failure (stack : option string) (e : thrown) : Prop :=
  exists text : string,
    e = new_Error (bundler_failure +:+ text +:+ ")") stack.

(** The nested messages on which the translation itself fails: a
    number, a boolean or an object has no [includes]; an array with the
    element ["FailedOp"] has no [match]; and an array without it that
    holds, at any depth, an object with a member named [toString] cannot
    be printed. *)
Definition not_a_message (m : option JSON.json) : bool :=
  match m with
  | Some (JSON.JBool _) | Some (JSON.JNumber _) | Some (JSON.JObject _) => true
  | Some (JSON.JArray items) =>
      existsb is_FailedOp_string items || negb (Spec.printable (JSON.JArray items))
  | _ => false
  end.

End Behaviour.

(** ** More of the concrete environment *)

Module Scenario.

(** A transfer with its gas limit given. *)
Definition limited_request : TransactionRequest :=
  {| tx_to := Some "0x00000000000000000000000000000000000000d0";
     tx_from := None; tx_data := None; tx_value := Some (Num 1);
     tx_gasLimit := Some (Num 50000); tx_gasPrice := None;
     tx_maxFeePerGas := Some (Num 7); tx_maxPriorityFeePerGas := None |}.

(** The same environment with another answer to [createSignedUserOp]. *)
Definition with_signing (answer : Res UserOperationStruct) (E : Env) : Env :=
  {| Number_toString := Number_toString E;
     signer_getAddress := signer_getAddress E;
     signer_signMessage := signer_signMessage E;
     hashMessage := hashMessage E;
     parseAddress := parseAddress E;
     encodeFunctionData := encodeFunctionData E;
     chain_getCode := chain_getCode E;
     chain_getBalance := chain_getBalance E;
     safe_nonce := safe_nonce E;
     safe_getOwners := safe_getOwners E;
     erc20_balanceOf := erc20_balanceOf E;
     erc1155_balanceOf := erc1155_balanceOf E;
     bundler_estimateUserOpGas := bundler_estimateUserOpGas E;
     bundler_sendUserOp := bundler_sendUserOp E;
     deriveAddress := deriveAddress E;
     getFactoryAddress := getFactoryAddress E;
     getFactoryAccountInitCode := getFactoryAccountInitCode E;
     createUnsignedUserOp := createUnsignedUserOp E;
     createSignedUserOp := fun _ _ => answer;
     getSenderAccountAddress := getSenderAccountAddress E;
     constructUserOpTransactionResponse := constructUserOpTransactionResponse E;
     fixSignedData := fixSignedData E;
     encodeMultiSend := encodeMultiSend E;
     MULTISEND_ADDR := MULTISEND_ADDR E;
     getModuleInfo := getModuleInfo E |}.

(** The native asset with the amount 0, a token, and a token without
    its address. *)
Definition zero_eth : AssetTransfer :=
  {| assetType := ETH; asset_address := None; tokenId := None;
     amount := Some (Num 0) |}.

Definition token : AssetTransfer :=
  {| assetType := ERC20;
     asset_address := Some "0x0000000000000000000000000000000000000e20";
     tokenId := None; amount := Some (Num 4) |}.

Definition nameless_token : AssetTransfer :=
  {| assetType := ERC20; asset_address := None; tokenId := None;
     amount := Some (Num 4) |}.

(** A body whose nested message is an array that holds an object with
    a member named [toString]. *)
Definition unprintable_body : string :=
  "{" +:+ Demo.quoted "error" +:+ ":{" +:+ Demo.quoted "message" +:+ ":[{"
      +:+ Demo.quoted "toString" +:+ ":1}]}}".

(** An answer that reports an error. *)
Definition error_answer : JSON.json :=
  JSON.JObject [("error", JSON.JString "project not found")].

(** A transport that answers every request with the same value. *)
Definition answering (v : JSON.json) (r : Api.Request) : Res JSON.json := Ok v.

End Scenario.

(** * Properties *)

Import GnosisAccountAPI ZeroDevSigner.

(** ** [JSON.parse] never runs out of fuel *)

Lemma skip_ws_length (s : string) :
  (String.length (JSON.skip_ws s) <= String.length s)%nat.
Proof.
  induction s as [| c s IH]; cbn [JSON.skip_ws]; [lia |].
  destruct (JSON.is_ws c); cbn [String.length]; lia.
Qed.

Lemma eat_length (c : ascii) (s r : string) :
  JSON.eat c s = Some r -> String.length s = S (String.length r).
Proof.
  destruct s as [| d s]; cbn [JSON.eat]; [discriminate |].
  destruct (Ascii.eqb c d); [| discriminate]. now intros [= ->].
Qed.

Lemma strip_prefix_length (p s r : string) :
  Js.strip_prefix p s = Some r ->
  String.length s = (String.length p + String.length r)%nat.
Proof.
  revert s. induction p as [| a p IH]; intros s; cbn [Js.strip_prefix].
  - now intros [= ->].
  - destruct s as [| b s]; [discriminate |].
    destruct (Ascii.eqb a b); [| discriminate].
    intros H. apply IH in H. cbn [String.length]. lia.
Qed.

Lemma cons_unit_rest (u : JSON.unit16) (o : option (list JSON.unit16 * string))
    (us : list JSON.unit16) (r : string) :
  JSON.cons_unit u o = Some (us, r) -> exists us', o = Some (us', r).
Proof.
  destruct o as [[us' r'] |]; cbn [JSON.cons_unit]; [| discriminate].
  intros [= _ ->]. eauto.
Qed.

Lemma lex_string_length (n : nat) (s : string) (us : list JSON.unit16) (r : string) :
  (String.length s <= n)%nat ->
  JSON.lex_string s = Some (us, r) ->
  (String.length r < String.length s)%nat.
Proof.
  revert s us r. induction n as [| n IH]; intros s us r Hn H.
  - destruct s; [discriminate | cbn in Hn; lia].
  - destruct s as [| c s]; [discriminate |].
    cbn [JSON.lex_string] in H. cbn [String.length] in Hn |- *.
    destruct (Ascii.eqb c "034").
    { injection H as _ ->. lia. }
    destruct (Ascii.eqb c "\").
    + destruct s as [| e s1]; [discriminate |]. cbn [String.length] in Hn |- *.
      destruct (JSON.simple_escape e).
      * apply cons_unit_rest in H as [us' H]. apply IH in H; lia.
      * destruct (Ascii.eqb e "u"); [| discriminate].
        destruct s1 as [| h1 [| h2 [| h3 [| h4 s2]]]]; try discriminate.
        destruct (JSON.hex4 h1 h2 h3 h4); [| discriminate].
        cbn [String.length] in Hn |- *.
        apply cons_unit_rest in H as [us' H]. apply IH in H; lia.
    + destruct (N_of_ascii c <? 32)%N; [discriminate |].
      apply cons_unit_rest in H as [us' H]. apply IH in H; lia.
Qed.

Lemma parse_string_length (s str r : string) :
  JSON.parse_string s = Some (str, r) -> (String.length r < String.length s)%nat.
Proof.
  unfold JSON.parse_string.
  destruct (JSON.lex_string s) as [[us rest] |] eqn:H; [| discriminate].
  intros [= _ <-]. now apply (lex_string_length (String.length s)) in H.
Qed.

Lemma span_digits_length (s ds r : string) :
  JSON.span_digits s = (ds, r) ->
  String.length s = (String.length ds + String.length r)%nat.
Proof.
  revert ds r. induction s as [| c s IH]; intros ds r; cbn [JSON.span_digits].
  - now intros [= <- <-].
  - destruct (JSON.is_digit c).
    + destruct (JSON.span_digits s) as [ds' rest]. intros [= <- <-].
      specialize (IH _ _ eq_refl). cbn [String.length]. lia.
    + now intros [= <- <-].
Qed.

Lemma parse_fraction_length (s x r : string) :
  JSON.parse_fraction s = Some (x, r) -> (String.length r <= String.length s)%nat.
Proof.
  unfold JSON.parse_fraction. destruct (JSON.eat "." s) as [r0 |] eqn:He.
  - apply eat_length in He.
    destruct (JSON.span_digits r0) as [ds rest] eqn:Hd. apply span_digits_length in Hd.
    destruct ds; [discriminate |]. intros [= _ <-]. lia.
  - intros [= _ <-]. lia.
Qed.

Lemma parse_sign_length (c : ascii) (s sg r : string) :
  JSON.parse_sign c s = (sg, r) -> (String.length r <= String.length s)%nat.
Proof.
  unfold JSON.parse_sign. destruct (JSON.eat c s) as [r0 |] eqn:He.
  - apply eat_length in He. intros [= _ <-]. lia.
  - intros [= _ <-]. lia.
Qed.

Lemma parse_exponent_length (s x r : string) :
  JSON.parse_exponent s = Some (x, r) -> (String.length r <= String.length s)%nat.
Proof.
  unfold JSON.parse_exponent. destruct s as [| e s0]; [intros [= _ <-]; lia |].
  destruct (Ascii.eqb e "e" || Ascii.eqb e "E"); [| intros [= _ <-]; lia].
  assert (Hsign : exists sg r1,
             match JSON.eat "+" s0 with
             | Some r' => ("+", r')
             | None => JSON.parse_sign "-" s0
             end = (sg, r1) /\ (String.length r1 <= String.length s0)%nat).
  { destruct (JSON.eat "+" s0) as [r' |] eqn:Hp.
    - apply eat_length in Hp. eexists _, _. split; [reflexivity | lia].
    - destruct (JSON.parse_sign "-" s0) as [sg r1] eqn:Hm.
      apply parse_sign_length in Hm. eauto. }
  destruct Hsign as (sg & r1 & -> & Hs).
  destruct (JSON.span_digits r1) as [ds rest] eqn:Hd. apply span_digits_length in Hd.
  destruct ds; [discriminate |]. intros [= _ <-]. cbn [String.length]. lia.
Qed.

Lemma parse_number_length (s lit r : string) :
  JSON.parse_number s = Some (lit, r) -> (String.length r < String.length s)%nat.
Proof.
  unfold JSON.parse_number.
  destruct (JSON.parse_sign "-" s) as [sg s1] eqn:Hs. apply parse_sign_length in Hs.
  destruct (JSON.span_digits s1) as [int s2] eqn:Hd. apply span_digits_length in Hd.
  destruct int as [| d ds]; [discriminate |].
  destruct (Ascii.eqb d "0" && negb (String.eqb ds EmptyString)); [discriminate |].
  destruct (JSON.parse_fraction s2) as [[fraction s3] |] eqn:Hf; [| discriminate].
  apply parse_fraction_length in Hf.
  destruct (JSON.parse_exponent s3) as [[exponent s4] |] eqn:Hx; [| discriminate].
  apply parse_exponent_length in Hx.
  intros [= _ <-]. cbn [String.length] in Hd. lia.
Qed.

Lemma parse_literal_length (s : string) (v : JSON.json) (r : string) :
  JSON.parse_literal s = JSON.Parsed v r -> (String.length r < String.length s)%nat.
Proof.
  unfold JSON.parse_literal.
  destruct (Js.strip_prefix "true" s) as [r0 |] eqn:H1.
  { apply strip_prefix_length in H1. intros [= _ <-]. cbn in H1. lia. }
  destruct (Js.strip_prefix "false" s) as [r0 |] eqn:H2.
  { apply strip_prefix_length in H2. intros [= _ <-]. cbn in H2. lia. }
  destruct (Js.strip_prefix "null" s) as [r0 |] eqn:H3; [| discriminate].
  apply strip_prefix_length in H3. intros [= _ <-]. cbn in H3. lia.
Qed.

(** What is parsed is shorter than what it was parsed from. *)
Lemma parse_consumes (f : nat) (s : string) :
  (forall v r, JSON.parse_value f s = JSON.Parsed v r ->
               (String.length r < String.length s)%nat)
  /\ (forall kvs r, JSON.parse_members f s = JSON.Parsed kvs r ->
                    (String.length r < String.length s)%nat)
  /\ (forall vs r, JSON.parse_elements f s = JSON.Parsed vs r ->
                   (String.length r < String.length s)%nat).
Proof.
  revert s. induction f as [| f IH]; intros s.
  { repeat split; intros; discriminate. }
  pose proof (skip_ws_length s) as Hws.
  split; [| split].
  - intros v r. cbn [JSON.parse_value].
    destruct (JSON.skip_ws s) as [| c r0] eqn:Hs; [discriminate |].
    cbn [String.length] in Hws. pose proof (skip_ws_length r0) as Hws0.
    destruct (Ascii.eqb c "{").
    { destruct (JSON.eat "}" (JSON.skip_ws r0)) as [r1 |] eqn:He.
      - apply eat_length in He. intros [= _ <-]. lia.
      - destruct (JSON.parse_members f r0) as [kvs r2 | |] eqn:Hm; try discriminate.
        apply IH in Hm. intros [= _ <-]. lia. }
    destruct (Ascii.eqb c "[").
    { destruct (JSON.eat "]" (JSON.skip_ws r0)) as [r1 |] eqn:He.
      - apply eat_length in He. intros [= _ <-]. lia.
      - destruct (JSON.parse_elements f r0) as [vs r2 | |] eqn:Hm; try discriminate.
        apply IH in Hm. intros [= _ <-]. lia. }
    destruct (Ascii.eqb c "034").
    { destruct (JSON.parse_string r0) as [[str r1] |] eqn:Hstr; [| discriminate].
      apply parse_string_length in Hstr. intros [= _ <-]. lia. }
    destruct (Ascii.eqb c "-" || JSON.is_digit c).
    { destruct (JSON.parse_number (String c r0)) as [[lit r1] |] eqn:Hnum; [| discriminate].
      apply parse_number_length in Hnum. cbn [String.length] in Hnum.
      intros [= _ <-]. lia. }
    intros H. apply parse_literal_length in H. cbn [String.length] in H. lia.
  - intros kvs r. cbn [JSON.parse_members].
    destruct (JSON.eat "034" (JSON.skip_ws s)) as [r0 |] eqn:Hq; [| discriminate].
    apply eat_length in Hq.
    destruct (JSON.parse_string r0) as [[k r1] |] eqn:Hk; [| discriminate].
    apply parse_string_length in Hk. pose proof (skip_ws_length r1) as Hws1.
    destruct (JSON.eat ":" (JSON.skip_ws r1)) as [r2 |] eqn:Hc; [| discriminate].
    apply eat_length in Hc.
    destruct (JSON.parse_value f r2) as [v r3 | |] eqn:Hv; try discriminate.
    apply IH in Hv. pose proof (skip_ws_length r3) as Hws3.
    destruct (JSON.eat "," (JSON.skip_ws r3)) as [r4 |] eqn:Hcomma.
    + apply eat_length in Hcomma.
      destruct (JSON.parse_members f r4) as [more r5 | |] eqn:Hm; try discriminate.
      apply IH in Hm. intros [= _ <-]. lia.
    + destruct (JSON.eat "}" (JSON.skip_ws r3)) as [r4 |] eqn:Hclose; [| discriminate].
      apply eat_length in Hclose. intros [= _ <-]. lia.
  - intros vs r. cbn [JSON.parse_elements].
    destruct (JSON.parse_value f s) as [v r1 | |] eqn:Hv; try discriminate.
    apply IH in Hv. pose proof (skip_ws_length r1) as Hws1.
    destruct (JSON.eat "," (JSON.skip_ws r1)) as [r2 |] eqn:Hcomma.
    + apply eat_length in Hcomma.
      destruct (JSON.parse_elements f r2) as [more r3 | |] eqn:Hm; try discriminate.
      apply IH in Hm. intros [= _ <-]. lia.
    + destruct (JSON.eat "]" (JSON.skip_ws r1)) as [r2 |] eqn:Hclose; [| discriminate].
      apply eat_length in Hclose. intros [= _ <-]. lia.
Qed.

(** Two units of fuel for every character are enough. *)
Lemma parse_fuel_suffices (f : nat) (s : string) :
  ((2 * String.length s + 1 <= f)%nat -> JSON.parse_value f s <> JSON.OutOfFuel)
  /\ ((2 * String.length s + 2 <= f)%nat -> JSON.parse_members f s <> JSON.OutOfFuel)
  /\ ((2 * String.length s + 2 <= f)%nat -> JSON.parse_elements f s <> JSON.OutOfFuel).
Proof.
  revert s. induction f as [| f IH]; intros s.
  { repeat split; intros; lia. }
  pose proof (skip_ws_length s) as Hws.
  split; [| split]; intros Hf.
  - cbn [JSON.parse_value].
    destruct (JSON.skip_ws s) as [| c r0] eqn:Hs; [discriminate |].
    cbn [String.length] in Hws.
    destruct (Ascii.eqb c "{").
    { destruct (JSON.eat "}" (JSON.skip_ws r0)); [discriminate |].
      destruct (JSON.parse_members f r0) eqn:Hm; try discriminate.
      apply IH in Hm; [contradiction | lia]. }
    destruct (Ascii.eqb c "[").
    { destruct (JSON.eat "]" (JSON.skip_ws r0)); [discriminate |].
      destruct (JSON.parse_elements f r0) eqn:Hm; try discriminate.
      apply IH in Hm; [contradiction | lia]. }
    destruct (Ascii.eqb c "034").
    { destruct (JSON.parse_string r0) as [[str r1] |]; discriminate. }
    destruct (Ascii.eqb c "-" || JSON.is_digit c).
    { destruct (JSON.parse_number (String c r0)) as [[lit r1] |]; discriminate. }
    unfold JSON.parse_literal.
    repeat match goal with
           | |- context [Js.strip_prefix ?p ?t] => destruct (Js.strip_prefix p t)
           end; discriminate.
  - cbn [JSON.parse_members].
    destruct (JSON.eat "034" (JSON.skip_ws s)) as [r0 |] eqn:Hq; [| discriminate].
    apply eat_length in Hq.
    destruct (JSON.parse_string r0) as [[k r1] |] eqn:Hk; [| discriminate].
    apply parse_string_length in Hk. pose proof (skip_ws_length r1) as Hws1.
    destruct (JSON.eat ":" (JSON.skip_ws r1)) as [r2 |] eqn:Hc; [| discriminate].
    apply eat_length in Hc.
    destruct (JSON.parse_value f r2) as [v r3 | |] eqn:Hv; try discriminate.
    + apply (parse_consumes f r2) in Hv. pose proof (skip_ws_length r3) as Hws3.
      destruct (JSON.eat "," (JSON.skip_ws r3)) as [r4 |] eqn:Hcomma.
      * apply eat_length in Hcomma.
        destruct (JSON.parse_members f r4) eqn:Hm; try discriminate.
        apply IH in Hm; [contradiction | lia].
      * destruct (JSON.eat "}" (JSON.skip_ws r3)); discriminate.
    + apply IH in Hv; [contradiction | lia].
  - cbn [JSON.parse_elements].
    destruct (JSON.parse_value f s) as [v r1 | |] eqn:Hv; try discriminate.
    + apply (parse_consumes f s) in Hv. pose proof (skip_ws_length r1) as Hws1.
      destruct (JSON.eat "," (JSON.skip_ws r1)) as [r2 |] eqn:Hcomma.
      * apply eat_length in Hcomma.
        destruct (JSON.parse_elements f r2) eqn:Hm; try discriminate.
        apply IH in Hm; [contradiction | lia].
      * destruct (JSON.eat "]" (JSON.skip_ws r1)); discriminate.
    + apply IH in Hv; [contradiction | lia].
Qed.

(** [JSON.parse] gives [None] for a syntax error only. *)
Lemma parse_value_fuel (s : string) :
  JSON.parse_value (JSON.parse_fuel s) s <> JSON.OutOfFuel.
Proof. apply parse_fuel_suffices. unfold JSON.parse_fuel. lia. Qed.

(** ** Error translation *)

Lemma unwrapError_no_body (E : Env) (errorIn : thrown) :
  body_of errorIn = None -> unwrapError E errorIn = Ok errorIn.
Proof. intros H. unfold unwrapError. now rewrite H. Qed.

(** A printable value is printed, and any other makes the conversion
    throw a [TypeError]. *)
Lemma to_text_printable (E : Env) :
  forall v : JSON.json,
    if Spec.printable v then exists text : string, to_text E v = Ok text
    else to_text E v = Throw TypeError.
Proof.
  fix IH 1. intros [ | [] | literal | s | items | members ];
    try (cbn; eexists; reflexivity).
  - cbn [Spec.printable to_text].
    induction items as [| x rest IHrest]; [now exists EmptyString |].
    assert (Hhere : if Spec.printable x
                    then exists h : string,
                        match x with
                        | JSON.JNull => Ok EmptyString
                        | _ => to_text E x
                        end = Ok h
                    else match x with
                         | JSON.JNull => Ok EmptyString
                         | _ => to_text E x
                         end = Throw TypeError).
    { pose proof (IH x) as Hx. destruct x; try exact Hx. now exists EmptyString. }
    destruct (Spec.printable x); cbn [andb].
    + destruct Hhere as (h & ->). cbn [mbind Res_bind].
      destruct rest as [| y rest']; [now exists h |].
      match type of IHrest with
      | if ?c then _ else _ => destruct c
      end.
      * destruct IHrest as (tail & ->). cbn [mbind Res_bind]. eauto.
      * rewrite IHrest. reflexivity.
    + rewrite Hhere. reflexivity.
  - cbn. destruct (JSON.lookup_member "toString" members); [reflexivity | eauto].
Qed.

Lemma display_raises (E : Env) (m : option JSON.json) (e : thrown) :
  display E m = Throw e -> e = TypeError.
Proof.
  destruct m as [v |]; [| discriminate]. cbn [display].
  pose proof (to_text_printable E v) as Hv. destruct (Spec.printable v).
  - destruct Hv as (text & ->). discriminate.
  - rewrite Hv. now intros [= <-].
Qed.

(** C1 (as the code has it).  A relay error without a body is returned
    as it is.  With a body that is JSON whose nested message is absent,
    [null], a string in which the pattern is not found, or an array
    without the element "FailedOp" in which no object has a member named
    [toString], the translation returns a new error: the fixed text about
    the bundler, then the nested message as a template literal prints it,
    with the stack of the original.  An array without the element
    "FailedOp" that holds such an object cannot be printed, and the
    translation throws a [TypeError]. *)
Theorem unwrapError_unmatched (E : Env) (errorIn : thrown) :
  (body_of errorIn = None -> unwrapError E errorIn = Ok errorIn)
  /\ (forall (body : string) (errorBody : JSON.json),
        body_of errorIn = Some body ->
        JSON.parse body = Some errorBody ->
        Spec.plainly_unmatched (Spec.nested_message errorBody) = true ->
        exists text : string,
          display E (Spec.nested_message errorBody) = Ok text
          /\ unwrapError E errorIn =
               Ok (new_Error (bundler_failure +:+ text +:+ " )")
                             (stack_of errorIn)))
  /\ (forall (body : string) (errorBody : JSON.json) (items : list JSON.json),
        body_of errorIn = Some body ->
        JSON.parse body = Some errorBody ->
        Spec.nested_message errorBody = Some (JSON.JArray items) ->
        existsb is_FailedOp_string items = false ->
        Spec.printable (JSON.JArray items) = false ->
        unwrapError E errorIn = Throw TypeError).
Proof.
  split; [apply unwrapError_no_body |]. split.
  - intros body errorBody Hbody Hparse Hun.
    unfold unwrapError. rewrite Hbody, Hparse. cbn [of_option mbind Res_bind].
    fold (Spec.nested_message errorBody).
    destruct (Spec.nested_message errorBody) as [[ | b | lit | s | items | kvs ] | ];
      cbn [Spec.plainly_unmatched] in Hun; try discriminate;
      cbn [includes_FailedOp mbind Res_bind].
    + exists "null". split; reflexivity.
    + apply bool_decide_eq_true in Hun. exists s. split; [reflexivity |].
      destruct (Js.includes "FailedOp" s); cbn [match_call mbind Res_bind].
      * now rewrite Hun.
      * reflexivity.
    + apply andb_true_iff in Hun as (Hnone & Hprint).
      apply negb_true_iff in Hnone. rewrite Hnone. cbn [mbind Res_bind display].
      pose proof (to_text_printable E (JSON.JArray items)) as Htext.
      rewrite Hprint in Htext. destruct Htext as (text & Htext).
      exists text. split; [exact Htext |]. now rewrite Htext.
    + exists "undefined". split; reflexivity.
  - intros body errorBody items Hbody Hparse Hmessage Hnone Hprint.
    unfold unwrapError. rewrite Hbody, Hparse. cbn [of_option mbind Res_bind].
    fold (Spec.nested_message errorBody). rewrite Hmessage.
    cbn [includes_FailedOp mbind Res_bind]. rewrite Hnone.
    cbn [mbind Res_bind display].
    pose proof (to_text_printable E (JSON.JArray items)) as Htext.
    rewrite Hprint in Htext. now rewrite Htext.
Qed.

Lemma unwrapError_unmatched_witness :
  unwrapError Demo.env (Demo.relay_error None) = Ok (Demo.relay_error None)
  /\ unwrapError Demo.env (Demo.relay_error (Some Demo.nonce_body)) =
       Ok (new_Error
             "The bundler has failed to include UserOperation in a batch: nonce too low )"
             (Some "Error: processing response error at fetchJson"))
  /\ unwrapError Demo.env (Demo.relay_error (Some Scenario.unprintable_body)) =
       Throw TypeError.
Proof.
  split; [| split].
  - apply (unwrapError_unmatched Demo.env (Demo.relay_error None)). reflexivity.
  - destruct (proj1 (proj2 (unwrapError_unmatched Demo.env
                              (Demo.relay_error (Some Demo.nonce_body))))
                Demo.nonce_body
                (JSON.JObject
                   [("error", JSON.JObject [("message", JSON.JString "nonce too low")])])
                eq_refl eq_refl eq_refl) as (text & Htext & Hrun).
    injection Htext as <-. exact Hrun.
  - apply (proj2 (proj2 (unwrapError_unmatched Demo.env
                           (Demo.relay_error (Some Scenario.unprintable_body))))
             Scenario.unprintable_body
             (JSON.JObject
                [("error",
                  JSON.JObject
                    [("message",
                      JSON.JArray [JSON.JObject [("toString", JSON.JNumber "1")]])])])
             [JSON.JObject [("toString", JSON.JNumber "1")]]);
      vm_compute; reflexivity.
Defined.

(** C1 as stated fails: the body of this relay error is JSON whose
    nested message does not match the pattern, and what the translation
    returns is not the original error. *)
Lemma unwrapError_unmatched_is_replaced :
  Spec.absent_or_unmatched (Demo.relay_error (Some Demo.nonce_body))
  /\ unwrapError Demo.env (Demo.relay_error (Some Demo.nonce_body)) =
       Ok (new_Error
             "The bundler has failed to include UserOperation in a batch: nonce too low )"
             (Some "Error: processing response error at fetchJson"))
  /\ unwrapError Demo.env (Demo.relay_error (Some Demo.nonce_body))
       <> Ok (Demo.relay_error (Some Demo.nonce_body)).
Proof.
  split; [vm_compute; reflexivity |].
  split; [vm_compute; reflexivity |].
  vm_compute. discriminate.
Qed.

(** A body that is no JSON at all: [JSON.parse] throws, and the
    exception leaves [unwrapError]. *)
Example unwrapError_plain_text :
  unwrapError Demo.env (Demo.relay_error (Some "Bad Gateway")) = Throw SyntaxError.
Proof. vm_compute. reflexivity. Qed.

Lemma strip_prefix_shorter (a b s r : string) :
  Js.strip_prefix (a +:+ b) s = Some r -> Js.starts_with a s = true.
Proof.
  unfold Js.starts_with. revert s. induction a as [| c a IH]; intros s H.
  - reflexivity.
  - change (String c a +:+ b) with (String c (a +:+ b)) in H.
    destruct s as [| d s]; cbn [Js.strip_prefix] in H |- *; [discriminate |].
    destruct (Ascii.eqb c d); [now apply IH | discriminate].
Qed.

Lemma append_assoc (a b c : string) : (a +:+ b) +:+ c = a +:+ (b +:+ c).
Proof.
  induction a as [| x a IH]; [reflexivity |].
  change (String x ((a +:+ b) +:+ c) = String x (a +:+ (b +:+ c))).
  f_equal. exact IH.
Qed.

Lemma match_FailedOp_unfold (s : string) :
  Js.match_FailedOp s =
    match match Js.strip_prefix "FailedOp(" s with
          | Some rest => Js.before_last_rparen (Js.dot_star rest)
          | None => None
          end with
    | Some g => Some g
    | None => match s with
              | EmptyString => None
              | String _ r => Js.match_FailedOp r
              end
    end.
Proof. destruct s; reflexivity. Qed.

Lemma includes_unfold (sub s : string) :
  Js.includes sub s =
    Js.starts_with sub s || match s with
                            | EmptyString => false
                            | String _ r => Js.includes sub r
                            end.
Proof. destruct s; reflexivity. Qed.

(** Where the pattern matches, the text [FailedOp] occurs. *)
Lemma match_includes (s group : string) :
  Js.match_FailedOp s = Some group -> Js.includes "FailedOp" s = true.
Proof.
  induction s as [| c r IH]; intros H; rewrite match_FailedOp_unfold in H;
    rewrite includes_unfold.
  - cbn in H. discriminate.
  - destruct (Js.strip_prefix "FailedOp(" (String c r)) as [rest |] eqn:Hp.
    + rewrite (strip_prefix_shorter "FailedOp" "(" _ _ Hp). reflexivity.
    + rewrite (IH H). apply orb_true_r.
Qed.

(** C5.  When the nested message of the body matches the pattern, the
    captured text is split at its commas and the translation returns the
    error that reports the rejection, with field 2 as the reason and
    field 1 as the paymaster address. *)
Theorem unwrapError_failed_op (E : Env) (errorIn : thrown) (body : string)
    (errorBody : JSON.json) (message group : string)
    (opIndex paymasterAddress reason : string) (more : list string) :
  body_of errorIn = Some body ->
  JSON.parse body = Some errorBody ->
  Spec.nested_message errorBody = Some (JSON.JString message) ->
  Js.match_FailedOp message = Some group ->
  Js.split_comma group = opIndex :: paymasterAddress :: reason :: more ->
  unwrapError E errorIn =
    Ok (Spec.bundler_rejection reason paymasterAddress (stack_of errorIn)).
Proof.
  intros Hbody Hparse Hmsg Hmatch Hsplit.
  unfold unwrapError. rewrite Hbody, Hparse. cbn [of_option mbind Res_bind].
  fold (Spec.nested_message errorBody). rewrite Hmsg.
  cbn [includes_FailedOp mbind Res_bind].
  rewrite (match_includes _ _ Hmatch).
  cbn [match_call mbind Res_bind]. rewrite Hmatch, Hsplit.
  cbn [mbind Res_bind lookup list_lookup fmap option_fmap option_map display to_text
       Js.display].
  unfold Spec.bundler_rejection. do 4 f_equal.
  rewrite !append_assoc. reflexivity.
Qed.

Lemma unwrapError_failed_op_witness :
  unwrapError Demo.env (Demo.relay_error (Some Demo.failed_op_body)) =
    Ok (Spec.bundler_rejection "AA21 didn't pay prefund" "0xPAYMASTER"
          (Some "Error: processing response error at fetchJson")).
Proof.
  apply (unwrapError_failed_op Demo.env (Demo.relay_error (Some Demo.failed_op_body))
           Demo.failed_op_body
           (JSON.JObject
              [("error", JSON.JObject
                 [("message",
                   JSON.JString "FailedOp(0,0xPAYMASTER,AA21 didn't pay prefund)")])])
           "FailedOp(0,0xPAYMASTER,AA21 didn't pay prefund)"
           "0,0xPAYMASTER,AA21 didn't pay prefund"
           "0" "0xPAYMASTER" "AA21 didn't pay prefund" []);
    vm_compute; reflexivity.
Defined.

(** ** Running a method *)

Lemma run_bind {A B : Type} (m : M A) (f : A -> M B) (st : State) :
  (m ≫= f) st =
    match m st with
    | (Ok a, st') => f a st'
    | (Throw e, st') => (Throw e, st')
    end.
Proof. reflexivity. Qed.

Lemma run_ret {A : Type} (a : A) (st : State) : (mret a : M A) st = (Ok a, st).
Proof. reflexivity. Qed.

Lemma run_throw {A : Type} (e : thrown) (st : State) : @throw A e st = (Throw e, st).
Proof. reflexivity. Qed.

Lemma run_lift {A : Type} (r : Res A) (st : State) : lift r st = (r, st).
Proof. reflexivity. Qed.

Lemma run_ask {A : Type} (ev : Event) (r : Res A) (st : State) :
  ask ev r st =
    (r, {| apis := apis st; signers := signers st; trace := trace st ++ [ev] |}).
Proof. reflexivity. Qed.

(** One pass over the binds that are in sight. *)
Ltac mrun :=
  repeat first [ rewrite run_bind | rewrite run_ret | rewrite run_ask
               | rewrite run_lift | rewrite run_throw ];
  cbv beta iota.

Lemma read_api_at (l : loc) (a : AccountAPI) (st : State) :
  apis st !! l = Some a -> read_api l st = (Ok a, st).
Proof. intros H. unfold read_api. now rewrite H. Qed.

Lemma read_signer_at (l : loc) (s : Signer) (st : State) :
  signers st !! l = Some s -> read_signer l st = (Ok s, st).
Proof. intros H. unfold read_signer. now rewrite H. Qed.

Lemma fresh_api_unused (st : State) : apis st !! fresh (dom (apis st)) = None.
Proof. apply not_elem_of_dom, is_fresh. Qed.

Lemma fresh_signer_unused (st : State) : signers st !! fresh (dom (signers st)) = None.
Proof. apply not_elem_of_dom, is_fresh. Qed.

(** ** The delegate copy *)

(** C7.  [delegateCopy] returns a new signer with the collaborators of
    the original and a new account API object, which has the value of
    the original in every field but [delegateMode], which is set.  The
    original signer and its account API object are as before, as is every
    other object; nothing leaves the process. *)
Theorem delegateCopy_frame (st : State) (this : loc) (s : Signer) (api : AccountAPI) :
  signers st !! this = Some s ->
  apis st !! smartAccountAPI s = Some api ->
  exists (copy l : loc) (st' : State) (api' : AccountAPI),
    delegateCopy this st = (Ok copy, st')
    /\ signers st' !! copy =
         Some {| config := config s; hooked := hooked s;
                 originalSigner := originalSigner s; zdProvider := zdProvider s;
                 httpRpcClient := httpRpcClient s; smartAccountAPI := l;
                 address := None |}
    /\ apis st' !! l = Some api'
    /\ delegateMode api' = true
    /\ senderAddress api' = senderAddress api
    /\ isPhantom api' = isPhantom api
    /\ entryPointAddress api' = entryPointAddress api
    /\ factoryAddress api' = factoryAddress api
    /\ owner api' = owner api
    /\ index api' = index api
    /\ accountContract api' = accountContract api
    /\ factory api' = factory api
    /\ l <> smartAccountAPI s
    /\ copy <> this
    /\ apis st' !! smartAccountAPI s = Some api
    /\ signers st' !! this = Some s
    /\ (forall l', l' <> l -> apis st' !! l' = apis st !! l')
    /\ (forall c, c <> copy -> signers st' !! c = signers st !! c)
    /\ trace st' = trace st.
Proof.
  intros Hs Hapi.
  set (l := fresh (dom (apis st))).
  set (copy := fresh (dom (signers st))).
  assert (Hl : l <> smartAccountAPI s).
  { intros Heq. pose proof (fresh_api_unused st) as Hf. fold l in Hf.
    rewrite Heq in Hf. congruence. }
  assert (Hc : copy <> this).
  { intros Heq. pose proof (fresh_signer_unused st) as Hf. fold copy in Hf.
    rewrite Heq in Hf. congruence. }
  exists copy, l.
  eexists. exists (set_delegateMode true api).
  split.
  { unfold delegateCopy. rewrite run_bind, (read_signer_at _ _ _ Hs).
    rewrite run_bind, (read_api_at _ _ _ Hapi).
    rewrite run_bind. unfold alloc_api at 1. fold l.
    rewrite run_bind. unfold read_api at 1. cbn [apis].
    rewrite lookup_insert_eq.
    rewrite run_bind. unfold write_api at 1. cbn [apis signers trace].
    unfold alloc_signer. cbn [apis signers trace]. fold copy.
    reflexivity. }
  cbn [apis signers trace].
  rewrite insert_insert_eq.
  repeat match goal with |- _ /\ _ => split end; try reflexivity; try assumption.
  - apply lookup_insert_eq.
  - apply lookup_insert_eq.
  - rewrite lookup_insert_ne by assumption. exact Hapi.
  - rewrite lookup_insert_ne by assumption. exact Hs.
  - intros l' Hne. now rewrite lookup_insert_ne.
  - intros c Hne. now rewrite lookup_insert_ne.
Qed.

Lemma delegateCopy_frame_witness :
  exists (copy l : loc) (st' : State),
    delegateCopy 0%nat Demo.state = (Ok copy, st')
    /\ (delegateMode <$> apis st' !! l) = Some true
    /\ apis st' !! 0%nat = Some Demo.api
    /\ delegateMode Demo.api = false.
Proof.
  destruct (delegateCopy_frame Demo.state 0%nat Demo.signer Demo.api eq_refl eq_refl)
    as (copy & l & st' & api' & Hrun & _ & Hl & Hmode & _ & _ & _ & _ & _ & _ & _ & _
          & _ & _ & Hkept & _).
  exists copy, l, st'.
  split; [exact Hrun |].
  split; [rewrite Hl; cbn; now rewrite Hmode |].
  split; [exact Hkept | reflexivity].
Defined.

(** ** The nonce *)

Lemma getAccountAddress_run (E : Env) (st : State) (this : loc) (api : AccountAPI)
    (a : string) :
  apis st !! this = Some api ->
  Spec.account_address E api = Ok a ->
  getAccountAddress E this st =
    (Ok a, {| apis := <[this := Spec.with_address a api]> (apis st);
              signers := signers st; trace := trace st |}).
Proof.
  intros Hapi Ha. unfold getAccountAddress, Spec.account_address, Spec.with_address in *.
  rewrite run_bind, (read_api_at _ _ _ Hapi).
  destruct (senderAddress api) as [a0 |].
  - injection Ha as ->. cbn. rewrite insert_id by assumption. now destruct st.
  - rewrite run_bind. unfold lift at 1. rewrite Ha.
    rewrite run_bind, (read_api_at _ _ _ Hapi). reflexivity.
Qed.

Lemma with_address_known (E : Env) (api : AccountAPI) (a : string) :
  Spec.account_address E api = Ok a ->
  senderAddress (Spec.with_address a api) = Some a.
Proof.
  unfold Spec.account_address, Spec.with_address.
  destruct (senderAddress api) eqn:Hs; intros H; [congruence | reflexivity].
Qed.

Lemma checkAccountPhantom_phantom (E : Env) (st : State) (this : loc)
    (api : AccountAPI) (a : string) :
  Spec.Phantom E st this api a ->
  checkAccountPhantom E this st =
    (Ok true, {| apis := <[this := Spec.with_address a api]> (apis st);
                 signers := signers st; trace := trace st ++ [EvGetCode a] |}).
Proof.
  intros (Hapi & Hph & Ha & Hcode). unfold checkAccountPhantom.
  rewrite run_bind, (read_api_at _ _ _ Hapi), Hph. cbn [negb].
  rewrite run_bind, (getAccountAddress_run E st this api a Hapi Ha).
  rewrite run_bind. unfold ask. rewrite run_bind. unfold emit at 1, lift at 1.
  cbn [apis signers trace].
  destruct (decide (2 < String.length (chain_getCode E a))%nat); [lia | reflexivity].
Qed.

Lemma checkAccountPhantom_deployed (E : Env) (st : State) (this : loc)
    (api : AccountAPI) (a : string) :
  Spec.Deployed E st this api a ->
  exists (st1 : State) (api1 : AccountAPI),
    checkAccountPhantom E this st = (Ok false, st1)
    /\ apis st1 !! this = Some api1
    /\ accountContract api1 = accountContract api
    /\ Spec.account_address E api1 = Ok a
    /\ signers st1 = signers st
    /\ exists evs, trace st1 = trace st ++ evs
                   /\ forallb (fun ev => negb (Spec.is_nonce_read ev)) evs = true.
Proof.
  intros (Hapi & Ha & Hdep). unfold checkAccountPhantom.
  rewrite run_bind, (read_api_at _ _ _ Hapi).
  destruct (isPhantom api) eqn:Hph; cbn [negb].
  - destruct Hdep as [Hdep | Hcode]; [discriminate |].
    rewrite run_bind, (getAccountAddress_run E st this api a Hapi Ha).
    rewrite run_bind. unfold ask. rewrite run_bind. unfold emit at 1, lift at 1.
    cbn [apis signers trace].
    destruct (decide (2 < String.length (chain_getCode E a))%nat); [| lia].
    rewrite run_bind. unfold read_api at 1. cbn [apis]. rewrite lookup_insert_eq.
    rewrite run_bind. unfold write_api at 1. cbn [apis signers trace].
    eexists. exists (set_isPhantom false (Spec.with_address a api)).
    split; [reflexivity |]. cbn [apis signers trace].
    split; [apply lookup_insert_eq |].
    split; [unfold Spec.with_address; now destruct (senderAddress api) |].
    split.
    { unfold Spec.account_address. cbn [set_isPhantom senderAddress].
      now rewrite (with_address_known E api a Ha). }
    split; [reflexivity |].
    exists [EvGetCode a]. split; reflexivity.
  - exists st, api. split; [reflexivity |].
    repeat split; try assumption.
    exists []. split; [now rewrite app_nil_r | reflexivity].
Qed.

(** An account whose address is known or can be derived is Phantom or
    Deployed. *)
Lemma phantom_or_deployed (E : Env) (st : State) (l : loc) (api : AccountAPI)
    (a : string) :
  apis st !! l = Some api ->
  Spec.account_address E api = Ok a ->
  Spec.Phantom E st l api a \/ Spec.Deployed E st l api a.
Proof.
  intros Hapi Ha. unfold Spec.Phantom, Spec.Deployed.
  destruct (isPhantom api) eqn:Hph; [| right; auto].
  destruct (decide (2 < String.length (chain_getCode E a))%nat).
  - right. auto.
  - left. repeat split; auto. lia.
Qed.

(** C2.  While the account is Phantom, [getNonce] answers 0, and nothing
    that it asks the chain is a read of the nonce.  For a Deployed
    account it answers with the nonce of the account contract, which is
    the last thing it asks. *)
Theorem getNonce_by_deployment (E : Env) (st : State) (this : loc)
    (api : AccountAPI) (a : string) :
  (Spec.Phantom E st this api a ->
   exists (st' : State) (evs : list Event),
     getNonce E this st = (Ok 0, st')
     /\ trace st' = trace st ++ evs
     /\ forallb (fun ev => negb (Spec.is_nonce_read ev)) evs = true)
  /\ (Spec.Deployed E st this api a ->
      exists (st' : State) (evs : list Event),
        getNonce E this st = (Ok (safe_nonce E (Spec.contract_of api a)), st')
        /\ trace st' = trace st ++ evs ++ [EvNonce (Spec.contract_of api a)]
        /\ forallb (fun ev => negb (Spec.is_nonce_read ev)) evs = true).
Proof.
  split.
  - intros Hph. unfold getNonce.
    rewrite run_bind, (checkAccountPhantom_phantom E st this api a Hph).
    eexists. exists [EvGetCode a]. split; [reflexivity |]. split; reflexivity.
  - intros Hdep. unfold getNonce.
    destruct (checkAccountPhantom_deployed E st this api a Hdep)
      as (st1 & api1 & Hrun & Hapi1 & Hc & Ha1 & _ & evs & Htr & Hevs).
    rewrite run_bind, Hrun. unfold _getAccountContract, Spec.contract_of.
    rewrite !run_bind, (read_api_at _ _ _ Hapi1), Hc.
    destruct (accountContract api) as [c |]; cbn [default].
    + mrun. eexists. exists evs. split; [reflexivity |]. cbn [trace].
      split; [now rewrite Htr, app_assoc | exact Hevs].
    + mrun. rewrite (getAccountAddress_run E st1 this api1 a Hapi1 Ha1). mrun.
      rewrite (read_api_at this (Spec.with_address a api1))
        by (cbn [apis]; apply lookup_insert_eq).
      mrun. unfold write_api. mrun.
      eexists. exists evs. split; [reflexivity |]. cbn [trace].
      split; [now rewrite Htr, app_assoc | exact Hevs].
Qed.

Lemma getNonce_by_deployment_witness :
  (exists (st' : State) (evs : list Event),
      getNonce Demo.env 0%nat Demo.state = (Ok 0, st')
      /\ trace st' = trace Demo.state ++ evs
      /\ forallb (fun ev => negb (Spec.is_nonce_read ev)) evs = true)
  /\ (exists (st' : State) (evs : list Event),
        getNonce Demo.env 0%nat Demo.deployed_state = (Ok 3, st')
        /\ trace st' = trace Demo.deployed_state ++ evs
                         ++ [EvNonce "0x00000000000000000000000000000000000005e1"]
        /\ forallb (fun ev => negb (Spec.is_nonce_read ev)) evs = true).
Proof.
  split.
  - apply (proj1 (getNonce_by_deployment Demo.env Demo.state 0%nat Demo.api
                    "0x00000000000000000000000000000000000005e1")).
    repeat split; vm_compute; lia.
  - apply (proj2 (getNonce_by_deployment Demo.env Demo.deployed_state 0%nat
                    Demo.deployed_api "0x00000000000000000000000000000000000005e1")).
    repeat split. left. reflexivity.
Defined.

(** ** The init code *)


(** The loop writes the migration factory into the object when one of
    the addresses is the owner's, and does nothing otherwise. *)
Lemma override_factory_run (addrs : list string) (ownerAddress : string)
    (this : loc) (api : AccountAPI) (st : State) :
  apis st !! this = Some api ->
  override_factory addrs ownerAddress this st =
    (Ok tt,
     if existsb (fun addr => String.eqb (Js.toLowerCase addr) (Js.toLowerCase ownerAddress))
                addrs
     then {| apis := <[this := set_factoryAddress (Some migration_factory) api]> (apis st);
             signers := signers st; trace := trace st |}
     else st).
Proof.
  revert st api. induction addrs as [| addr rest IH]; intros st api Hapi; [reflexivity |].
  cbn [override_factory existsb]. rewrite run_bind.
  destruct (String.eqb (Js.toLowerCase addr) (Js.toLowerCase ownerAddress)).
  - rewrite run_bind, (read_api_at _ _ _ Hapi). unfold write_api at 1. cbv beta iota.
    cbn [orb].
    rewrite (IH _ (set_factoryAddress (Some migration_factory) api))
      by apply lookup_insert_eq.
    cbn [apis signers trace].
    (* a later address that matches writes the same value again *)
    destruct (existsb _ rest); [| reflexivity].
    now rewrite insert_insert_eq.
  - rewrite run_ret. cbv beta iota. cbn [orb]. apply IH, Hapi.
Qed.

Lemma set_factory_same (api : AccountAPI) (f : string) :
  factory api = Some f -> set_factory (Some f) api = api.
Proof. destruct api; cbn; now intros ->. Qed.

(** The object after the loop. *)
Lemma getAccountInitCode_run (E : Env) (st : State) (this : loc) (api : AccountAPI)
    (ownerAddress : string) :
  apis st !! this = Some api ->
  signer_getAddress E (owner api) = Ok ownerAddress ->
  let api1 := if Spec.is_migrated ownerAddress
              then set_factoryAddress (Some migration_factory) api else api in
  let call := encodeFunctionData E "createAccount"
                [AStr ownerAddress; ANum (Num (index api))] in
  getAccountInitCode E this st =
    match Spec.factory_in_use api1 with
    | Some f =>
        (of_option (EthersError "invalid arrayify value") (Hex.hexConcat [f; call]),
         {| apis := <[this := set_factory (Some f) api1]> (apis st);
            signers := signers st;
            trace := trace st ++ [EvSignerGetAddress (owner api)] |})
    | None =>
        (Throw (new_Error no_factory_message None),
         {| apis := <[this := api1]> (apis st); signers := signers st;
            trace := trace st ++ [EvSignerGetAddress (owner api)] |})
    end.
Proof.
  intros Hapi Howner api1 call. unfold getAccountInitCode.
  rewrite run_bind, (read_api_at _ _ _ Hapi). rewrite run_bind, run_ask, Howner.
  rewrite run_bind.
  rewrite (override_factory_run _ ownerAddress this api) by exact Hapi.
  fold (Spec.is_migrated ownerAddress).
  set (st1 := {| apis := <[this := api1]> (apis st); signers := signers st;
                 trace := trace st ++ [EvSignerGetAddress (owner api)] |}).
  assert (Hst1 : (if Spec.is_migrated ownerAddress
                  then {| apis := <[this := set_factoryAddress (Some migration_factory) api]>
                                    (apis st);
                          signers := signers st;
                          trace := trace st ++ [EvSignerGetAddress (owner api)] |}
                  else {| apis := apis st; signers := signers st;
                          trace := trace st ++ [EvSignerGetAddress (owner api)] |}) = st1).
  { subst st1 api1. destruct (Spec.is_migrated ownerAddress); [reflexivity |].
    now rewrite insert_id. }
  cbn [apis signers trace]. rewrite Hst1.
  assert (H1 : apis st1 !! this = Some api1) by apply lookup_insert_eq.
  rewrite run_bind, (read_api_at _ _ _ H1).
  assert (Hidx : index api1 = index api) by (subst api1; now destruct (Spec.is_migrated _)).
  unfold Spec.factory_in_use.
  destruct (factory api1) as [f |] eqn:Hf.
  - mrun. rewrite (read_api_at _ _ _ H1), Hf. mrun. rewrite Hidx.
    now rewrite (set_factory_same api1 f Hf).
  - destruct (factoryAddress api1) as [fa |] eqn:Hfa.
    + destruct (String.eqb fa EmptyString); cbn [negb].
      * mrun. reflexivity.
      * rewrite run_bind. unfold write_api at 1. cbv beta iota.
        rewrite run_bind. unfold read_api at 1. cbn [apis]. rewrite lookup_insert_eq.
        cbn [set_factory factory]. mrun.
        cbn [set_factory index]. rewrite Hidx. subst st1. cbn [apis signers trace].
        now rewrite insert_insert_eq.
    + mrun. reflexivity.
Qed.


(** C9.  There are four migrated addresses.  For an owner that is one of
    them, letter case aside, [getAccountInitCode] leaves the migration
    factory in the [factoryAddress] of the API object, whatever was
    configured; an API object that has no factory handle yet gets one for
    the migration factory, which the init code starts with; and a later
    call finds the object so and answers the same.  For any other owner
    [factoryAddress] is as before, and the init code is the address of
    the factory in use followed by the encoded [createAccount(owner,
    index)], or, with no factory to use, the error of that name. *)
Theorem getAccountInitCode_factory (E : Env) (st : State) (this : loc)
    (api : AccountAPI) (ownerAddress : string) :
  apis st !! this = Some api ->
  signer_getAddress E (owner api) = Ok ownerAddress ->
  let call := encodeFunctionData E "createAccount"
                [AStr ownerAddress; ANum (Num (index api))] in
  length migrated_owners = 4%nat
  /\ (Spec.is_migrated ownerAddress = true ->
      exists (st' : State) (api' : AccountAPI) (f : string),
        f = default migration_factory (factory api)
        /\ getAccountInitCode E this st =
             (of_option (EthersError "invalid arrayify value") (Hex.hexConcat [f; call]),
              st')
        /\ apis st' !! this = Some api'
        /\ factoryAddress api' = Some migration_factory
        /\ factory api' = Some f
        /\ exists (st'' : State) (api'' : AccountAPI),
             getAccountInitCode E this st' =
               (of_option (EthersError "invalid arrayify value")
                  (Hex.hexConcat [f; call]), st'')
             /\ apis st'' !! this = Some api''
             /\ factoryAddress api'' = Some migration_factory
             /\ factory api'' = Some f)
  /\ (Spec.is_migrated ownerAddress = false ->
      exists (st' : State) (api' : AccountAPI),
        getAccountInitCode E this st =
          (match Spec.factory_in_use api with
           | Some f => of_option (EthersError "invalid arrayify value")
                         (Hex.hexConcat [f; call])
           | None => Throw (new_Error no_factory_message None)
           end, st')
        /\ apis st' !! this = Some api'
        /\ factoryAddress api' = factoryAddress api).
Proof.
  intros Hapi Howner call. split; [reflexivity |]. split.
  - intros Hmig.
    pose proof (getAccountInitCode_run E st this api ownerAddress Hapi Howner) as Hrun.
    cbv zeta in Hrun. rewrite Hmig in Hrun.
    set (api1 := set_factoryAddress (Some migration_factory) api) in *.
    set (f := default migration_factory (factory api)).
    assert (Hin : Spec.factory_in_use api1 = Some f).
    { unfold Spec.factory_in_use, f, api1. cbn [set_factoryAddress factory factoryAddress].
      now destruct (factory api). }
    rewrite Hin in Hrun.
    eexists. exists (set_factory (Some f) api1), f.
    split; [reflexivity |]. split; [exact Hrun |].
    cbn [apis]. split; [apply lookup_insert_eq |].
    split; [reflexivity |]. split; [reflexivity |].
    (* the next call *)
    set (st' := {| apis := <[this := set_factory (Some f) api1]> (apis st);
                   signers := signers st;
                   trace := trace st ++ [EvSignerGetAddress (owner api)] |}).
    assert (Hapi' : apis st' !! this = Some (set_factory (Some f) api1))
      by apply lookup_insert_eq.
    pose proof (getAccountInitCode_run E st' this (set_factory (Some f) api1)
                  ownerAddress Hapi' Howner) as Hrun'.
    cbv zeta in Hrun'. rewrite Hmig in Hrun'.
    cbn [Spec.factory_in_use set_factory set_factoryAddress factory index api1] in Hrun'.
    eexists. eexists. split; [exact Hrun' |].
    cbn [apis]. split; [apply lookup_insert_eq |]. split; reflexivity.
  - intros Hmig.
    pose proof (getAccountInitCode_run E st this api ownerAddress Hapi Howner) as Hrun.
    cbv zeta in Hrun. rewrite Hmig in Hrun.
    destruct (Spec.factory_in_use api) as [f |] eqn:Hin.
    + eexists. exists (set_factory (Some f) api).
      split; [exact Hrun |]. cbn [apis]. split; [apply lookup_insert_eq | reflexivity].
    + eexists. exists api.
      split; [exact Hrun |]. cbn [apis]. split; [apply lookup_insert_eq | reflexivity].
Qed.

Lemma getAccountInitCode_factory_witness :
  (exists (st' : State) (api' : AccountAPI),
      getAccountInitCode Demo.migrated_env 0%nat Demo.state =
        (Ok "0x5d7a58efbc95f5b3da446d9496d73a6e9d57b0a45fbfb9cf", st')
      /\ apis st' !! 0%nat = Some api'
      /\ factoryAddress api' = Some "0x5d7a58eFbC95f5b3Da446D9496D73a6E9D57b0a4")
  /\ (exists (st' : State) (api' : AccountAPI),
        getAccountInitCode Demo.env 0%nat Demo.state =
          (Ok "0x00000000000000000000000000000000000000fa5fbfb9cf", st')
        /\ apis st' !! 0%nat = Some api'
        /\ factoryAddress api' = Some "0x00000000000000000000000000000000000000fa").
Proof.
  split.
  - destruct (getAccountInitCode_factory Demo.migrated_env Demo.state 0%nat Demo.api
                "0x0D68ADA5BA372A508CD76F46000292028E64B1F8" eq_refl eq_refl)
      as (_ & Hmigrated & _).
    destruct (Hmigrated eq_refl) as (st' & api' & f & -> & Hrun & Hat & Hfa & _).
    exists st', api'. split; [exact Hrun |]. split; [exact Hat | exact Hfa].
  - destruct (getAccountInitCode_factory Demo.env Demo.state 0%nat Demo.api
                "0x00000000000000000000000000000000000000a7" eq_refl eq_refl)
      as (_ & _ & Hother).
    destruct (Hother eq_refl) as (st' & api' & Hrun & Hat & Hfa).
    exists st', api'. split; [exact Hrun |]. split; [exact Hat | exact Hfa].
Defined.

(** ** What a method writes to the trace *)

Section EmitsOnly.

Context (P : Event -> bool).

Lemma emits_only_same {A : Type} (m : M A) :
  (forall st, trace (snd (m st)) = trace st) -> Spec.emits_only P m.
Proof. intros H st. exists []. now rewrite app_nil_r, H. Qed.

Lemma emits_only_ret {A : Type} (a : A) : Spec.emits_only P (mret a : M A).
Proof. now apply emits_only_same. Qed.

Lemma emits_only_throw {A : Type} (e : thrown) : Spec.emits_only P (@throw A e).
Proof. now apply emits_only_same. Qed.

Lemma emits_only_lift {A : Type} (r : Res A) : Spec.emits_only P (lift r).
Proof. now apply emits_only_same. Qed.

Lemma emits_only_read_api (l : loc) : Spec.emits_only P (read_api l).
Proof. apply emits_only_same. intros st. unfold read_api. now destruct (apis st !! l). Qed.

Lemma emits_only_write_api (l : loc) (a : AccountAPI) : Spec.emits_only P (write_api l a).
Proof. now apply emits_only_same. Qed.

Lemma emits_only_read_signer (l : loc) : Spec.emits_only P (read_signer l).
Proof.
  apply emits_only_same. intros st. unfold read_signer. now destruct (signers st !! l).
Qed.

Lemma emits_only_write_signer (l : loc) (s : Signer) : Spec.emits_only P (write_signer l s).
Proof. now apply emits_only_same. Qed.

Lemma emits_only_ask {A : Type} (ev : Event) (r : Res A) :
  P ev = true -> Spec.emits_only P (ask ev r).
Proof.
  intros Hev st. exists [ev]. rewrite run_ask. cbn. now rewrite Hev.
Qed.

Lemma emits_only_bind {A B : Type} (m : M A) (f : A -> M B) :
  Spec.emits_only P m -> (forall a, Spec.emits_only P (f a)) -> Spec.emits_only P (m ≫= f).
Proof.
  intros Hm Hf st. rewrite run_bind.
  destruct (Hm st) as (evs & Htr & Hevs).
  destruct (m st) as [[a | e] st1]; cbn [snd] in Htr.
  - destruct (Hf a st1) as (evs' & Htr' & Hevs').
    exists (evs ++ evs'). rewrite Htr', Htr, app_assoc. split; [reflexivity |].
    rewrite forallb_app. now rewrite Hevs, Hevs'.
  - exists evs. now split.
Qed.

Lemma emits_only_try_catch {A : Type} (m : M A) (h : thrown -> M A) :
  Spec.emits_only P m -> (forall e, Spec.emits_only P (h e)) -> Spec.emits_only P (try_catch m h).
Proof.
  intros Hm Hh st. unfold try_catch.
  destruct (Hm st) as (evs & Htr & Hevs).
  destruct (m st) as [[a | e] st1]; cbn [snd] in Htr.
  - exists evs. now split.
  - destruct (Hh e st1) as (evs' & Htr' & Hevs').
    exists (evs ++ evs'). rewrite Htr', Htr, app_assoc. split; [reflexivity |].
    rewrite forallb_app. now rewrite Hevs, Hevs'.
Qed.

End EmitsOnly.

(** ** The address of the signer *)



(** ** Ownership *)



(** ** The asset sweep *)



(** ** Requests that lack a field *)

Lemma getAddress_before_signing (E : Env) (this : loc) :
  Spec.emits_only Spec.before_signing (getAddress E this).
Proof.
  unfold getAddress. apply emits_only_bind; [apply emits_only_read_signer |].
  intros s. destruct (address s); [apply emits_only_ret |].
  apply emits_only_bind; [now apply emits_only_ask |]. intros a.
  apply emits_only_bind; [apply emits_only_read_signer |]. intros s'.
  apply emits_only_bind; [apply emits_only_write_signer |]. intros _.
  apply emits_only_ret.
Qed.

Lemma checkTransaction_before_signing (E : Env) (this : loc) (t : TransactionRequest) :
  Spec.emits_only Spec.before_signing (checkTransaction E this t).
Proof.
  unfold checkTransaction. apply emits_only_bind; [apply getAddress_before_signing |].
  intros a. destruct (tx_from t); [| apply emits_only_ret].
  destruct (String.eqb _ _); [apply emits_only_ret | apply emits_only_throw].
Qed.

Lemma estimateGas_before_signing (E : Env) (this : loc) (t : TransactionRequest) :
  Spec.emits_only Spec.before_signing (estimateGas E this t).
Proof.
  unfold estimateGas.
  apply emits_only_bind; [apply checkTransaction_before_signing |]. intros t'.
  apply emits_only_bind; [apply emits_only_read_signer |]. intros s.
  apply emits_only_bind; [apply emits_only_read_api |]. intros api.
  apply emits_only_bind; [now apply emits_only_ask |]. intros op.
  apply emits_only_bind; [now apply emits_only_ask |]. intros g.
  apply emits_only_ret.
Qed.

Lemma populateTransaction_before_signing (E : Env) (this : loc) (t : TransactionRequest) :
  Spec.emits_only Spec.before_signing (populateTransaction E this t).
Proof.
  unfold populateTransaction.
  apply emits_only_bind; [apply checkTransaction_before_signing |]. intros t'.
  destruct (tx_gasLimit t'); [apply emits_only_ret |].
  apply emits_only_bind; [| intros g; apply emits_only_ret].
  apply emits_only_try_catch; [apply estimateGas_before_signing |].
  intros e. destruct (code_of e) as [c |]; [| apply emits_only_throw].
  destruct (bool_decide _); apply emits_only_throw.
Qed.

(** Populating a request leaves [to], [data] and [value] as they are. *)
Lemma checkTransaction_keeps (E : Env) (this : loc) (t t' : TransactionRequest)
    (st st' : State) :
  checkTransaction E this t st = (Ok t', st') ->
  tx_to t' = tx_to t /\ tx_data t' = tx_data t /\ tx_value t' = tx_value t.
Proof.
  unfold checkTransaction. rewrite run_bind.
  destruct (getAddress E this st) as [[a | e] st0]; [| discriminate].
  destruct (tx_from t) as [f |].
  - destruct (String.eqb _ _); [| discriminate].
    rewrite run_ret. intros [= <- _]. now repeat split.
  - rewrite run_ret. intros [= <- _]. now repeat split.
Qed.

Lemma populateTransaction_keeps (E : Env) (this : loc) (t t' : TransactionRequest)
    (st st' : State) :
  populateTransaction E this t st = (Ok t', st') ->
  tx_to t' = tx_to t /\ tx_data t' = tx_data t /\ tx_value t' = tx_value t.
Proof.
  unfold populateTransaction. rewrite run_bind.
  destruct (checkTransaction E this t st) as [[t0 | e] st0] eqn:Hcheck; [| discriminate].
  apply checkTransaction_keeps in Hcheck.
  destruct (tx_gasLimit t0).
  - rewrite run_ret. now intros [= <- _].
  - rewrite run_bind.
    destruct (try_catch _ _ st0) as [[g | e] st1]; [| discriminate].
    rewrite run_ret. intros [= <- _]. exact Hcheck.
Qed.

(** C4 (as the code has it).  A request without [to], or with [to] but
    with neither [data] nor [value], is rejected: [sendTransaction]
    populates the request first, which estimates the gas of a request
    that has no gas limit; when that fails, its exception is the
    outcome, and otherwise the outcome is the error that names the
    missing field.  Nothing is signed or submitted on the way. *)
Theorem sendTransaction_missing_field (E : Env) (st : State) (this : loc)
    (transaction : TransactionRequest) :
  Spec.lacks_required_fields transaction = true ->
  sendTransaction E this transaction st =
    match populateTransaction E this (zero_fees transaction) st with
    | (Ok _, st1) => (Throw (Spec.missing_field_error transaction), st1)
    | (Throw e, st1) => (Throw e, st1)
    end
  /\ exists evs : list Event,
       trace (snd (sendTransaction E this transaction st)) = trace st ++ evs
       /\ forallb (fun ev => negb (Spec.is_signing_or_submission ev)) evs = true.
Proof.
  intros Hlacks.
  assert (Hrun : sendTransaction E this transaction st =
                 match populateTransaction E this (zero_fees transaction) st with
                 | (Ok _, st1) => (Throw (Spec.missing_field_error transaction), st1)
                 | (Throw e, st1) => (Throw e, st1)
                 end).
  { unfold sendTransaction. rewrite run_bind.
    destruct (populateTransaction E this (zero_fees transaction) st)
      as [[t | e] st1] eqn:Hpop; [| reflexivity].
    apply populateTransaction_keeps in Hpop. destruct Hpop as (Hto & Hdata & Hvalue).
    assert (Hz : tx_to (zero_fees transaction) = tx_to transaction
                 /\ tx_data (zero_fees transaction) = tx_data transaction
                 /\ tx_value (zero_fees transaction) = tx_value transaction).
    { unfold zero_fees. now destruct (_ || _). }
    destruct Hz as (Hzto & Hzdata & Hzvalue).
    rewrite run_bind. unfold verifyAllNecessaryFields, Spec.missing_field_error,
      Spec.lacks_required_fields in *.
    rewrite Hto, Hdata, Hvalue, Hzto, Hzdata, Hzvalue.
    destruct (tx_to transaction); [| reflexivity].
    destruct (tx_data transaction); [discriminate |].
    destruct (tx_value transaction); [discriminate | reflexivity]. }
  split; [exact Hrun |].
  rewrite Hrun.
  destruct (populateTransaction_before_signing E this (zero_fees transaction) st)
    as (evs & Htr & Hevs).
  exists evs. split; [| exact Hevs].
  now destruct (populateTransaction E this (zero_fees transaction) st) as [[t | e] st1].
Qed.

Lemma sendTransaction_missing_field_witness :
  (exists st' : State,
      sendTransaction Demo.env 0%nat Demo.bare_request Demo.state =
        (Throw (new_Error "Missing call data or value" None), st')
      /\ forallb (fun ev => negb (Spec.is_signing_or_submission ev)) (trace st') = true)
  /\ (exists st' : State,
        sendTransaction Demo.env 0%nat Demo.empty_request Demo.state =
          (Throw (new_Error "Missing call target" None), st')
        /\ forallb (fun ev => negb (Spec.is_signing_or_submission ev)) (trace st') = true).
Proof.
  split.
  - destruct (sendTransaction_missing_field Demo.env Demo.state 0%nat Demo.bare_request
                eq_refl) as (Hrun & _).
    eexists. split; [exact Hrun |]. vm_compute. reflexivity.
  - destruct (sendTransaction_missing_field Demo.env Demo.state 0%nat Demo.empty_request
                eq_refl) as (Hrun & _).
    eexists. split; [exact Hrun |]. vm_compute. reflexivity.
Defined.

(** C4 as stated fails: for a request that names a recipient and
    neither data nor value, the signer has, by the time it rejects,
    built an unsigned operation for the recipient and asked the bundler
    for an estimate. *)
Lemma sendTransaction_estimates_before_rejecting :
  Spec.lacks_required_fields Demo.bare_request = true
  /\ trace Demo.state = []
  /\ exists st' : State,
       sendTransaction Demo.env 0%nat Demo.bare_request Demo.state =
         (Throw (new_Error "Missing call data or value" None), st')
       /\ trace st' =
            [ EvGetSenderAccountAddress 2;
              EvCreateUnsignedUserOp 0%nat
                {| info_target := "0x00000000000000000000000000000000000000d0";
                   info_data := "0x"; info_value := None;
                   info_gasLimit := None; info_maxFeePerGas := None;
                   info_maxPriorityFeePerGas := None |};
              EvEstimateUserOpGas 3 (with_signature dummy_signature Demo.operation) ]
       /\ existsb Spec.is_estimation (trace st') = true.
Proof.
  split; [reflexivity |]. split; [reflexivity |].
  eexists. split; [vm_compute; reflexivity |]. split; reflexivity.
Qed.

(** With a bundler that refuses to estimate, the same requests are not
    rejected for their missing field at all. *)
Example sendTransaction_estimate_refused :
  fst (sendTransaction (Demo.with_failing_estimate Demo.env) 0%nat
         Demo.bare_request Demo.state) =
    Throw (EthersError "cannot estimate gas")
  /\ fst (sendTransaction (Demo.with_failing_estimate Demo.env) 0%nat
            Demo.empty_request Demo.state) =
       Throw (EthersError "cannot estimate gas").
Proof. split; vm_compute; reflexivity. Qed.

(** ** Submission *)

(** A complete request goes to the bundler; what the bundler throws is
    translated and thrown on. *)
Lemma sendTransaction_submission (E : Env) (st st1 : State) (this : loc)
    (transaction t : TransactionRequest) (s : Signer) (api : AccountAPI)
    (op : UserOperationStruct) (response : TransactionResponse) :
  populateTransaction E this (zero_fees transaction) st = (Ok t, st1) ->
  Spec.lacks_required_fields transaction = false ->
  signers st1 !! this = Some s ->
  apis st1 !! smartAccountAPI s = Some api ->
  createSignedUserOp E api (Spec.signed_op_info t) = Ok op ->
  constructUserOpTransactionResponse E op = Ok response ->
  exists st2 : State,
    sendTransaction E this transaction st =
      (match bundler_sendUserOp E op with
       | Ok _ => Ok response
       | Throw e =>
           match unwrapError E e with
           | Ok translated => Throw translated
           | Throw raised => Throw raised
           end
       end, st2)
    /\ last (trace st2) = Some (EvSendUserOpToBundler (httpRpcClient s) op).
Proof.
  intros Hpop Hfields Hs Hapi Hop Hresp.
  pose proof (populateTransaction_keeps _ _ _ _ _ _ Hpop) as (Hto & Hdata & Hvalue).
  assert (Hz : tx_to (zero_fees transaction) = tx_to transaction
               /\ tx_data (zero_fees transaction) = tx_data transaction
               /\ tx_value (zero_fees transaction) = tx_value transaction).
  { unfold zero_fees. now destruct (_ || _). }
  destruct Hz as (Hzto & Hzdata & Hzvalue).
  assert (Hverify : verifyAllNecessaryFields t st1 = (Ok tt, st1)).
  { unfold verifyAllNecessaryFields, Spec.lacks_required_fields in *.
    rewrite Hto, Hdata, Hvalue, Hzto, Hzdata, Hzvalue.
    destruct (tx_to transaction); [| discriminate].
    destruct (tx_data transaction); [reflexivity |].
    destruct (tx_value transaction); [reflexivity | discriminate]. }
  unfold sendTransaction.
  rewrite run_bind, Hpop. rewrite run_bind, Hverify.
  rewrite run_bind, (read_signer_at _ _ _ Hs).
  rewrite run_bind, (read_api_at _ _ _ Hapi).
  fold (Spec.signed_op_info t). rewrite run_bind, run_ask, Hop.
  rewrite run_bind, run_ask, Hresp. cbn [apis signers trace].
  rewrite run_bind.
  destruct (hooked s).
  - unfold emit. cbn [apis signers trace]. rewrite run_bind. unfold try_catch.
    rewrite run_ask. cbn [apis signers trace].
    destruct (bundler_sendUserOp E op) as [h | e].
    + rewrite run_ret. eexists. split; [reflexivity |]. cbn [trace]. apply last_snoc.
    + rewrite run_bind, run_lift. destruct (unwrapError E e) as [e' | x].
      * rewrite run_throw. eexists. split; [reflexivity |]. cbn [trace]. apply last_snoc.
      * eexists. split; [reflexivity |]. cbn [trace]. apply last_snoc.
  - rewrite run_ret. rewrite run_bind. unfold try_catch.
    rewrite run_ask. cbn [apis signers trace].
    destruct (bundler_sendUserOp E op) as [h | e].
    + rewrite run_ret. eexists. split; [reflexivity |]. cbn [trace]. apply last_snoc.
    + rewrite run_bind, run_lift. destruct (unwrapError E e) as [e' | x].
      * rewrite run_throw. eexists. split; [reflexivity |]. cbn [trace]. apply last_snoc.
      * eexists. split; [reflexivity |]. cbn [trace]. apply last_snoc.
Qed.

(** A transfer that the bundler refuses with a FailedOp message: the
    caller gets the translated error. *)
Example sendTransaction_rejected_by_bundler :
  fst (sendTransaction
         (Demo.with_submission (Throw (Demo.relay_error (Some Demo.failed_op_body)))
            Demo.env)
         0%nat Demo.transfer_request Demo.state) =
    Throw (Spec.bundler_rejection "AA21 didn't pay prefund" "0xPAYMASTER"
             (Some "Error: processing response error at fetchJson")).
Proof. vm_compute. reflexivity. Qed.

(** ** Words and the ABI coder *)

Lemma be_bytes_length (w : nat) (n : N) : length (Abi.be_bytes w n) = w.
Proof.
  revert n. induction w as [| w IH]; intros n; cbn [Abi.be_bytes]; [reflexivity |].
  rewrite length_app, IH. cbn. lia.
Qed.

Lemma byte_of_N_value (n : N) : (n < 256)%N -> Byte.to_N (Abi.byte_of_N n) = n.
Proof.
  intros Hn. unfold Abi.byte_of_N.
  destruct (Byte.of_N n) as [b |] eqn:Hb.
  - now apply Byte.to_of_N.
  - apply Byte.of_N_None_iff in Hb. lia.
Qed.

Lemma be_value_snoc (bs : list byte) (b : byte) :
  Abi.be_value (bs ++ [b]) = (Abi.be_value bs * 256 + Byte.to_N b)%N.
Proof. unfold Abi.be_value. now rewrite fold_left_app. Qed.

Lemma be_value_be_bytes (w : nat) (n : N) :
  Abi.be_value (Abi.be_bytes w n) = (n mod 256 ^ N.of_nat w)%N.
Proof.
  revert n. induction w as [| w IH]; intros n.
  - cbn. now rewrite N.mod_1_r.
  - cbn [Abi.be_bytes]. rewrite be_value_snoc, IH.
    rewrite byte_of_N_value by (apply N.mod_lt; lia).
    rewrite Nat2N.inj_succ, N.pow_succ_r', N.Div0.mod_mul_r. lia.
Qed.

Lemma word_value (n : N) (bs : list byte) :
  Abi.word n = Some bs -> length bs = 32%nat /\ Abi.be_value bs = n.
Proof.
  unfold Abi.word. destruct (n <? 2 ^ 256)%N eqn:Hn; [| discriminate].
  intros H. assert (Hbs : bs = Abi.be_bytes 32 n) by congruence. subst bs. clear H.
  split; [apply be_bytes_length |].
  rewrite be_value_be_bytes. apply N.ltb_lt in Hn.
  apply N.mod_small. exact Hn.
Qed.

Lemma address_word_value (n : N) (bs : list byte) :
  Abi.address_word n = Some bs -> length bs = 32%nat /\ Abi.be_value bs = n.
Proof.
  unfold Abi.address_word. destruct (n <? 2 ^ 160)%N eqn:Hn; [| discriminate].
  intros H. assert (Hbs : bs = Abi.be_bytes 32 n) by congruence. subst bs. clear H.
  split; [apply be_bytes_length |].
  rewrite be_value_be_bytes. apply N.ltb_lt in Hn.
  apply N.mod_small. eapply N.lt_trans; [exact Hn |]. reflexivity.
Qed.

(** Reading the word that sits behind [pre]. *)
Lemma read_word_at (pre w post : list byte) :
  length w = 32%nat ->
  Abi.read_word (length pre) (pre ++ w ++ post) = Some (Abi.be_value w).
Proof.
  intros Hw. unfold Abi.read_word.
  rewrite drop_app_length, take_app_length' by (now rewrite Hw).
  now destruct (decide (length w = 32%nat)).
Qed.

Lemma encode_bytes_length (bs enc : list byte) :
  Abi.encode_bytes bs = Some enc ->
  length enc = (32 + length bs + Abi.padding (length bs))%nat.
Proof.
  unfold Abi.encode_bytes.
  destruct (Abi.word (N.of_nat (length bs))) as [len |] eqn:Hlen; [| discriminate].
  cbn. intros [= <-]. apply word_value in Hlen as [Hl _].
  rewrite !length_app, length_replicate, Hl. lia.
Qed.

(** Reading the [bytes] value whose encoding sits behind [pre]. *)
Lemma read_bytes_at (pre bs enc post : list byte) :
  Abi.encode_bytes bs = Some enc ->
  Abi.read_bytes (length pre) (pre ++ enc ++ post) = Some bs.
Proof.
  unfold Abi.encode_bytes.
  destruct (Abi.word (N.of_nat (length bs))) as [len |] eqn:Hlen; [| discriminate].
  cbn. intros [= <-]. apply word_value in Hlen as [Hl Hv].
  unfold Abi.read_bytes.
  rewrite <- !app_assoc. rewrite (read_word_at pre len _ Hl). cbn.
  rewrite Hv, Nat2N.id.
  rewrite (app_assoc pre len), drop_app_length' by (rewrite length_app; lia).
  rewrite take_app_length.
  now destruct (decide (length bs = length bs)).
Qed.

(** What the coder encodes, it decodes. *)
Lemma decode_encode (a : N) (b1 b2 data : list byte) :
  Abi.encode_address_bytes_bytes a b1 b2 = Some data ->
  Abi.decode_address_bytes_bytes data = Some (a, b1, b2).
Proof.
  unfold Abi.encode_address_bytes_bytes.
  destruct (Abi.address_word a) as [head |] eqn:Hhead; cbn [mbind option_bind]; [| discriminate].
  destruct (Abi.encode_bytes b1) as [t1 |] eqn:Ht1; cbn [mbind option_bind]; [| discriminate].
  destruct (Abi.encode_bytes b2) as [t2 |] eqn:Ht2; cbn [mbind option_bind]; [| discriminate].
  destruct (Abi.word 96) as [o1 |] eqn:Ho1; cbn [mbind option_bind]; [| discriminate].
  destruct (Abi.word (96 + N.of_nat (length t1))) as [o2 |] eqn:Ho2; cbn [mbind option_bind]; [| discriminate].
  cbn [mbind option_bind]. intros H.
  assert (Hdata : data = head ++ o1 ++ o2 ++ t1 ++ t2) by congruence.
  subst data. clear H.
  apply address_word_value in Hhead as [Lhead Vhead].
  apply word_value in Ho1 as [Lo1 Vo1].
  apply word_value in Ho2 as [Lo2 Vo2].
  unfold Abi.decode_address_bytes_bytes.
  (* the three head words *)
  assert (R0 : Abi.read_word 0 (head ++ o1 ++ o2 ++ t1 ++ t2) = Some a).
  { rewrite <- Vhead. apply (read_word_at [] head _ Lhead). }
  rewrite R0. cbn [mbind option_bind].
  assert (R1 : Abi.read_word 32 (head ++ o1 ++ o2 ++ t1 ++ t2) = Some 96%N).
  { rewrite <- Lhead, <- Vo1. apply read_word_at, Lo1. }
  rewrite R1. cbn [mbind option_bind].
  assert (R2 : Abi.read_word 64 (head ++ o1 ++ o2 ++ t1 ++ t2)
               = Some (96 + N.of_nat (length t1))%N).
  { rewrite <- Vo2. rewrite (app_assoc head o1).
    replace 64%nat with (length (head ++ o1)) by (rewrite length_app; lia).
    apply read_word_at, Lo2. }
  rewrite R2. cbn [mbind option_bind].
  (* the two tails *)
  assert (T1 : Abi.read_bytes (N.to_nat 96) (head ++ o1 ++ o2 ++ t1 ++ t2) = Some b1).
  { rewrite (app_assoc head o1), (app_assoc (head ++ o1) o2).
    replace (N.to_nat 96) with (length ((head ++ o1) ++ o2))
      by (rewrite !length_app; lia).
    apply read_bytes_at, Ht1. }
  rewrite T1. cbn [mbind option_bind].
  assert (T2 : Abi.read_bytes (N.to_nat (96 + N.of_nat (length t1)))
                 (head ++ o1 ++ o2 ++ t1 ++ t2) = Some b2).
  { rewrite (app_assoc head o1), (app_assoc (head ++ o1) o2),
      (app_assoc ((head ++ o1) ++ o2) t1).
    replace (N.to_nat (96 + N.of_nat (length t1)))
      with (length (((head ++ o1) ++ o2) ++ t1)) by (rewrite !length_app; lia).
    rewrite <- (app_nil_r t2) at 1. apply read_bytes_at, Ht2. }
  rewrite T2. reflexivity.
Qed.

(** ** Hexadecimal strings *)

Lemma byte_of_digits_hex (b : byte) :
  Hex.byte_of_digits (Hex.hex_digit (Byte.to_N b / 16))
                     (Hex.hex_digit (Byte.to_N b mod 16)) = Some b.
Proof. destruct b; reflexivity. Qed.

Lemma bytes_of_hex_of_bytes (bs : list byte) :
  Hex.bytes_of_hex (Hex.hex_of_bytes bs) = Some bs.
Proof.
  induction bs as [| b bs IH]; [reflexivity |].
  cbn [Hex.hex_of_bytes Hex.hex_of_byte Hex.bytes_of_hex].
  now rewrite byte_of_digits_hex, IH.
Qed.

Lemma arrayify_hexlify (bs : list byte) : Hex.arrayify (Hex.hexlify bs) = Some bs.
Proof. apply bytes_of_hex_of_bytes. Qed.

Lemma length_append (a b : string) :
  String.length (a +:+ b) = (String.length a + String.length b)%nat.
Proof.
  induction a as [| c a IH]; [reflexivity |].
  change (S (String.length (a +:+ b)) = S (String.length a + String.length b)).
  now rewrite IH.
Qed.

Lemma substring_whole (s : string) : String.substring 0 (String.length s) s = s.
Proof. induction s as [| c s IH]; [reflexivity |]. cbn. now rewrite IH. Qed.

Lemma substring_back (a b : string) :
  String.substring (String.length a) (String.length b) (a +:+ b) = b.
Proof.
  induction a as [| c a IH]; [apply substring_whole |].
  change (String.substring (String.length a) (String.length b) (a +:+ b) = b).
  exact IH.
Qed.

Lemma substring_front (a b : string) :
  String.substring 0 (String.length a) (a +:+ b) = a.
Proof.
  induction a as [| c a IH]; [now destruct b |].
  change (String c (String.substring 0 (String.length a) (a +:+ b)) = String c a).
  now rewrite IH.
Qed.

Lemma strip_suffix_append (front suffix : string) :
  Js.strip_suffix suffix (front +:+ suffix) = Some front.
Proof.
  unfold Js.strip_suffix. rewrite length_append.
  replace (String.length front + String.length suffix - String.length suffix)%nat
    with (String.length front) by lia.
  rewrite substring_back, substring_front, String.eqb_refl.
  rewrite bool_decide_eq_true_2 by lia. reflexivity.
Qed.

(** ** The wrapped signature *)

Lemma coder_encode_unwrap (E : Env) (a b1 sig encoded : string) :
  coder_encode E a b1 sig = Ok encoded ->
  exists raw : list byte,
    Hex.arrayify sig = Some raw
    /\ Spec.unwrap (encoded +:+ MAGIC_SUFFIX) = Some raw.
Proof.
  unfold coder_encode.
  destruct (parseAddress E a) as [n |]; cbn [of_option mbind Res_bind]; [| discriminate].
  destruct (Hex.arrayify b1) as [x1 |]; cbn [of_option mbind Res_bind]; [| discriminate].
  destruct (Hex.arrayify sig) as [x2 |]; cbn [of_option mbind Res_bind]; [| discriminate].
  destruct (Abi.encode_address_bytes_bytes n x1 x2) as [data |] eqn:Hdata;
    cbn [of_option mbind Res_bind]; [| discriminate].
  intros H. assert (Henc : encoded = Hex.hexlify data) by congruence. subst encoded.
  exists x2. split; [reflexivity |].
  unfold Spec.unwrap. rewrite strip_suffix_append. cbn [mbind option_bind].
  rewrite arrayify_hexlify. cbn [mbind option_bind].
  now rewrite (decode_encode _ _ _ _ Hdata).
Qed.

Lemma word_total (n : N) : (n < 2 ^ 256)%N -> Abi.word n = Some (Abi.be_bytes 32 n).
Proof. intros Hn. unfold Abi.word. apply N.ltb_lt in Hn. now rewrite Hn. Qed.

Lemma padding_bound (len : nat) : (Abi.padding len < 32)%nat.
Proof. unfold Abi.padding. apply Nat.mod_upper_bound. lia. Qed.

(** Well-formed arguments are encoded. *)
Lemma coder_encode_total (E : Env) (a b1 sig : string) (n : N) (x1 x2 : list byte) :
  parseAddress E a = Some n ->
  (n < 2 ^ 160)%N ->
  Hex.arrayify b1 = Some x1 ->
  Hex.arrayify sig = Some x2 ->
  (N.of_nat (length x1) + 160 < 2 ^ 256)%N ->
  (N.of_nat (length x2) < 2 ^ 256)%N ->
  exists data : list byte,
    Abi.encode_address_bytes_bytes n x1 x2 = Some data
    /\ coder_encode E a b1 sig = Ok (Hex.hexlify data).
Proof.
  intros Ha Hn H1 H2 L1 L2.
  assert (Hhead : Abi.address_word n = Some (Abi.be_bytes 32 n)).
  { unfold Abi.address_word. apply N.ltb_lt in Hn. now rewrite Hn. }
  assert (Ht1 : exists t1, Abi.encode_bytes x1 = Some t1).
  { unfold Abi.encode_bytes. rewrite word_total by lia. cbn. eauto. }
  destruct Ht1 as [t1 Ht1].
  assert (Ht2 : exists t2, Abi.encode_bytes x2 = Some t2).
  { unfold Abi.encode_bytes. rewrite word_total by lia. cbn. eauto. }
  destruct Ht2 as [t2 Ht2].
  pose proof (encode_bytes_length _ _ Ht1) as Hlen.
  pose proof (padding_bound (length x1)) as Hpad.
  assert (Ho2 : (96 + N.of_nat (length t1) < 2 ^ 256)%N) by lia.
  assert (Hdata : Abi.encode_address_bytes_bytes n x1 x2
                  = Some (Abi.be_bytes 32 n ++ Abi.be_bytes 32 96
                            ++ Abi.be_bytes 32 (96 + N.of_nat (length t1)) ++ t1 ++ t2)).
  { unfold Abi.encode_address_bytes_bytes.
    rewrite Hhead, Ht1, Ht2. cbn [mbind option_bind].
    rewrite (word_total 96) by reflexivity. cbn [mbind option_bind].
    now rewrite (word_total _ Ho2). }
  eexists. split; [exact Hdata |].
  unfold coder_encode. rewrite Ha, H1, H2. cbn [of_option mbind Res_bind].
  now rewrite Hdata.
Qed.

Lemma wrap_phantom (E : Env) (st : State) (l : loc) (api : AccountAPI) (a sig : string) :
  Spec.Phantom E st l api a ->
  wrap E l sig st =
    (factoryAddress ← getFactoryAddress E (Spec.with_address a api);
     initPayload ← getFactoryAccountInitCode E (Spec.with_address a api);
     encoded ← coder_encode E factoryAddress initPayload sig;
     Ok (encoded +:+ MAGIC_SUFFIX),
     {| apis := <[l := Spec.with_address a api]> (apis st);
        signers := signers st; trace := trace st ++ [EvGetCode a] |}).
Proof.
  intros Hph. unfold wrap.
  rewrite run_bind, (checkAccountPhantom_phantom E st l api a Hph).
  set (st1 := {| apis := <[l := Spec.with_address a api]> (apis st);
                 signers := signers st; trace := trace st ++ [EvGetCode a] |}).
  assert (H1 : apis st1 !! l = Some (Spec.with_address a api)) by apply lookup_insert_eq.
  rewrite run_bind, (read_api_at _ _ _ H1).
  rewrite run_bind, run_lift.
  destruct (getFactoryAddress E (Spec.with_address a api)) as [fa | e];
    cbn [mbind Res_bind]; [| reflexivity].
  rewrite run_bind, (read_api_at _ _ _ H1).
  rewrite run_bind, run_lift.
  destruct (getFactoryAccountInitCode E (Spec.with_address a api)) as [ip | e];
    cbn [mbind Res_bind]; [| reflexivity].
  rewrite run_bind, run_lift.
  destruct (coder_encode E fa ip sig) as [enc | e]; cbn [mbind Res_bind]; reflexivity.
Qed.

Lemma wrap_deployed (E : Env) (st : State) (l : loc) (api : AccountAPI) (a sig : string) :
  Spec.Deployed E st l api a ->
  exists st' : State, wrap E l sig st = (Ok sig, st').
Proof.
  intros Hdep. unfold wrap.
  destruct (checkAccountPhantom_deployed E st l api a Hdep) as (st1 & api1 & Hrun & _).
  rewrite run_bind, Hrun. eexists. reflexivity.
Qed.

Lemma Phantom_trace (E : Env) (st : State) (l : loc) (api : AccountAPI) (a : string)
    (evs : list Event) :
  Spec.Phantom E st l api a ->
  Spec.Phantom E {| apis := apis st; signers := signers st; trace := evs |} l api a.
Proof. intros H. exact H. Qed.

Lemma Deployed_trace (E : Env) (st : State) (l : loc) (api : AccountAPI) (a : string)
    (evs : list Event) :
  Spec.Deployed E st l api a ->
  Spec.Deployed E {| apis := apis st; signers := signers st; trace := evs |} l api a.
Proof. intros H. exact H. Qed.

(** C6.  For a Phantom account, whenever [wrap] returns a blob, taking
    the blob apart gives back the bytes of the raw signature; and it
    does return one when the factory address is an address, the init
    payload and the signature are hex data, and their lengths fit a
    word.  For a Deployed account [wrap] returns the signature as it
    is. *)
Theorem wrap_round_trip (E : Env) (st : State) (l : loc) (api : AccountAPI)
    (a sig : string) :
  (Spec.Phantom E st l api a ->
   (forall (blob : string) (st' : State),
       wrap E l sig st = (Ok blob, st') ->
       exists raw : list byte,
         Hex.arrayify sig = Some raw /\ Spec.unwrap blob = Some raw)
   /\ (forall (factoryAddress initPayload : string) (n : N) (payload raw : list byte),
          getFactoryAddress E (Spec.with_address a api) = Ok factoryAddress ->
          getFactoryAccountInitCode E (Spec.with_address a api) = Ok initPayload ->
          parseAddress E factoryAddress = Some n ->
          (n < 2 ^ 160)%N ->
          Hex.arrayify initPayload = Some payload ->
          Hex.arrayify sig = Some raw ->
          (N.of_nat (length payload) + 160 < 2 ^ 256)%N ->
          (N.of_nat (length raw) < 2 ^ 256)%N ->
          exists (blob : string) (st' : State),
            wrap E l sig st = (Ok blob, st') /\ Spec.unwrap blob = Some raw))
  /\ (Spec.Deployed E st l api a ->
      exists st' : State, wrap E l sig st = (Ok sig, st')).
Proof.
  split; [| apply wrap_deployed].
  intros Hph. pose proof (wrap_phantom E st l api a sig Hph) as Hrun. split.
  - intros blob st' Hblob. rewrite Hrun in Hblob.
    destruct (getFactoryAddress E (Spec.with_address a api)) as [fa | e];
      cbn [mbind Res_bind] in Hblob; [| discriminate].
    destruct (getFactoryAccountInitCode E (Spec.with_address a api)) as [ip | e];
      cbn [mbind Res_bind] in Hblob; [| discriminate].
    destruct (coder_encode E fa ip sig) as [enc | e] eqn:Henc;
      cbn [mbind Res_bind] in Hblob; [| discriminate].
    assert (Hb : blob = enc +:+ MAGIC_SUFFIX) by congruence. subst blob.
    exact (coder_encode_unwrap E fa ip sig enc Henc).
  - intros fa ip n payload raw Hfa Hip Hn Hbound Hpayload Hraw L1 L2.
    destruct (coder_encode_total E fa ip sig n payload raw Hn Hbound Hpayload Hraw L1 L2)
      as (data & _ & Henc).
    rewrite Hfa, Hip in Hrun. cbn [mbind Res_bind] in Hrun.
    rewrite Henc in Hrun. cbn [mbind Res_bind] in Hrun.
    eexists. eexists. split; [exact Hrun |].
    destruct (coder_encode_unwrap E fa ip sig _ Henc) as (raw' & Hraw' & Hun).
    rewrite Hun. congruence.
Qed.

Lemma wrap_round_trip_witness :
  (exists (blob : string) (st' : State),
      wrap Demo.env 0%nat "0x0102031b" Demo.state = (Ok blob, st')
      /\ Spec.unwrap blob = Some [x01; x02; x03; x1b])
  /\ (exists st' : State,
        wrap Demo.env 0%nat "0x0102031b" Demo.deployed_state = (Ok "0x0102031b", st')).
Proof.
  split.
  - destruct (wrap_round_trip Demo.env Demo.state 0%nat Demo.api
                "0x00000000000000000000000000000000000005e1" "0x0102031b")
      as (Hphantom & _).
    assert (Hph : Spec.Phantom Demo.env Demo.state 0%nat Demo.api
                    "0x00000000000000000000000000000000000005e1")
      by (repeat split; vm_compute; lia).
    destruct (Hphantom Hph) as (_ & Htotal).
    apply (Htotal "0x00000000000000000000000000000000000000fa" "0xc0de" 250%N
                  [xc0; xde] [x01; x02; x03; x1b]);
      try reflexivity; vm_compute; reflexivity.
  - apply (proj2 (wrap_round_trip Demo.env Demo.deployed_state 0%nat Demo.deployed_api
                    "0x00000000000000000000000000000000000005e1" "0x0102031b")).
    repeat split. left. reflexivity.
Defined.

(** C3.  With the raw signature that the original signer gives for the
    hash of the message, fixed: for a Deployed account [signMessage]
    returns it as it is; for a Phantom account it returns the hex text
    of the ABI encoding of the factory address, the init payload and the
    signature, with the suffix behind it.  The suffix is one constant of
    32 bytes, so whatever [signMessage] returns for a Phantom account
    ends with it. *)
Theorem signMessage_wraps (E : Env) (st : State) (this : loc) (s : Signer)
    (api : AccountAPI) (a message : string) (dataHash : list byte) (raw : string) :
  signers st !! this = Some s ->
  Hex.arrayify (hashMessage E message) = Some dataHash ->
  signer_signMessage E (originalSigner s) dataHash = Ok raw ->
  let sig := fixSignedData E raw in
  (Spec.Deployed E st (smartAccountAPI s) api a ->
   exists st' : State, signMessage E this message st = (Ok sig, st'))
  /\ (Spec.Phantom E st (smartAccountAPI s) api a ->
      (forall (factoryAddress initPayload : string) (n : N)
              (payload rawBytes data : list byte),
          getFactoryAddress E (Spec.with_address a api) = Ok factoryAddress ->
          getFactoryAccountInitCode E (Spec.with_address a api) = Ok initPayload ->
          parseAddress E factoryAddress = Some n ->
          Hex.arrayify initPayload = Some payload ->
          Hex.arrayify sig = Some rawBytes ->
          Abi.encode_address_bytes_bytes n payload rawBytes = Some data ->
          exists st' : State,
            signMessage E this message st =
              (Ok (Hex.hexlify data +:+ MAGIC_SUFFIX), st'))
      /\ (forall (blob : string) (st' : State),
             signMessage E this message st = (Ok blob, st') ->
             exists front : string, blob = front +:+ MAGIC_SUFFIX))
  /\ Hex.bytes_of_hex MAGIC_SUFFIX = Some (concat (replicate 16 [x64; x92]))
  /\ length (concat (replicate 16 [x64; x92])) = 32%nat.
Proof.
  intros Hs Hhash Hraw sig.
  assert (Hrun : signMessage E this message st =
                 wrap E (smartAccountAPI s) sig
                   {| apis := apis st; signers := signers st;
                      trace := trace st ++ [EvSignMessage (originalSigner s) dataHash] |}).
  { unfold signMessage. rewrite run_bind, (read_signer_at _ _ _ Hs).
    rewrite Hhash. cbn [of_option]. rewrite run_bind, run_lift.
    rewrite run_bind, run_ask, Hraw. reflexivity. }
  split; [| split; [| split; reflexivity]].
  - intros Hdep. rewrite Hrun. eapply wrap_deployed, Deployed_trace, Hdep.
  - intros Hph.
    pose proof (wrap_phantom E _ (smartAccountAPI s) api a sig
                  (Phantom_trace E st _ api a
                     (trace st ++ [EvSignMessage (originalSigner s) dataHash]) Hph))
      as Hwrap.
    cbn [apis signers trace] in Hwrap. split.
    + intros fa ip n payload rawBytes data Hfa Hip Hn Hpayload Hbytes Hdata.
      rewrite Hrun, Hwrap, Hfa, Hip. cbn [mbind Res_bind].
      unfold coder_encode. rewrite Hn, Hpayload, Hbytes. cbn [of_option mbind Res_bind].
      rewrite Hdata. cbn [of_option mbind Res_bind]. eexists. reflexivity.
    + intros blob st' Hblob. rewrite Hrun, Hwrap in Hblob.
      destruct (getFactoryAddress E (Spec.with_address a api)) as [fa | e];
        cbn [mbind Res_bind] in Hblob; [| discriminate].
      destruct (getFactoryAccountInitCode E (Spec.with_address a api)) as [ip | e];
        cbn [mbind Res_bind] in Hblob; [| discriminate].
      destruct (coder_encode E fa ip sig) as [enc | e];
        cbn [mbind Res_bind] in Hblob; [| discriminate].
      exists enc. congruence.
Qed.

Lemma signMessage_wraps_witness :
  (exists st' : State,
      signMessage Demo.env 0%nat "hello" Demo.deployed_state = (Ok "0x0102031b", st'))
  /\ (exists (data : list byte) (st' : State),
        Abi.encode_address_bytes_bytes 250 [xc0; xde] [x01; x02; x03; x1b] = Some data
        /\ signMessage Demo.env 0%nat "hello" Demo.state =
             (Ok (Hex.hexlify data +:+ MAGIC_SUFFIX), st')).
Proof.
  destruct (signMessage_wraps Demo.env Demo.deployed_state 0%nat Demo.signer
              Demo.deployed_api "0x00000000000000000000000000000000000005e1"
              "hello" [xab] "0x0102031b" eq_refl eq_refl eq_refl)
    as (Hdeployed & _).
  destruct (signMessage_wraps Demo.env Demo.state 0%nat Demo.signer
              Demo.api "0x00000000000000000000000000000000000005e1"
              "hello" [xab] "0x0102031b" eq_refl eq_refl eq_refl)
    as (_ & Hphantom & _).
  split.
  - apply Hdeployed. repeat split. left. reflexivity.
  - assert (Hph : Spec.Phantom Demo.env Demo.state 0%nat Demo.api
                    "0x00000000000000000000000000000000000005e1")
      by (repeat split; vm_compute; lia).
    destruct (Hphantom Hph) as (Hreturns & _).
    eexists. 
    assert (Hdata : Abi.encode_address_bytes_bytes 250 [xc0; xde] [x01; x02; x03; x1b]
                    = Some (Abi.be_bytes 32 250 ++ Abi.be_bytes 32 96
                              ++ Abi.be_bytes 32 160
                              ++ (Abi.be_bytes 32 2 ++ [xc0; xde] ++ replicate 30 x00)
                              ++ (Abi.be_bytes 32 4 ++ [x01; x02; x03; x1b]
                                    ++ replicate 28 x00)))
      by (vm_compute; reflexivity).
    destruct (Hreturns "0x00000000000000000000000000000000000000fa" "0xc0de" 250%N
                [xc0; xde] [x01; x02; x03; x1b] _ eq_refl eq_refl eq_refl eq_refl
                eq_refl Hdata) as (st' & Hrun).
    exists st'. split; [exact Hdata | exact Hrun].
Defined.

(** * Further properties of the code *)

(** ** Error translation, in general *)

(** What the translation returns for an error with a body. *)
Lemma unwrapError_translated (E : Env) (errorIn translated : thrown) (body : string) :
  body_of errorIn = Some body ->
  unwrapError E errorIn = Ok translated ->
  Behaviour.is_bundler_failure (stack_of errorIn) translated.
Proof.
  intros Hbody. unfold unwrapError. rewrite Hbody.
  destruct (JSON.parse body) as [errorBody |]; cbn [of_option mbind Res_bind];
    [| discriminate].
  destruct (includes_FailedOp _) as [found | e]; cbn [mbind Res_bind]; [| discriminate].
  match goal with
  | |- (?r ≫= _) = _ -> _ => destruct r as [[info message] | e]
  end; cbn [mbind Res_bind]; [| discriminate].
  destruct (display E message) as [text | e]; cbn [mbind Res_bind]; [| discriminate].
  intros [= <-]. exists (text +:+ " " +:+ info).
  now rewrite !append_assoc.
Qed.

(** What the translation throws is a [SyntaxError] or a [TypeError]. *)
Lemma unwrapError_raises (E : Env) (errorIn raised : thrown) :
  unwrapError E errorIn = Throw raised ->
  raised = SyntaxError \/ raised = TypeError.
Proof.
  unfold unwrapError. destruct (body_of errorIn) as [body |]; [| discriminate].
  destruct (JSON.parse body) as [errorBody |]; cbn [of_option mbind Res_bind];
    [| intros [= <-]; now left].
  destruct (includes_FailedOp _) as [found | e] eqn:Hincludes; cbn [mbind Res_bind].
  - match goal with
    | |- (?r ≫= _) = _ -> _ => destruct r as [[info message] | e] eqn:Hinfo
    end; cbn [mbind Res_bind].
    + destruct (display E message) as [text | e] eqn:Htext; cbn [mbind Res_bind];
        [discriminate |].
      intros [= <-]. right. eapply display_raises, Htext.
    + intros [= <-]. right. destruct found; [| discriminate].
      revert Hinfo. unfold match_call.
      destruct (JSON.opt_get _ _) as [[ | | | s | | ] |]; cbn [mbind Res_bind];
        try (now intros [= <-]).
      destruct (Js.match_FailedOp s); discriminate.
  - intros [= <-]. right. revert Hincludes. unfold includes_FailedOp.
    now destruct (JSON.opt_get _ _) as [[] |]; intros [= <-].
Qed.

(** X1.  Translating a relay error twice gives what translating it once
    gives: what [unwrapError] returns is returned as it is when it is
    passed in again. *)
Theorem unwrapError_idempotent (E : Env) (errorIn translated : thrown) :
  unwrapError E errorIn = Ok translated ->
  unwrapError E translated = Ok translated.
Proof.
  intros Hrun. destruct (body_of errorIn) as [body |] eqn:Hbody.
  - destruct (unwrapError_translated E _ _ _ Hbody Hrun) as (text & ->).
    now apply unwrapError_no_body.
  - rewrite (unwrapError_no_body E _ Hbody) in Hrun. injection Hrun as <-.
    now apply unwrapError_no_body.
Qed.

Lemma unwrapError_idempotent_witness :
  unwrapError Demo.env
    (new_Error
       "The bundler has failed to include UserOperation in a batch: nonce too low )"
       (Some "Error: processing response error at fetchJson")) =
    Ok (new_Error
          "The bundler has failed to include UserOperation in a batch: nonce too low )"
          (Some "Error: processing response error at fetchJson")).
Proof.
  apply (unwrapError_idempotent Demo.env (Demo.relay_error (Some Demo.nonce_body))).
  vm_compute. reflexivity.
Defined.

(** X2.  Whatever the body of a relay error holds, an error that
    [unwrapError] returns for it is a new one: its message is the fixed
    text about the bundler, some text and a closing parenthesis, its
    stack is the stack of the original, and neither the body nor the
    code of the original is on it. *)
Theorem unwrapError_new_error (E : Env) (errorIn translated : thrown) (body : string) :
  body_of errorIn = Some body ->
  unwrapError E errorIn = Ok translated ->
  Behaviour.is_bundler_failure (stack_of errorIn) translated
  /\ stack_of translated = stack_of errorIn
  /\ body_of translated = None
  /\ code_of translated = None.
Proof.
  intros Hbody Hrun.
  pose proof (unwrapError_translated E _ _ _ Hbody Hrun) as Hshape.
  split; [exact Hshape |]. destruct Hshape as (text & ->). now repeat split.
Qed.

Lemma unwrapError_new_error_witness :
  Behaviour.is_bundler_failure (Some "Error: processing response error at fetchJson")
    (Spec.bundler_rejection "AA21 didn't pay prefund" "0xPAYMASTER"
       (Some "Error: processing response error at fetchJson")).
Proof.
  apply (unwrapError_new_error Demo.env (Demo.relay_error (Some Demo.failed_op_body))
           _ Demo.failed_op_body); vm_compute; reflexivity.
Defined.

(** X3.  When the pattern is found in the nested message, the reason is
    field 2 and the paymaster address field 1 of the captured text, split
    at its commas, however many fields there are: a field that is not
    there is printed as [undefined]. *)
Theorem unwrapError_failed_op_fields (E : Env) (errorIn : thrown) (body : string)
    (errorBody : JSON.json) (message group : string) :
  body_of errorIn = Some body ->
  JSON.parse body = Some errorBody ->
  Spec.nested_message errorBody = Some (JSON.JString message) ->
  Js.match_FailedOp message = Some group ->
  unwrapError E errorIn =
    Ok (Spec.bundler_rejection
          (Js.display (Js.split_comma group !! 2%nat))
          (Js.display (Js.split_comma group !! 1%nat))
          (stack_of errorIn)).
Proof.
  intros Hbody Hparse Hmsg Hmatch.
  unfold unwrapError. rewrite Hbody, Hparse. cbn [of_option mbind Res_bind].
  fold (Spec.nested_message errorBody). rewrite Hmsg.
  cbn [includes_FailedOp mbind Res_bind].
  rewrite (match_includes _ _ Hmatch).
  cbn [match_call mbind Res_bind]. rewrite Hmatch. cbn [mbind Res_bind].
  unfold Spec.bundler_rejection. do 2 f_equal.
  destruct (Js.split_comma group !! 2%nat) as [reason |];
    cbn [fmap option_fmap option_map display to_text Js.display];
    rewrite !append_assoc; reflexivity.
Qed.

Lemma unwrapError_failed_op_fields_witness :
  unwrapError Demo.env
    (Demo.relay_error (Some (Demo.error_body "FailedOp(0,0xPAYMASTER)"))) =
    Ok (new_Error
          ("The bundler has failed to include UserOperation in a batch: "
             +:+ "undefined (paymaster address: 0xPAYMASTER))")
          (Some "Error: processing response error at fetchJson")).
Proof.
  apply (unwrapError_failed_op_fields Demo.env
           (Demo.relay_error (Some (Demo.error_body "FailedOp(0,0xPAYMASTER)")))
           (Demo.error_body "FailedOp(0,0xPAYMASTER)")
           (JSON.JObject
              [("error", JSON.JObject
                 [("message", JSON.JString "FailedOp(0,0xPAYMASTER)")])])
           "FailedOp(0,0xPAYMASTER)" "0,0xPAYMASTER");
    vm_compute; reflexivity.
Defined.

(** X4.  [unwrapError] itself throws in these cases and no other: the
    body is not JSON, which is a [SyntaxError]; or the nested message of
    the body is a number, a boolean, an object, an array that holds the
    string "FailedOp", or an array without it that holds, at any depth
    of arrays, an object with a member named [toString], which is a
    [TypeError]. *)
Theorem unwrapError_throws (E : Env) (errorIn raised : thrown) :
  unwrapError E errorIn = Throw raised <->
  exists body : string,
    body_of errorIn = Some body
    /\ match JSON.parse body with
       | None => raised = SyntaxError
       | Some errorBody =>
           raised = TypeError
           /\ Behaviour.not_a_message (Spec.nested_message errorBody) = true
       end.
Proof.
  unfold unwrapError. destruct (body_of errorIn) as [body |].
  - assert (Hbody : forall P : string -> Prop,
              (exists b : string, Some body = Some b /\ P b) <-> P body).
    { intros P. split; [intros (b & [= <-] & H); exact H | intros H; now exists body]. }
    rewrite Hbody. clear Hbody.
    destruct (JSON.parse body) as [errorBody |]; cbn [of_option mbind Res_bind].
    + fold (Spec.nested_message errorBody).
      destruct (Spec.nested_message errorBody) as [[ | b | lit | s | items | kvs ] | ];
        cbn [includes_FailedOp Behaviour.not_a_message mbind Res_bind].
      * cbn [display to_text mbind Res_bind].
        split; [discriminate | intros (_ & ?); discriminate].
      * split; [now intros [= <-] | now intros (-> & _)].
      * split; [now intros [= <-] | now intros (-> & _)].
      * split; [| intros (_ & ?); discriminate].
        destruct (Js.includes "FailedOp" s); cbn [match_call mbind Res_bind];
          [| discriminate].
        destruct (Js.match_FailedOp s) as [group |]; cbn [mbind Res_bind];
          [| discriminate].
        destruct (Js.split_comma group !! 2%nat); discriminate.
      * destruct (existsb is_FailedOp_string items);
          cbn [match_call mbind Res_bind orb display].
        -- split; [now intros [= <-] | now intros (-> & _)].
        -- pose proof (to_text_printable E (JSON.JArray items)) as Htext.
           destruct (Spec.printable (JSON.JArray items)); cbn [negb].
           ++ destruct Htext as (text & ->). cbn [mbind Res_bind].
              split; [discriminate | intros (_ & ?); discriminate].
           ++ rewrite Htext. cbn [mbind Res_bind].
              split; [now intros [= <-] | now intros (-> & _)].
      * split; [now intros [= <-] | now intros (-> & _)].
      * cbn [display mbind Res_bind].
        split; [discriminate | intros (_ & ?); discriminate].
    + split; [now intros [= <-] | now intros ->].
  - split; [discriminate | intros (b & ? & _); discriminate].
Qed.

(** ** What a method adds to the trace *)

Lemma emits_from_only {A : Type} (st : State) (P : Event -> bool) (m : M A) :
  Spec.emits_only P m -> Behaviour.emits_from st P m.
Proof. intros H. apply H. Qed.

Lemma emits_from_bind {A B : Type} (st : State) (P : Event -> bool) (m : M A)
    (f : A -> M B) :
  Behaviour.emits_from st P m ->
  (forall a st', m st = (Ok a, st') -> Behaviour.emits_from st' P (f a)) ->
  Behaviour.emits_from st P (m ≫= f).
Proof.
  intros (evs & Htr & Hevs) Hf. unfold Behaviour.emits_from. rewrite run_bind.
  destruct (m st) as [[a | e] st1]; cbn [snd] in Htr.
  - destruct (Hf a st1 eq_refl) as (evs' & Htr' & Hevs').
    exists (evs ++ evs'). rewrite Htr', Htr, app_assoc. split; [reflexivity |].
    rewrite forallb_app. now rewrite Hevs, Hevs'.
  - exists evs. now split.
Qed.

Lemma emits_only_bind_post {A B : Type} (P : Event -> bool) (Q : A -> Prop)
    (m : M A) (f : A -> M B) :
  Spec.emits_only P m ->
  (forall st a st', m st = (Ok a, st') -> Q a) ->
  (forall a, Q a -> Spec.emits_only P (f a)) ->
  Spec.emits_only P (m ≫= f).
Proof.
  intros Hm HQ Hf st. apply emits_from_bind; [apply Hm |].
  intros a st' Hrun. apply Hf. eapply HQ, Hrun.
Qed.

Lemma emits_only_emit (P : Event -> bool) (ev : Event) :
  P ev = true -> Spec.emits_only P (emit ev).
Proof. intros Hev st. exists [ev]. cbn. now rewrite Hev. Qed.

Section AddressLookups.

Context (E : Env) (P : Event -> bool).
Hypothesis lookups : forall provider, P (EvGetSenderAccountAddress provider) = true.

Lemma getAddress_emits (this : loc) : Spec.emits_only P (getAddress E this).
Proof.
  unfold getAddress. apply emits_only_bind; [apply emits_only_read_signer |].
  intros s. destruct (address s); [apply emits_only_ret |].
  apply emits_only_bind; [now apply emits_only_ask |]. intros a.
  apply emits_only_bind; [apply emits_only_read_signer |]. intros s'.
  apply emits_only_bind; [apply emits_only_write_signer |]. intros _.
  apply emits_only_ret.
Qed.

Lemma checkTransaction_emits (this : loc) (t : TransactionRequest) :
  Spec.emits_only P (checkTransaction E this t).
Proof.
  unfold checkTransaction. apply emits_only_bind; [apply getAddress_emits |].
  intros a. destruct (tx_from t); [| apply emits_only_ret].
  destruct (String.eqb _ _); [apply emits_only_ret | apply emits_only_throw].
Qed.

End AddressLookups.

(** A checked request is the request, with [from] filled in if it was
    not there. *)
Lemma checkTransaction_result (E : Env) (this : loc) (t t' : TransactionRequest)
    (st st' : State) :
  checkTransaction E this t st = (Ok t', st') ->
  t' = t \/ exists a : string, t' = set_from (Some a) t.
Proof.
  unfold checkTransaction. rewrite run_bind.
  destruct (getAddress E this st) as [[a | e] st0]; [| discriminate].
  destruct (tx_from t) as [f |].
  - destruct (String.eqb _ _); [| discriminate].
    rewrite run_ret. intros [= <- _]. now left.
  - rewrite run_ret. intros [= <- _]. right. now exists a.
Qed.

(** A populated request is the checked request, with an estimated gas
    limit if it had none. *)
Lemma populateTransaction_result (E : Env) (this : loc) (t t' : TransactionRequest)
    (st st' : State) :
  populateTransaction E this t st = (Ok t', st') ->
  exists t0 : TransactionRequest,
    (t0 = t \/ exists a : string, t0 = set_from (Some a) t)
    /\ (t' = t0
        \/ exists g : Z, tx_gasLimit t0 = None /\ t' = set_gasLimit (Some (Big g)) t0).
Proof.
  unfold populateTransaction. rewrite run_bind.
  destruct (checkTransaction E this t st) as [[t0 | e] st0] eqn:Hcheck; [| discriminate].
  apply checkTransaction_result in Hcheck.
  destruct (tx_gasLimit t0) eqn:Hlimit.
  - rewrite run_ret. intros [= <- _]. exists t0. split; [exact Hcheck | now left].
  - rewrite run_bind.
    destruct (try_catch _ _ st0) as [[g | e] st1]; [| discriminate].
    rewrite run_ret. intros [= <- _]. exists t0. split; [exact Hcheck |].
    right. now exists g.
Qed.

Section EstimateEmits.

Context (E : Env) (P : Event -> bool) (t : TransactionRequest).
Hypothesis lookups : forall provider, P (EvGetSenderAccountAddress provider) = true.
Hypothesis unsigned :
  forall (l : loc) (t' : TransactionRequest),
    t' = t \/ (exists a : string, t' = set_from (Some a) t) ->
    P (EvCreateUnsignedUserOp l
         {| info_target := default EmptyString (tx_to t');
            info_data := default "0x" (tx_data t');
            info_value := tx_value t';
            info_gasLimit := None;
            info_maxFeePerGas := tx_maxFeePerGas t';
            info_maxPriorityFeePerGas := tx_maxPriorityFeePerGas t' |}) = true.
Hypothesis estimates :
  forall (client : nat) (op : UserOperationStruct),
    P (EvEstimateUserOpGas client (with_signature dummy_signature op)) = true.

Lemma estimateGas_emits (this : loc) : Spec.emits_only P (estimateGas E this t).
Proof.
  unfold estimateGas.
  apply (emits_only_bind_post P
           (fun t' => t' = t \/ exists a : string, t' = set_from (Some a) t)).
  - now apply checkTransaction_emits.
  - intros st t' st'. apply checkTransaction_result.
  - intros t' Ht'.
    apply emits_only_bind; [apply emits_only_read_signer |]. intros s.
    apply emits_only_bind; [apply emits_only_read_api |]. intros api.
    apply emits_only_bind; [apply emits_only_ask; now apply unsigned |]. intros op.
    apply emits_only_bind; [apply emits_only_ask, estimates |]. intros g.
    apply emits_only_ret.
Qed.

End EstimateEmits.

Section SendEmits.

Context (E : Env) (P : Event -> bool) (this : loc) (transaction : TransactionRequest).
Hypothesis populating :
  Spec.emits_only P (populateTransaction E this (zero_fees transaction)).
Hypothesis signing :
  forall (l : loc) (t : TransactionRequest) (st st' : State),
    populateTransaction E this (zero_fees transaction) st = (Ok t, st') ->
    P (EvCreateSignedUserOp l (Spec.signed_op_info t)) = true.
Hypothesis responses : forall provider op, P (EvConstructResponse provider op) = true.
Hypothesis hooks : forall info, P (EvTransactionStarted info) = true.
Hypothesis submissions : forall client op, P (EvSendUserOpToBundler client op) = true.

Lemma sendTransaction_emits : Spec.emits_only P (sendTransaction E this transaction).
Proof.
  unfold sendTransaction.
  apply (emits_only_bind_post P
           (fun t => forall l, P (EvCreateSignedUserOp l (Spec.signed_op_info t)) = true)).
  - exact populating.
  - intros st t st' Hrun l. eapply signing, Hrun.
  - intros t Ht.
    apply emits_only_bind.
    { unfold verifyAllNecessaryFields. destruct (tx_to t); [| apply emits_only_throw].
      destruct (tx_data t), (tx_value t);
        first [apply emits_only_ret | apply emits_only_throw]. }
    intros _.
    apply emits_only_bind; [apply emits_only_read_signer |]. intros s.
    apply emits_only_bind; [apply emits_only_read_api |]. intros api.
    apply emits_only_bind; [apply emits_only_ask, Ht |]. intros op.
    apply emits_only_bind; [apply emits_only_ask, responses |]. intros response.
    apply emits_only_bind.
    { destruct (hooked s); [apply emits_only_emit, hooks | apply emits_only_ret]. }
    intros _.
    apply emits_only_bind; [| intros _; apply emits_only_ret].
    apply emits_only_try_catch; [apply emits_only_ask, submissions |].
    intros e. apply emits_only_bind; [apply emits_only_lift |].
    intros e'. apply emits_only_throw.
Qed.

End SendEmits.

(** ** Fees *)

Lemma zero_fees_keeps (t : TransactionRequest) :
  truthy (tx_maxFeePerGas (zero_fees t)) = false
  /\ truthy (tx_maxPriorityFeePerGas (zero_fees t)) = false
  /\ tx_to (zero_fees t) = tx_to t
  /\ tx_from (zero_fees t) = tx_from t
  /\ tx_data (zero_fees t) = tx_data t
  /\ tx_value (zero_fees t) = tx_value t
  /\ tx_gasLimit (zero_fees t) = tx_gasLimit t.
Proof.
  unfold zero_fees.
  destruct (truthy (tx_maxFeePerGas t)) eqn:Hfee;
    destruct (truthy (tx_maxPriorityFeePerGas t)) eqn:Hpriority;
    cbn; repeat split; assumption.
Qed.

(** X5.  After the first statement of [sendTransaction] neither
    [maxFeePerGas] nor [maxPriorityFeePerGas] of the request is truthy.
    The gas price is set to zero only when neither of the two was truthy:
    a gas price that is given together with one of them stays as it is.
    No other field changes. *)
Theorem zero_fees_result (t : TransactionRequest) :
  truthy (tx_maxFeePerGas (zero_fees t)) = false
  /\ truthy (tx_maxPriorityFeePerGas (zero_fees t)) = false
  /\ tx_gasPrice (zero_fees t) =
       (if truthy (tx_maxFeePerGas t) || truthy (tx_maxPriorityFeePerGas t)
        then tx_gasPrice t else Some (Num 0))
  /\ tx_to (zero_fees t) = tx_to t
  /\ tx_from (zero_fees t) = tx_from t
  /\ tx_data (zero_fees t) = tx_data t
  /\ tx_value (zero_fees t) = tx_value t
  /\ tx_gasLimit (zero_fees t) = tx_gasLimit t.
Proof.
  destruct (zero_fees_keeps t) as (Hfee & Hpriority & Hrest).
  split; [exact Hfee |]. split; [exact Hpriority |]. split; [| exact Hrest].
  unfold zero_fees. now destruct (_ || _).
Qed.

Lemma fees_after_check (t t' : TransactionRequest) :
  t' = t \/ (exists a : string, t' = set_from (Some a) t) ->
  tx_to t' = tx_to t /\ tx_data t' = tx_data t /\ tx_value t' = tx_value t
  /\ tx_gasLimit t' = tx_gasLimit t
  /\ tx_maxFeePerGas t' = tx_maxFeePerGas t
  /\ tx_maxPriorityFeePerGas t' = tx_maxPriorityFeePerGas t.
Proof. intros [-> | (a & ->)]; now repeat split. Qed.

(** ** A request with its gas limit *)

Lemma populateTransaction_limited (E : Env) (P : Event -> bool) (this : loc)
    (t : TransactionRequest) (g : BigNumberish) :
  (forall provider, P (EvGetSenderAccountAddress provider) = true) ->
  tx_gasLimit t = Some g ->
  Spec.emits_only P (populateTransaction E this t).
Proof.
  intros HP Hlimit. unfold populateTransaction.
  apply (emits_only_bind_post _ (fun t' => tx_gasLimit t' = Some g)).
  - now apply checkTransaction_emits.
  - intros st t' st' Hrun.
    destruct (fees_after_check _ _ (checkTransaction_result _ _ _ _ _ _ Hrun))
      as (_ & _ & _ & -> & _).
    exact Hlimit.
  - intros t' ->. apply emits_only_ret.
Qed.

(** X7.  When the request names its gas limit, [sendTransaction]
    estimates nothing: no unsigned operation is built and the bundler is
    not asked for an estimate.  The operation it has signed is for the
    data, the value and the gas limit of the request, with 0x for data
    that are not there. *)
Theorem sendTransaction_gas_limit_given (E : Env) (this : loc)
    (transaction : TransactionRequest) (g : BigNumberish) :
  tx_gasLimit transaction = Some g ->
  Spec.emits_only
    (Behaviour.signs_as (default "0x" (tx_data transaction))
                        (tx_value transaction) (Some g))
    (sendTransaction E this transaction).
Proof.
  intros Hlimit.
  destruct (zero_fees_keeps transaction) as (_ & _ & Hto & _ & Hdata & Hvalue & Hgas).
  apply sendTransaction_emits; try reflexivity.
  - apply (populateTransaction_limited _ _ _ _ g); [reflexivity | congruence].
  - intros l t st st' Hrun.
    destruct (populateTransaction_result _ _ _ _ _ _ Hrun) as (t0 & Ht0 & Ht).
    destruct (fees_after_check _ _ Ht0) as (Hto0 & Hdata0 & Hvalue0 & Hgas0 & _).
    destruct Ht as [-> | (g' & Hnone & _)]; [| congruence].
    cbn. apply bool_decide_eq_true. repeat split; congruence.
Qed.

Lemma sendTransaction_gas_limit_given_witness :
  Spec.emits_only
    (Behaviour.signs_as "0x" (Some (Num 1)) (Some (Num 50000)))
    (sendTransaction Demo.env 0%nat Scenario.limited_request).
Proof.
  apply (sendTransaction_gas_limit_given Demo.env 0%nat Scenario.limited_request
           (Num 50000)).
  reflexivity.
Defined.

(** ** Estimation *)

(** X8.  [estimateGas] asks for an unsigned operation without a gas
    limit and for an estimate of an operation that carries the dummy
    signature, which is 65 bytes long.  It asks for no signature and no
    signed operation, and submits nothing. *)
Theorem estimateGas_unsigned (E : Env) (this : loc) (t : TransactionRequest) :
  Spec.emits_only Behaviour.estimates_unsigned (estimateGas E this t)
  /\ length <$> Hex.arrayify dummy_signature = Some 65%nat.
Proof.
  split; [| vm_compute; reflexivity].
  apply estimateGas_emits; reflexivity.
Qed.

(** ** From the signed operation to the bundler *)

Lemma verifyAllNecessaryFields_populated (E : Env) (this : loc)
    (transaction t : TransactionRequest) (st st1 : State) :
  populateTransaction E this (zero_fees transaction) st = (Ok t, st1) ->
  Spec.lacks_required_fields transaction = false ->
  verifyAllNecessaryFields t st1 = (Ok tt, st1).
Proof.
  intros Hpop Hfields.
  destruct (populateTransaction_keeps _ _ _ _ _ _ Hpop) as (Hto & Hdata & Hvalue).
  destruct (zero_fees_keeps transaction) as (_ & _ & Hzto & _ & Hzdata & Hzvalue & _).
  unfold verifyAllNecessaryFields, Spec.lacks_required_fields in *.
  rewrite Hto, Hdata, Hvalue, Hzto, Hzdata, Hzvalue.
  destruct (tx_to transaction); [| discriminate].
  destruct (tx_data transaction); [reflexivity |].
  destruct (tx_value transaction); [reflexivity | discriminate].
Qed.

Lemma started_info (E : Env) (t : TransactionRequest) (op : UserOperationStruct)
    (response : TransactionResponse) :
  {| hook_hash := hash response;
     hook_from := tx_from t;
     hook_to := tx_to t;
     hook_value := if truthy (tx_value t) then default (Num 0) (tx_value t) else Num 0;
     hook_sponsored := negb (String.eqb (paymasterAndData op) "0x");
     hook_module := getModuleInfo E t |} = Behaviour.started E t op response.
Proof. unfold Behaviour.started. now destruct (tx_value t). Qed.

(** X9.  Once the operation is signed and the response is constructed,
    a signer with a hook tells the hook of the transaction, with 0 for a
    value that is absent or zero, and only then submits the operation;
    a signer without a hook submits at once.  The hook is told whatever
    the bundler then answers. *)
Theorem sendTransaction_announced (E : Env) (st st1 : State) (this : loc)
    (transaction t : TransactionRequest) (s : Signer) (api : AccountAPI)
    (op : UserOperationStruct) (response : TransactionResponse) :
  populateTransaction E this (zero_fees transaction) st = (Ok t, st1) ->
  Spec.lacks_required_fields transaction = false ->
  signers st1 !! this = Some s ->
  apis st1 !! smartAccountAPI s = Some api ->
  createSignedUserOp E api (Spec.signed_op_info t) = Ok op ->
  constructUserOpTransactionResponse E op = Ok response ->
  trace (snd (sendTransaction E this transaction st)) =
    trace st1
    ++ [EvCreateSignedUserOp (smartAccountAPI s) (Spec.signed_op_info t);
        EvConstructResponse (zdProvider s) op]
    ++ (if hooked s
        then [EvTransactionStarted (Behaviour.started E t op response)] else [])
    ++ [EvSendUserOpToBundler (httpRpcClient s) op].
Proof.
  intros Hpop Hfields Hs Hapi Hop Hresp.
  pose proof (verifyAllNecessaryFields_populated _ _ _ _ _ _ Hpop Hfields) as Hverify.
  unfold sendTransaction.
  rewrite run_bind, Hpop. rewrite run_bind, Hverify.
  rewrite run_bind, (read_signer_at _ _ _ Hs).
  rewrite run_bind, (read_api_at _ _ _ Hapi).
  fold (Spec.signed_op_info t). rewrite run_bind, run_ask, Hop.
  rewrite run_bind, run_ask, Hresp. cbn [apis signers trace].
  rewrite started_info. rewrite run_bind.
  destruct (hooked s).
  - unfold emit. cbn [apis signers trace]. rewrite run_bind. unfold try_catch.
    rewrite run_ask. cbn [apis signers trace].
    destruct (bundler_sendUserOp E op) as [h | e].
    + rewrite run_ret. cbn [snd trace]. now rewrite <- !app_assoc.
    + rewrite run_bind, run_lift. destruct (unwrapError E e) as [e' | x];
        [rewrite run_throw |]; cbn [snd trace]; now rewrite <- !app_assoc.
  - rewrite run_ret. rewrite run_bind. unfold try_catch.
    rewrite run_ask. cbn [apis signers trace].
    destruct (bundler_sendUserOp E op) as [h | e].
    + rewrite run_ret. cbn [snd trace]. now rewrite <- !app_assoc.
    + rewrite run_bind, run_lift. destruct (unwrapError E e) as [e' | x];
        [rewrite run_throw |]; cbn [snd trace]; now rewrite <- !app_assoc.
Qed.

Lemma sendTransaction_announced_witness :
  trace (snd (sendTransaction
                (Demo.with_submission (Throw (Demo.relay_error (Some Demo.nonce_body)))
                   Demo.env)
                0%nat Scenario.limited_request Demo.state)) =
    [ EvGetSenderAccountAddress 2;
      EvCreateSignedUserOp 0%nat
        {| info_target := "0x00000000000000000000000000000000000000d0";
           info_data := "0x"; info_value := Some (Num 1);
           info_gasLimit := Some (Num 50000);
           info_maxFeePerGas := Some (Num 0);
           info_maxPriorityFeePerGas := Some (Num 0) |};
      EvConstructResponse 2 Demo.operation;
      EvTransactionStarted
        {| hook_hash := "0xhash";
           hook_from := Some "0x00000000000000000000000000000000000005e1";
           hook_to := Some "0x00000000000000000000000000000000000000d0";
           hook_value := Num 1; hook_sponsored := false; hook_module := None |};
      EvSendUserOpToBundler 3 Demo.operation ].
Proof.
  set (E := Demo.with_submission (Throw (Demo.relay_error (Some Demo.nonce_body)))
               Demo.env).
  rewrite (sendTransaction_announced E Demo.state
             (snd (populateTransaction E 0%nat (zero_fees Scenario.limited_request)
                     Demo.state))
             0%nat Scenario.limited_request
             (set_from (Some "0x00000000000000000000000000000000000005e1")
                (zero_fees Scenario.limited_request))
             (set_address (Some "0x00000000000000000000000000000000000005e1")
                Demo.signer)
             Demo.api Demo.operation (mkResponse "0xhash")).
  - vm_compute. reflexivity.
  - vm_compute. reflexivity.
  - reflexivity.
  - vm_compute. reflexivity.
  - vm_compute. reflexivity.
  - reflexivity.
  - reflexivity.
Defined.

(** X10.  An exception of [createSignedUserOp], or of the construction
    of the response, leaves [sendTransaction] as it is, not translated,
    whether or not it has a body; the hook is not told and nothing is
    submitted. *)
Theorem sendTransaction_signing_fails (E : Env) (st st1 : State) (this : loc)
    (transaction t : TransactionRequest) (s : Signer) (api : AccountAPI)
    (e : thrown) :
  populateTransaction E this (zero_fees transaction) st = (Ok t, st1) ->
  Spec.lacks_required_fields transaction = false ->
  signers st1 !! this = Some s ->
  apis st1 !! smartAccountAPI s = Some api ->
  createSignedUserOp E api (Spec.signed_op_info t) = Throw e
  \/ (exists op : UserOperationStruct,
        createSignedUserOp E api (Spec.signed_op_info t) = Ok op
        /\ constructUserOpTransactionResponse E op = Throw e) ->
  fst (sendTransaction E this transaction st) = Throw e
  /\ exists evs : list Event,
       trace (snd (sendTransaction E this transaction st)) = trace st1 ++ evs
       /\ forallb (fun ev => negb (Behaviour.is_hook_or_submission ev)) evs = true.
Proof.
  intros Hpop Hfields Hs Hapi Hfail.
  pose proof (verifyAllNecessaryFields_populated _ _ _ _ _ _ Hpop Hfields) as Hverify.
  unfold sendTransaction.
  rewrite run_bind, Hpop. rewrite run_bind, Hverify.
  rewrite run_bind, (read_signer_at _ _ _ Hs).
  rewrite run_bind, (read_api_at _ _ _ Hapi).
  fold (Spec.signed_op_info t). rewrite run_bind, run_ask.
  destruct Hfail as [Hop | (op & Hop & Hresp)]; rewrite Hop.
  - split; [reflexivity |]. eexists. split; [reflexivity | reflexivity].
  - rewrite run_bind, run_ask, Hresp. cbn [apis signers trace].
    split; [reflexivity |]. eexists. cbn [snd trace]. rewrite <- app_assoc.
    split; [reflexivity | reflexivity].
Qed.

Lemma sendTransaction_signing_fails_witness :
  fst (sendTransaction
         (Scenario.with_signing (Throw (Demo.relay_error (Some Demo.failed_op_body)))
            Demo.env)
         0%nat Scenario.limited_request Demo.state) =
    Throw (Demo.relay_error (Some Demo.failed_op_body)).
Proof.
  set (E := Scenario.with_signing (Throw (Demo.relay_error (Some Demo.failed_op_body)))
              Demo.env).
  apply (sendTransaction_signing_fails E Demo.state
           (snd (populateTransaction E 0%nat (zero_fees Scenario.limited_request)
                   Demo.state))
           0%nat Scenario.limited_request
           (set_from (Some "0x00000000000000000000000000000000000005e1")
              (zero_fees Scenario.limited_request))
           (set_address (Some "0x00000000000000000000000000000000000005e1")
              Demo.signer)
           Demo.api).
  - vm_compute. reflexivity.
  - vm_compute. reflexivity.
  - reflexivity.
  - vm_compute. reflexivity.
  - left. reflexivity.
Defined.

(** ** The address of the signer, once known *)

(** X11.  Once [getAddress] has returned, the address is kept on the
    signer: as long as the signer object is as the call left it, a
    later call returns the same address, asks the provider nothing and
    changes nothing. *)
Theorem getAddress_cached (E : Env) (this : loc) (st st1 : State) (a : string) :
  getAddress E this st = (Ok a, st1) ->
  forall st2 : State,
    signers st2 !! this = signers st1 !! this ->
    getAddress E this st2 = (Ok a, st2).
Proof.
  intros Hrun.
  assert (Hkept : exists s, signers st1 !! this = Some s /\ address s = Some a).
  { revert Hrun. unfold getAddress. rewrite run_bind. unfold read_signer at 1.
    destruct (signers st !! this) as [s |] eqn:Hs; [| discriminate].
    destruct (address s) as [a0 |] eqn:Haddr.
    - rewrite run_ret. intros [= <- <-]. now exists s.
    - rewrite run_bind, run_ask.
      destruct (getSenderAccountAddress E (zdProvider s)) as [a' | e]; [| discriminate].
      rewrite run_bind. unfold read_signer at 1. cbn [signers]. rewrite Hs.
      unfold write_signer. mrun. intros [= <- <-]. cbn [signers].
      exists (set_address (Some a') s). split; [apply lookup_insert_eq | reflexivity]. }
  destruct Hkept as (s & Hs & Haddr). intros st2 Hsame.
  unfold getAddress. rewrite run_bind, (read_signer_at this s st2) by congruence.
  now rewrite Haddr.
Qed.

Lemma getAddress_cached_witness :
  getAddress Demo.env 0%nat (snd (getAddress Demo.env 0%nat Demo.state)) =
    (Ok "0x00000000000000000000000000000000000005e1",
     snd (getAddress Demo.env 0%nat Demo.state)).
Proof.
  apply (getAddress_cached Demo.env 0%nat Demo.state
           (snd (getAddress Demo.env 0%nat Demo.state))).
  - vm_compute. reflexivity.
  - reflexivity.
Defined.

(** ** The calls of the asset sweep *)

Lemma promise_all_emits {A B : Type} (P : Event -> bool) (f : A -> M B)
    (items : list A) :
  (forall x, Spec.emits_only P (f x)) -> Spec.emits_only P (promise_all f items).
Proof.
  intros Hf. induction items as [| x rest IH]; intros st.
  - exists []. now rewrite app_nil_r.
  - cbn [promise_all].
    destruct (Hf x st) as (evs & Htr & Hevs).
    destruct (f x st) as [r st1]. cbn [snd] in Htr.
    destruct (IH st1) as (evs' & Htr' & Hevs').
    destruct (promise_all f rest st1) as [rs st2]. cbn [snd] in *.
    exists (evs ++ evs'). rewrite Htr', Htr, app_assoc. split; [reflexivity |].
    rewrite forallb_app. now rewrite Hevs, Hevs'.
Qed.

(** Each value of a list that [promise_all] returns is the value of the
    closure for the item at its place, and a property of the state that
    every closure keeps is kept. *)
Lemma promise_all_values {A B : Type} (f : A -> M B) (R : A -> B -> Prop)
    (J : State -> Prop) (items : list A) :
  (forall x st, J st -> J (snd (f x st))) ->
  (forall x y st st', f x st = (Ok y, st') -> R x y) ->
  forall (ys : list B) (st st' : State),
    J st ->
    promise_all f items st = (Ok ys, st') ->
    Forall2 R items ys /\ J st'.
Proof.
  intros HJ HR. induction items as [| x rest IH]; intros ys st st' Hst.
  - cbn. intros [= <- <-]. split; [constructor | exact Hst].
  - cbn [promise_all]. pose proof (HJ x st Hst) as Hst1.
    destruct (f x st) as [r st1] eqn:Hx. cbn [snd] in Hst1.
    destruct (promise_all f rest st1) as [rs st2] eqn:Hrest.
    destruct r as [y | e]; [| discriminate].
    destruct rs as [ys' | e]; [| discriminate].
    intros [= <- <-].
    destruct (IH ys' st1 st2 Hst1 Hrest) as (Hall & Hst2).
    split; [| exact Hst2]. constructor; [eapply HR, Hx | exact Hall].
Qed.

Lemma promise_all_throws {A B : Type} (f : A -> M B) (items : list A) (x : A) :
  x ∈ items ->
  (forall st, exists e, fst (f x st) = Throw e) ->
  forall st, exists e, fst (promise_all f items st) = Throw e.
Proof.
  intros Hin Hx. induction items as [| x' rest IH]; intros st.
  - now apply elem_of_nil in Hin.
  - cbn [promise_all]. destruct (f x' st) as [r st1] eqn:Hrun.
    destruct (promise_all f rest st1) as [rs st2] eqn:Hrest. cbn [fst].
    apply elem_of_cons in Hin as [<- | Hin].
    + destruct (Hx st) as (e & He). rewrite Hrun in He. cbn in He. subst r.
      now exists e.
    + destruct (IH Hin st1) as (e & He). rewrite Hrest in He. cbn in He. subst rs.
      destruct r as [y | e']; eauto.
Qed.

Lemma amount_or_store (asset : AssetTransfer) (ev : Event) (balance : Z) (st : State) :
  apis (snd (amount_or asset (ask ev (Ok balance)) st)) = apis st
  /\ signers (snd (amount_or asset (ask ev (Ok balance)) st)) = signers st
  /\ exists v, fst (amount_or asset (ask ev (Ok balance)) st) = Ok v.
Proof.
  unfold amount_or. destruct (amount asset) as [v |].
  - destruct (truthy (Some v)); [rewrite run_ret | mrun]; cbn; eauto.
  - mrun. cbn. eauto.
Qed.

Lemma asset_call_store (E : Env) (self to : string) (asset : AssetTransfer) (st : State) :
  apis (snd (asset_call E self to asset st)) = apis st
  /\ signers (snd (asset_call E self to asset st)) = signers st.
Proof.
  unfold asset_call.
  destruct (assetType asset); try (destruct (asset_address asset) as [token |];
    cbn [contract_at]; [| now rewrite run_bind, run_throw]; rewrite run_bind, run_ret);
    try (rewrite run_bind;
         match goal with
         | |- context [amount_or asset (ask ?ev (Ok ?b)) st] =>
             destruct (amount_or_store asset ev b st) as (Ha & Hs & v & Hv);
             destruct (amount_or asset (ask ev (Ok b)) st) as [r st1];
             cbn [fst snd] in *; subst r; rewrite run_ret
         end); cbn [snd]; now split.
Qed.

Lemma asset_call_matches (E : Env) (self to : string) (asset : AssetTransfer)
    (call : Call) (st st' : State) :
  asset_call E self to asset st = (Ok call, st') ->
  Behaviour.call_matches to asset call.
Proof.
  unfold asset_call, Behaviour.call_matches.
  destruct (assetType asset); try (destruct (asset_address asset) as [token |];
    cbn [contract_at]; [| now rewrite run_bind, run_throw]; rewrite run_bind, run_ret);
    try (rewrite run_bind;
         match goal with
         | |- context [amount_or asset ?m st] =>
             destruct (amount_or asset m st) as [[v | e] st1]; [| discriminate];
             rewrite run_ret
         end); try rewrite run_ret; intros [= <- _]; now split.
Qed.

(** X12.  When every closure of the sweep returns, there is one call
    for each asset, in the order of the assets: for the native asset the
    call goes to the destination and has no data; for a token it goes to
    the contract of the token and has no value.  Building the calls
    changes no signer and no account API object. *)
Theorem transferAllAssets_calls (E : Env) (self to : string)
    (assets : list AssetTransfer) (calls : list Call) (st st' : State) :
  promise_all (asset_call E self to) assets st = (Ok calls, st') ->
  Forall2 (Behaviour.call_matches to) assets calls
  /\ apis st' = apis st /\ signers st' = signers st.
Proof.
  intros Hrun.
  apply (promise_all_values (asset_call E self to) (Behaviour.call_matches to)
           (fun st0 => apis st0 = apis st /\ signers st0 = signers st)
           assets) with (st := st) (ys := calls).
  - intros x st0 (Ha & Hs). destruct (asset_call_store E self to x st0) as (Ha' & Hs').
    split; congruence.
  - intros x y st0 st0'. apply asset_call_matches.
  - now split.
  - exact Hrun.
Qed.

Lemma transferAllAssets_calls_witness :
  Forall2 (Behaviour.call_matches "0x00000000000000000000000000000000000000d0")
    [Scenario.zero_eth; Scenario.token]
    [ {| call_to := "0x00000000000000000000000000000000000000d0";
         call_value := Big 9; call_data := "0x" |};
      {| call_to := "0x0000000000000000000000000000000000000e20";
         call_value := Num 0; call_data := "0xa9059cbb" |} ].
Proof.
  apply (transferAllAssets_calls Demo.env "0x00000000000000000000000000000000000005e1"
           "0x00000000000000000000000000000000000000d0"
           [Scenario.zero_eth; Scenario.token] _ Demo.state
           (snd (promise_all
                   (asset_call Demo.env "0x00000000000000000000000000000000000005e1"
                      "0x00000000000000000000000000000000000000d0")
                   [Scenario.zero_eth; Scenario.token] Demo.state))).
  vm_compute. reflexivity.
Defined.

Lemma amount_or_reads (asset : AssetTransfer) (ev : Event) (balance : Z) :
  Behaviour.is_read ev = true ->
  Spec.emits_only Behaviour.is_read (amount_or asset (ask ev (Ok balance))).
Proof.
  intros Hev. unfold amount_or.
  assert (Hread : Spec.emits_only Behaviour.is_read
                    (ask ev (Ok balance) ≫= fun b : Z => mret (Big b))).
  { apply emits_only_bind; [now apply emits_only_ask | intros b; apply emits_only_ret]. }
  destruct (amount asset) as [v |]; [| exact Hread].
  destruct (truthy (Some v)); [apply emits_only_ret | exact Hread].
Qed.

Lemma asset_call_reads (E : Env) (self to : string) (asset : AssetTransfer) :
  Spec.emits_only Behaviour.is_read (asset_call E self to asset).
Proof.
  unfold asset_call. destruct (assetType asset).
  - apply emits_only_bind; [now apply amount_or_reads |]. intros v. apply emits_only_ret.
  - apply emits_only_bind.
    { destruct (asset_address asset); [apply emits_only_ret | apply emits_only_throw]. }
    intros token. apply emits_only_bind; [now apply amount_or_reads |].
    intros v. apply emits_only_ret.
  - apply emits_only_bind.
    { destruct (asset_address asset); [apply emits_only_ret | apply emits_only_throw]. }
    intros token. apply emits_only_ret.
  - apply emits_only_bind.
    { destruct (asset_address asset); [apply emits_only_ret | apply emits_only_throw]. }
    intros token. apply emits_only_bind; [now apply amount_or_reads |].
    intros v. apply emits_only_ret.
Qed.

(** X13.  A token among the assets that comes without the address of
    its contract makes the whole sweep throw: the balances of the other
    assets may be read, but no batch is built, and nothing is estimated,
    signed or submitted. *)
Theorem transferAllAssets_missing_address (E : Env) (this : loc) (to : string)
    (assets : list AssetTransfer) (options : option BatchOptions)
    (asset : AssetTransfer) (st : State) :
  asset ∈ assets ->
  assetType asset <> ETH ->
  asset_address asset = None ->
  (exists e : thrown, fst (transferAllAssets E this to assets options st) = Throw e)
  /\ Behaviour.emits_from st Behaviour.is_read
       (transferAllAssets E this to assets options).
Proof.
  intros Hin Htype Haddr. unfold Behaviour.emits_from, transferAllAssets.
  rewrite run_bind.
  destruct (getAddress_emits E Behaviour.is_read (fun _ => eq_refl) this st)
    as (evs & Htr & Hevs).
  destruct (getAddress E this st) as [[self | e] st1]; cbn [snd] in Htr.
  - rewrite run_bind.
    assert (Hthrows : forall st0, exists e,
               fst (asset_call E self to asset st0) = Throw e).
    { intros st0. unfold asset_call. rewrite Haddr.
      destruct (assetType asset); [congruence | | |];
        cbn [contract_at]; rewrite run_bind, run_throw; eauto. }
    destruct (promise_all_throws _ _ _ Hin Hthrows st1) as (e & He).
    destruct (promise_all_emits Behaviour.is_read (asset_call E self to) assets
                (asset_call_reads E self to) st1) as (evs' & Htr' & Hevs').
    destruct (promise_all (asset_call E self to) assets st1) as [r st2].
    cbn [fst snd] in *. subst r. cbn [fst snd]. split; [now exists e |].
    exists (evs ++ evs'). rewrite Htr', Htr, app_assoc. split; [reflexivity |].
    rewrite forallb_app. now rewrite Hevs, Hevs'.
  - split; [now exists e |]. exists evs. now split.
Qed.

Lemma transferAllAssets_missing_address_witness :
  exists e : thrown,
    fst (transferAllAssets Demo.env 0%nat "0x00000000000000000000000000000000000000d0"
           [Scenario.zero_eth; Scenario.nameless_token] None Demo.state) = Throw e.
Proof.
  apply (transferAllAssets_missing_address Demo.env 0%nat
           "0x00000000000000000000000000000000000000d0"
           [Scenario.zero_eth; Scenario.nameless_token] None
           Scenario.nameless_token Demo.state).
  - apply elem_of_cons. right. apply elem_of_cons. now left.
  - discriminate.
  - reflexivity.
Defined.

(** X14.  An amount that is not truthy counts as no amount: for an
    asset whose amount is given as the number 0 the closure does what it
    does for the same asset without an amount, which is to read the
    balance and transfer all of it. *)
Theorem asset_call_falsy_amount (E : Env) (self to : string) (asset : AssetTransfer)
    (st : State) :
  truthy (amount asset) = false ->
  asset_call E self to asset st =
    asset_call E self to (Behaviour.without_amount asset) st.
Proof.
  intros Hfalsy. unfold asset_call, amount_or.
  cbn [Behaviour.without_amount assetType asset_address tokenId amount].
  destruct (amount asset) as [v |]; [rewrite Hfalsy |]; reflexivity.
Qed.

Lemma asset_call_falsy_amount_witness :
  asset_call Demo.env "0x00000000000000000000000000000000000005e1"
    "0x00000000000000000000000000000000000000d0" Scenario.zero_eth Demo.state =
    (Ok {| call_to := "0x00000000000000000000000000000000000000d0";
           call_value := Big 9; call_data := "0x" |},
     {| apis := apis Demo.state; signers := signers Demo.state;
        trace := [EvGetBalance "0x00000000000000000000000000000000000005e1"] |}).
Proof.
  rewrite (asset_call_falsy_amount Demo.env
             "0x00000000000000000000000000000000000005e1"
             "0x00000000000000000000000000000000000000d0" Scenario.zero_eth Demo.state)
    by reflexivity.
  reflexivity.
Defined.

(** ** Invariants of the store *)

Section Keeps.

Context (J : State -> Prop) (P : Event -> bool).
Hypothesis blind :
  forall (st : State) (evs : list Event),
    J st -> J {| apis := apis st; signers := signers st; trace := evs |}.

Lemma keeps_same {A : Type} (m : M A) :
  (forall st, snd (m st) = st) -> Behaviour.keeps J P m.
Proof.
  intros H st Hst. rewrite H. split; [exact Hst |]. exists []. rewrite H.
  now rewrite app_nil_r.
Qed.

Lemma keeps_ret {A : Type} (a : A) : Behaviour.keeps J P (mret a : M A).
Proof. now apply keeps_same. Qed.

Lemma keeps_throw {A : Type} (e : thrown) : Behaviour.keeps J P (@throw A e).
Proof. now apply keeps_same. Qed.

Lemma keeps_lift {A : Type} (r : Res A) : Behaviour.keeps J P (lift r).
Proof. now apply keeps_same. Qed.

Lemma keeps_read_api (l : loc) : Behaviour.keeps J P (read_api l).
Proof. apply keeps_same. intros st. unfold read_api. now destruct (apis st !! l). Qed.

Lemma keeps_read_signer (l : loc) : Behaviour.keeps J P (read_signer l).
Proof. apply keeps_same. intros st. unfold read_signer. now destruct (signers st !! l). Qed.

Lemma keeps_emit (ev : Event) : P ev = true -> Behaviour.keeps J P (emit ev).
Proof.
  intros Hev st Hst. split; [apply blind, Hst |]. exists [ev]. cbn. now rewrite Hev.
Qed.

Lemma keeps_ask {A : Type} (ev : Event) (r : Res A) :
  P ev = true -> Behaviour.keeps J P (ask ev r).
Proof.
  intros Hev st Hst. rewrite run_ask. split; [apply blind, Hst |].
  exists [ev]. cbn. now rewrite Hev.
Qed.

Lemma keeps_bind_post {A B : Type} (Q : A -> Prop) (m : M A) (f : A -> M B) :
  Behaviour.keeps J P m ->
  (forall st a st', J st -> m st = (Ok a, st') -> Q a) ->
  (forall a, Q a -> Behaviour.keeps J P (f a)) ->
  Behaviour.keeps J P (m ≫= f).
Proof.
  intros Hm HQ Hf st Hst. destruct (Hm st Hst) as (Hst1 & evs & Htr & Hevs).
  unfold Behaviour.emits_from. rewrite run_bind.
  destruct (m st) as [[a | e] st1] eqn:Hrun; cbn [snd] in *.
  - destruct (Hf a (HQ st a st1 Hst Hrun) st1 Hst1) as (Hst2 & evs' & Htr' & Hevs').
    split; [exact Hst2 |].
    exists (evs ++ evs'). rewrite Htr', Htr, app_assoc. split; [reflexivity |].
    rewrite forallb_app. now rewrite Hevs, Hevs'.
  - split; [exact Hst1 |]. exists evs. now split.
Qed.

Lemma keeps_bind {A B : Type} (m : M A) (f : A -> M B) :
  Behaviour.keeps J P m ->
  (forall a, Behaviour.keeps J P (f a)) ->
  Behaviour.keeps J P (m ≫= f).
Proof.
  intros Hm Hf. apply (keeps_bind_post (fun _ => True)); auto.
Qed.

Lemma keeps_try_catch {A : Type} (m : M A) (h : thrown -> M A) :
  Behaviour.keeps J P m ->
  (forall e, Behaviour.keeps J P (h e)) ->
  Behaviour.keeps J P (try_catch m h).
Proof.
  intros Hm Hh st Hst. destruct (Hm st Hst) as (Hst1 & evs & Htr & Hevs).
  unfold Behaviour.emits_from, try_catch.
  destruct (m st) as [[a | e] st1]; cbn [snd] in *.
  - split; [exact Hst1 |]. exists evs. now split.
  - destruct (Hh e st1 Hst1) as (Hst2 & evs' & Htr' & Hevs').
    split; [exact Hst2 |].
    exists (evs ++ evs'). rewrite Htr', Htr, app_assoc. split; [reflexivity |].
    rewrite forallb_app. now rewrite Hevs, Hevs'.
Qed.

End Keeps.

(** ** The delegate at work *)

Section Delegate.

Context (E : Env) (d l this l0 : loc) (s : Signer) (api : AccountAPI).
Hypothesis other : d <> this.

Let J : State -> Prop := Behaviour.delegates_to d l this l0 s api.
Let P : Event -> bool := Behaviour.names_api l.

Lemma delegate_blind (st : State) (evs : list Event) :
  J st -> J {| apis := apis st; signers := signers st; trace := evs |}.
Proof. intros H. exact H. Qed.

Lemma delegate_signer (st : State) (x : Signer) (st' : State) :
  J st -> read_signer d st = (Ok x, st') -> smartAccountAPI x = l.
Proof.
  intros ((x' & Hx & Hl) & _). unfold read_signer. rewrite Hx. now intros [= <- _].
Qed.

Lemma delegate_address (x : Signer) (v : option string) :
  smartAccountAPI x = l -> Behaviour.keeps J P (write_signer d (set_address v x)).
Proof.
  intros Hl st ((x' & Hx & Hl') & Hapi & Hthis & Hl0). split.
  - split; [| split; [exact Hapi | split; [| exact Hl0]]]; cbn [signers write_signer snd].
    + exists (set_address v x). split; [apply lookup_insert_eq | exact Hl].
    + rewrite lookup_insert_ne by exact other. exact Hthis.
  - exists []. cbn. now rewrite app_nil_r.
Qed.

Lemma getAddress_delegate : Behaviour.keeps J P (getAddress E d).
Proof.
  unfold getAddress.
  apply (keeps_bind_post J P (fun x => smartAccountAPI x = l));
    [apply keeps_read_signer | apply delegate_signer |].
  intros x Hx. destruct (address x); [apply keeps_ret |].
  apply keeps_bind; [apply keeps_ask; [apply delegate_blind | reflexivity] |]. intros a.
  apply (keeps_bind_post J P (fun x => smartAccountAPI x = l));
    [apply keeps_read_signer | apply delegate_signer |].
  intros x' Hx'.
  apply keeps_bind; [now apply delegate_address |]. intros _. apply keeps_ret.
Qed.

Lemma checkTransaction_delegate (t : TransactionRequest) :
  Behaviour.keeps J P (checkTransaction E d t).
Proof.
  unfold checkTransaction. apply keeps_bind; [apply getAddress_delegate |].
  intros a. destruct (tx_from t); [| apply keeps_ret].
  destruct (String.eqb _ _); [apply keeps_ret | apply keeps_throw].
Qed.

Lemma names_own (info : UserOpInfo) :
  P (EvCreateUnsignedUserOp l info) = true /\ P (EvCreateSignedUserOp l info) = true.
Proof. split; apply bool_decide_eq_true; reflexivity. Qed.

Lemma estimateGas_delegate (t : TransactionRequest) :
  Behaviour.keeps J P (estimateGas E d t).
Proof.
  unfold estimateGas. apply keeps_bind; [apply checkTransaction_delegate |]. intros t'.
  apply (keeps_bind_post J P (fun x => smartAccountAPI x = l));
    [apply keeps_read_signer | apply delegate_signer |].
  intros x ->.
  apply keeps_bind; [apply keeps_read_api |]. intros a.
  apply keeps_bind; [apply keeps_ask; [apply delegate_blind | apply names_own] |].
  intros op.
  apply keeps_bind; [apply keeps_ask; [apply delegate_blind | reflexivity] |].
  intros g. apply keeps_ret.
Qed.

Lemma populateTransaction_delegate (t : TransactionRequest) :
  Behaviour.keeps J P (populateTransaction E d t).
Proof.
  unfold populateTransaction.
  apply keeps_bind; [apply checkTransaction_delegate |]. intros t'.
  destruct (tx_gasLimit t'); [apply keeps_ret |].
  apply keeps_bind; [| intros g; apply keeps_ret].
  apply keeps_try_catch; [apply estimateGas_delegate |].
  intros e. destruct (code_of e) as [c |]; [| apply keeps_throw].
  destruct (bool_decide _); apply keeps_throw.
Qed.

Lemma sendTransaction_delegate (t : TransactionRequest) :
  Behaviour.keeps J P (sendTransaction E d t).
Proof.
  unfold sendTransaction.
  apply keeps_bind; [apply populateTransaction_delegate |]. intros t'.
  apply keeps_bind.
  { unfold verifyAllNecessaryFields. destruct (tx_to t'); [| apply keeps_throw].
    destruct (tx_data t'), (tx_value t'); first [apply keeps_ret | apply keeps_throw]. }
  intros _.
  apply (keeps_bind_post J P (fun x => smartAccountAPI x = l));
    [apply keeps_read_signer | apply delegate_signer |].
  intros x Hx. rewrite Hx.
  apply keeps_bind; [apply keeps_read_api |]. intros a.
  apply keeps_bind; [apply keeps_ask; [apply delegate_blind | apply names_own] |].
  intros op.
  apply keeps_bind; [apply keeps_ask; [apply delegate_blind | reflexivity] |].
  intros response.
  apply keeps_bind.
  { destruct (hooked x); [apply keeps_emit; [apply delegate_blind | reflexivity]
                         | apply keeps_ret]. }
  intros _.
  apply keeps_bind; [| intros _; apply keeps_ret].
  apply keeps_try_catch; [apply keeps_ask; [apply delegate_blind | reflexivity] |].
  intros e. apply keeps_bind; [apply keeps_lift |]. intros e'. apply keeps_throw.
Qed.

Lemma contract_send_delegate (target method : string) (args : list AbiArg)
    (gasLimit gasPrice : option BigNumberish) :
  Behaviour.keeps J P (contract_send E d target method args gasLimit gasPrice).
Proof.
  unfold contract_send. apply keeps_bind; [apply getAddress_delegate |].
  intros a. apply sendTransaction_delegate.
Qed.

End Delegate.

Lemma delegateCopy_run (st : State) (this : loc) (s : Signer) (api : AccountAPI) :
  signers st !! this = Some s ->
  apis st !! smartAccountAPI s = Some api ->
  delegateCopy this st =
    (Ok (fresh (dom (signers st))),
     {| apis := <[fresh (dom (apis st)) := set_delegateMode true api]>
                  (<[fresh (dom (apis st)) := api]> (apis st));
        signers := <[fresh (dom (signers st)) :=
                       {| config := config s; hooked := hooked s;
                          originalSigner := originalSigner s;
                          zdProvider := zdProvider s;
                          httpRpcClient := httpRpcClient s;
                          smartAccountAPI := fresh (dom (apis st));
                          address := None |}]> (signers st);
        trace := trace st |}).
Proof.
  intros Hs Hapi. unfold delegateCopy.
  rewrite run_bind, (read_signer_at _ _ _ Hs).
  rewrite run_bind, (read_api_at _ _ _ Hapi).
  rewrite run_bind. unfold alloc_api at 1. cbv beta iota zeta.
  rewrite run_bind. unfold read_api at 1. cbn [apis]. rewrite lookup_insert_eq.
  rewrite run_bind. unfold write_api at 1. cbv beta iota. cbn [apis signers trace].
  unfold alloc_signer. cbn [apis signers trace]. reflexivity.
Qed.

(** X15.  [execBatch] sends the batch through a copy of the signer: the
    copy is a new signer object on a new account API object in delegate
    mode, every operation that is built for the estimate or for signing
    is built by that object, and the signer itself and its account API
    object are left as they were. *)
Theorem execBatch_delegates (E : Env) (this : loc) (calls : list Call)
    (options : option BatchOptions) (st : State) (s : Signer) (api : AccountAPI) :
  signers st !! this = Some s ->
  apis st !! smartAccountAPI s = Some api ->
  let d := fresh (dom (signers st)) in
  let l := fresh (dom (apis st)) in
  d <> this /\ l <> smartAccountAPI s
  /\ Behaviour.emits_from st (Behaviour.names_api l) (execBatch E this calls options)
  /\ Behaviour.delegates_to d l this (smartAccountAPI s) s api
       (snd (execBatch E this calls options st)).
Proof.
  intros Hs Hapi d l.
  assert (Hd : d <> this).
  { intros Heq. pose proof (fresh_signer_unused st) as Hnone. fold d in Hnone.
    rewrite Heq, Hs in Hnone. discriminate. }
  assert (Hl : l <> smartAccountAPI s).
  { intros Heq. pose proof (fresh_api_unused st) as Hnone. fold l in Hnone.
    rewrite Heq, Hapi in Hnone. discriminate. }
  split; [exact Hd |]. split; [exact Hl |].
  unfold Behaviour.emits_from, execBatch.
  rewrite run_bind, (delegateCopy_run st this s api Hs Hapi). fold d l.
  match goal with
  | |- context [contract_send E d ?target ?method ?args ?g ?p ?st0] =>
      destruct (contract_send_delegate E d l this (smartAccountAPI s) s api Hd
                  target method args g p st0) as (Hkept & evs & Htr & Hevs)
  end.
  - split; [| split; [| split]]; cbn [apis signers].
    + eexists. split; [apply lookup_insert_eq | reflexivity].
    + eexists. split; [apply lookup_insert_eq | reflexivity].
    + rewrite lookup_insert_ne by exact Hd. exact Hs.
    + rewrite !lookup_insert_ne by exact Hl. exact Hapi.
  - split; [| exact Hkept]. exists evs. split; [exact Htr | exact Hevs].
Qed.

Lemma execBatch_delegates_witness :
  Behaviour.emits_from Demo.state (Behaviour.names_api 1%nat)
    (execBatch Demo.env 0%nat [] None).
Proof.
  apply (execBatch_delegates Demo.env 0%nat [] None Demo.state Demo.signer Demo.api);
    reflexivity.
Defined.

(** ** Calls with a fixed gas limit *)

Lemma emits_only_weaken {A : Type} (P Q : Event -> bool) (m : M A) :
  (forall ev, P ev = true -> Q ev = true) ->
  Spec.emits_only P m -> Spec.emits_only Q m.
Proof.
  intros HPQ Hm st. destruct (Hm st) as (evs & Htr & Hevs).
  exists evs. split; [exact Htr |].
  apply forallb_forall. intros ev Hin. apply HPQ.
  revert Hin. now apply forallb_forall.
Qed.

(** A method of a contract that is called with a gas limit and without
    a value. *)
Lemma contract_send_limited (E : Env) (this : loc) (target method : string)
    (args : list AbiArg) (gasLimit : BigNumberish) :
  Spec.emits_only
    (Behaviour.signs_as (encodeFunctionData E method args) None
                        (Some (Big (BigNumber_from gasLimit))))
    (contract_send E this target method args (Some gasLimit) None).
Proof.
  unfold contract_send.
  apply emits_only_bind; [now apply getAddress_emits |]. intros from.
  apply sendTransaction_emits; try reflexivity.
  - now apply (populateTransaction_limited _ _ _ _ (Big (BigNumber_from gasLimit))).
  - intros l t st st' Hrun.
    destruct (populateTransaction_result _ _ _ _ _ _ Hrun) as (t0 & Ht0 & Ht).
    destruct (fees_after_check _ _ Ht0) as (Hto0 & Hdata0 & Hvalue0 & Hgas0 & _).
    cbn in Hto0, Hdata0, Hvalue0, Hgas0.
    destruct Ht as [-> | (g' & Hnone & _)]; [| congruence].
    cbn. apply bool_decide_eq_true. rewrite Hdata0, Hvalue0, Hgas0. now repeat split.
Qed.

Lemma signs_as_limited (data : string) (value : option BigNumberish)
    (gasLimit : BigNumberish) (ev : Event) :
  Behaviour.signs_as data value (Some gasLimit) ev = true ->
  Behaviour.limited_to gasLimit ev = true.
Proof.
  destruct ev; cbn; try easy. intros H. apply bool_decide_eq_true in H.
  apply bool_decide_eq_true. tauto.
Qed.





(** X17.  [transferOwnership] estimates nothing, whatever the safe
    answers: when it gets as far as the call of [swapOwner], the
    operation is signed for the gas limit 200000. *)
Theorem transferOwnership_fixed_gas (E : Env) (this : loc) (newOwner : string) :
  Spec.emits_only (Behaviour.limited_to (Big 200000))
    (transferOwnership E this newOwner).
Proof.
  unfold transferOwnership.
  apply emits_only_bind; [now apply getAddress_emits |]. intros selfAddress.
  apply emits_only_bind; [now apply emits_only_ask |]. intros owners.
  destruct (decide _); [apply emits_only_throw |].
  apply emits_only_bind; [apply emits_only_lift |]. intros prevOwner.
  apply emits_only_bind; [apply emits_only_read_signer |]. intros s.
  apply emits_only_bind; [now apply emits_only_ask |]. intros ownerAddress.
  eapply emits_only_weaken; [apply signs_as_limited |].
  apply (contract_send_limited E this selfAddress "swapOwner" _ (Num 200000)).
Qed.

(** ** The encoders of the account API *)

Lemma _getAccountContract_kept (E : Env) (this : loc) (c : string) (st st' : State) :
  _getAccountContract E this st = (Ok c, st') ->
  exists api : AccountAPI, apis st' !! this = Some api /\ accountContract api = Some c.
Proof.
  unfold _getAccountContract. rewrite run_bind. unfold read_api at 1.
  destruct (apis st !! this) as [api |] eqn:Hapi; [| discriminate].
  destruct (accountContract api) as [c0 |] eqn:Hc.
  - rewrite run_ret. intros [= <- <-]. now exists api.
  - rewrite run_bind.
    destruct (getAccountAddress E this st) as [[a | e] st1]; [| discriminate].
    rewrite run_bind. unfold read_api at 1.
    destruct (apis st1 !! this) as [api1 |]; [| discriminate].
    unfold write_api. mrun. intros [= <- <-]. cbn [apis].
    exists (set_accountContract (Some a) api1).
    split; [apply lookup_insert_eq | reflexivity].
Qed.

Lemma _getAccountContract_cached (E : Env) (this : loc) (api : AccountAPI) (c : string)
    (st : State) :
  apis st !! this = Some api ->
  accountContract api = Some c ->
  _getAccountContract E this st = (Ok c, st).
Proof.
  intros Hapi Hc. unfold _getAccountContract.
  rewrite run_bind, (read_api_at _ _ _ Hapi). now rewrite Hc.
Qed.

(** X18.  What [encodeExecute] returns is the encoded
    [executeAndRevert] with the target, value and data it was given and
    the operation 0, whatever the address of the account.  Once it has
    returned, the handle of the account contract is kept: while the API
    object is as the call left it, either encoder answers without a
    look-up and without changing anything, [encodeExecuteDelegate] with
    the operation 1 in place of 0. *)
Theorem encodeExecute_then_delegate (E : Env) (this : loc) (target : string)
    (value : BigNumberish) (data payload : string) (st st' : State) :
  encodeExecute E this target value data st = (Ok payload, st') ->
  payload = encodeFunctionData E "executeAndRevert"
              [AStr target; ANum value; AStr data; ANum (Num 0)]
  /\ forall (target' : string) (value' : BigNumberish) (data' : string) (st2 : State),
       apis st2 !! this = apis st' !! this ->
       encodeExecute E this target' value' data' st2 =
         (Ok (encodeFunctionData E "executeAndRevert"
                [AStr target'; ANum value'; AStr data'; ANum (Num 0)]), st2)
       /\ encodeExecuteDelegate E this target' value' data' st2 =
            (Ok (encodeFunctionData E "executeAndRevert"
                   [AStr target'; ANum value'; AStr data'; ANum (Num 1)]), st2).
Proof.
  unfold encodeExecute at 1. rewrite run_bind.
  destruct (_getAccountContract E this st) as [[c | e] st1] eqn:Hrun; [| discriminate].
  rewrite run_ret. intros [= <- <-]. split; [reflexivity |].
  destruct (_getAccountContract_kept _ _ _ _ _ Hrun) as (api & Hapi & Hc).
  intros target' value' data' st2 Hsame. rewrite Hapi in Hsame.
  unfold encodeExecute, encodeExecuteDelegate.
  rewrite !run_bind, (_getAccountContract_cached E this api c st2 Hsame Hc).
  now rewrite !run_ret.
Qed.

Lemma encodeExecute_then_delegate_witness :
  encodeExecuteDelegate Demo.env 0%nat "0x00000000000000000000000000000000000000d0"
    (Num 1) "0x" Demo.deployed_state =
    (Ok "0x", Demo.deployed_state).
Proof.
  apply (encodeExecute_then_delegate Demo.env 0%nat
           "0x00000000000000000000000000000000000000d0" (Num 0) "0x" "0x"
           Demo.deployed_state Demo.deployed_state eq_refl).
  reflexivity.
Defined.

(** X19.  [signUserOpHash] has the owner sign the bytes that the hash
    stands for, not its text: for the hexadecimal text of a list of bytes
    the owner is asked to sign that list, and the answer of the owner is
    the result.  A hash that is no hexadecimal data is refused before
    the owner is asked. *)
Theorem signUserOpHash_bytes (E : Env) (this : loc) (api : AccountAPI) (st : State) :
  apis st !! this = Some api ->
  (forall digest : list byte,
     signUserOpHash E this (Hex.hexlify digest) st =
       (signer_signMessage E (owner api) digest,
        {| apis := apis st; signers := signers st;
           trace := trace st ++ [EvSignMessage (owner api) digest] |}))
  /\ (forall userOpHash : string,
        Hex.arrayify userOpHash = None ->
        exists e : thrown, signUserOpHash E this userOpHash st = (Throw e, st)).
Proof.
  intros Hapi. split.
  - intros digest. unfold signUserOpHash.
    rewrite run_bind, (read_api_at _ _ _ Hapi).
    rewrite arrayify_hexlify. cbn [of_option]. rewrite run_bind, run_lift.
    now rewrite run_ask.
  - intros userOpHash Hnone. unfold signUserOpHash.
    rewrite run_bind, (read_api_at _ _ _ Hapi).
    rewrite Hnone. cbn [of_option]. rewrite run_bind, run_lift. eauto.
Qed.

Lemma signUserOpHash_bytes_witness :
  signUserOpHash Demo.env 0%nat "0xab01" Demo.state =
    (Ok "0x0102031b",
     {| apis := apis Demo.state; signers := signers Demo.state;
        trace := [EvSignMessage 7 [xab; x01]] |}).
Proof.
  apply (proj1 (signUserOpHash_bytes Demo.env 0%nat Demo.api Demo.state eq_refl)
           [xab; x01]).
Defined.

(** ** Updates *)

(** X20.  [update] sends the update only when the controller reports
    one and the callback then resolves to [true], in that order; when
    the controller reports none, the callback is not called and the
    result is [undefined]. *)
Theorem update_confirmed (checkUpdate : loc -> string -> M bool)
    (controller_update : loc -> M TransactionResponse) (factoryAddress : string)
    (this : loc) (st : State) :
  (forall (confirm : M bool) (response : TransactionResponse) (st' : State),
     update checkUpdate controller_update factoryAddress this confirm st =
       (Ok (Some response), st') ->
     exists st1 st2 : State,
       checkUpdate this factoryAddress st = (Ok true, st1)
       /\ confirm st1 = (Ok true, st2)
       /\ controller_update this st2 = (Ok response, st'))
  /\ (forall st1 : State,
        checkUpdate this factoryAddress st = (Ok false, st1) ->
        forall confirm : M bool,
          update checkUpdate controller_update factoryAddress this confirm st =
            (Ok None, st1)).
Proof.
  split.
  - intros confirm response st'. unfold update. rewrite run_bind.
    destruct (checkUpdate this factoryAddress st) as [[[] | e] st1] eqn:Hcheck;
      [| rewrite run_ret; discriminate | discriminate].
    rewrite run_bind.
    destruct (confirm st1) as [[[] | e] st2] eqn:Hconfirm;
      [| rewrite run_ret; discriminate | discriminate].
    rewrite run_bind.
    destruct (controller_update this st2) as [[r | e] st3] eqn:Hupdate; [| discriminate].
    rewrite run_ret. intros [= <- <-]. now exists st1, st2.
  - intros st1 Hnone confirm. unfold update. rewrite run_bind, Hnone. reflexivity.
Qed.

Lemma update_confirmed_witness :
  update (fun _ _ => mret false) (fun _ => mret (mkResponse "0xupdate"))
         "0x00000000000000000000000000000000000000fa" 0%nat (mret true) Demo.state =
    (Ok None, Demo.state).
Proof.
  apply (proj2 (update_confirmed (fun _ _ => mret false)
                  (fun _ => mret (mkResponse "0xupdate"))
                  "0x00000000000000000000000000000000000000fa" 0%nat Demo.state)
           Demo.state).
  reflexivity.
Defined.

(** ** The requests of [api.ts] *)

Lemma destructure_answer (k : string) (v : JSON.json) :
  v <> JSON.JNull -> Api.destructure k v = Ok (JSON.opt_get (Some v) k).
Proof. intros Hv. now destruct v. Qed.

(** X21.  None of the three requests that take a member of the answer
    looks at what else the answer holds: with a transport that returns
    an answer other than [null] to every request, [signUserOp],
    [getChainId] and [getPrivateKeyByToken] return, and what they return
    is the member of that name, or [undefined] when the answer has none,
    as an answer that reports an error does.  [getProjectConfiguration]
    returns the whole answer to a request without a body.  Each request
    goes to the URL that is passed, or to the one of the constants when
    none is. *)
Theorem member_of_answer (paymaster backend : string)
    (fetch_json : Api.Request -> Res JSON.json) (answer : Api.Request -> JSON.json) :
  (forall request, fetch_json request = Ok (answer request)) ->
  (forall request, answer request <> JSON.JNull) ->
  (forall projectId chainId userOp paymasterUrl, exists request,
     Api.req_url request = default paymaster paymasterUrl +:+ "/sign"
     /\ Api.signUserOp paymaster fetch_json projectId chainId userOp paymasterUrl =
          Ok (JSON.opt_get (Some (answer request)) "paymasterAndData"))
  /\ (forall projectId backendUrl, exists request,
        Api.req_url request = default backend backendUrl +:+ "/v1/projects/get-chain-id"
        /\ Api.getChainId backend fetch_json projectId backendUrl =
             Ok (JSON.opt_get (Some (answer request)) "chainId"))
  /\ (forall projectId identity token backendUrl, exists request,
        Api.req_url request = default backend backendUrl +:+ "/v1/keys/get-by-token"
        /\ Api.getPrivateKeyByToken backend fetch_json projectId identity token
             backendUrl =
             Ok (JSON.opt_get (Some (answer request)) "privateKey"))
  /\ (forall projectId backendUrl, exists request,
        Api.req_url request = default backend backendUrl +:+ "/v1/projects/" +:+ projectId
        /\ Api.req_body request = None
        /\ Api.getProjectConfiguration backend fetch_json projectId backendUrl =
             Ok (answer request)).
Proof.
  intros Hfetch Hanswer.
  split; [| split; [| split]]; intros; eexists (Api.mkRequest _ _ _ _);
    (split; [reflexivity |]).
  4: { split; [reflexivity |]. unfold Api.getProjectConfiguration. apply Hfetch. }
  all: unfold Api.signUserOp, Api.getChainId, Api.getPrivateKeyByToken;
    rewrite Hfetch; cbn [mbind Res_bind]; apply destructure_answer, Hanswer.
Qed.

Lemma member_of_answer_witness :
  Api.getChainId "https://backend" (Scenario.answering Scenario.error_answer)
    "project" None = Ok None.
Proof.
  destruct (member_of_answer "https://paymaster" "https://backend"
              (Scenario.answering Scenario.error_answer)
              (fun _ => Scenario.error_answer)
              (fun _ => eq_refl) (fun _ => ltac:(discriminate)))
    as (_ & Hchain & _).
  destruct (Hchain "project" None) as (request & _ & Hrun). exact Hrun.
Defined.

(** ** What [getAccountInitCode] changes *)

Section FactoryOnly.

Context (this : loc) (st0 : State).

Let J : State -> Prop := Behaviour.only_factory_of this st0.
Let P : Event -> bool := fun _ => true.

Lemma factory_blind (st : State) (evs : list Event) :
  J st -> J {| apis := apis st; signers := signers st; trace := evs |}.
Proof. intros H. exact H. Qed.

(** What is read at [this] is the object of [st0], but for its factory. *)
Lemma factory_read (st : State) (a : AccountAPI) (st' : State) :
  J st -> read_api this st = (Ok a, st') ->
  exists a0, apis st0 !! this = Some a0 /\ Behaviour.same_but_factory a0 a.
Proof.
  intros (_ & _ & Hthis). unfold read_api.
  destruct (apis st !! this) as [a' |] eqn:Ha; [| discriminate].
  intros [= <- _]. destruct (apis st0 !! this) as [a0 |]; [| discriminate].
  destruct Hthis as (a'' & [= <-] & Hsame). now exists a0.
Qed.

Lemma factory_write (a a' : AccountAPI) :
  (exists a0, apis st0 !! this = Some a0 /\ Behaviour.same_but_factory a0 a) ->
  Behaviour.same_but_factory a a' ->
  Behaviour.keeps J P (write_api this a').
Proof.
  intros (a0 & Ha0 & H0) H1 st (Hsigners & Hothers & Hthis). split.
  - split; [exact Hsigners |]. split; cbn [snd write_api apis].
    + intros l Hl. rewrite lookup_insert_ne by congruence. now apply Hothers.
    + rewrite Ha0. exists a'. split; [apply lookup_insert_eq |].
      destruct H0 as (? & ? & ? & ? & ? & ? & ? & Hf0).
      destruct H1 as (? & ? & ? & ? & ? & ? & ? & Hf1).
      repeat split; try congruence. intros f Hf. now apply Hf1, Hf0.
  - exists []. cbn. now rewrite app_nil_r.
Qed.

Lemma override_factory_only (addrs : list string) (ownerAddress : string) :
  Behaviour.keeps J P (override_factory addrs ownerAddress this).
Proof.
  induction addrs as [| addr rest IH]; cbn [override_factory];
    [apply keeps_ret |].
  apply keeps_bind; [| intros _; exact IH].
  destruct (String.eqb _ _); [| apply keeps_ret].
  apply (keeps_bind_post J P
           (fun a => exists a0, apis st0 !! this = Some a0
                                /\ Behaviour.same_but_factory a0 a));
    [apply keeps_read_api | apply factory_read |].
  intros a Ha. apply (factory_write a); [exact Ha |]. now repeat split.
Qed.

Lemma getAccountInitCode_only (E : Env) :
  Behaviour.keeps J P (getAccountInitCode E this).
Proof.
  unfold getAccountInitCode.
  apply keeps_bind; [apply keeps_read_api |]. intros api.
  apply keeps_bind; [apply keeps_ask; [apply factory_blind | reflexivity] |].
  intros ownerAddress.
  apply keeps_bind; [apply override_factory_only |]. intros _.
  apply (keeps_bind_post J P
           (fun a => exists a0, apis st0 !! this = Some a0
                                /\ Behaviour.same_but_factory a0 a));
    [apply keeps_read_api | apply factory_read |].
  intros api1 Hapi1.
  apply keeps_bind.
  { destruct (factory api1) as [f |] eqn:Hf; [apply keeps_ret |].
    destruct (factoryAddress api1) as [a |]; [| apply keeps_throw].
    destruct (negb _); [| apply keeps_throw].
    apply (factory_write api1); [exact Hapi1 |].
    repeat split. cbn. congruence. }
  intros _.
  apply keeps_bind; [apply keeps_read_api |]. intros api2.
  destruct (factory api2); [apply keeps_lift | apply keeps_throw].
Qed.

End FactoryOnly.

(** X22.  [getAccountInitCode] changes nothing but the account API
    object it is called on, and on that one nothing but the address and
    the handle of its factory; a factory handle that the object has is
    never replaced.  This holds whether the call returns or throws. *)
Theorem getAccountInitCode_frame (E : Env) (this : loc) (st : State) :
  Behaviour.only_factory_of this st (snd (getAccountInitCode E this st)).
Proof.
  apply (getAccountInitCode_only this st E st).
  split; [reflexivity |]. split; [reflexivity |].
  destruct (apis st !! this) as [a |]; [| reflexivity].
  exists a. split; [reflexivity |]. now repeat split.
Qed.

(** ** A submission that is refused *)

(** X23.  When the bundler refuses the operation, [sendTransaction]
    throws and the response is not returned.  An error without a body
    reaches the caller as it is; for an error with a body the caller
    gets the new error about the bundler, or the [SyntaxError] or
    [TypeError] of the translation, and not the error of the bundler. *)
Theorem sendTransaction_refused (E : Env) (st st1 : State) (this : loc)
    (transaction t : TransactionRequest) (s : Signer) (api : AccountAPI)
    (op : UserOperationStruct) (response : TransactionResponse) (e : thrown) :
  populateTransaction E this (zero_fees transaction) st = (Ok t, st1) ->
  Spec.lacks_required_fields transaction = false ->
  signers st1 !! this = Some s ->
  apis st1 !! smartAccountAPI s = Some api ->
  createSignedUserOp E api (Spec.signed_op_info t) = Ok op ->
  constructUserOpTransactionResponse E op = Ok response ->
  bundler_sendUserOp E op = Throw e ->
  exists x : thrown,
    fst (sendTransaction E this transaction st) = Throw x
    /\ match body_of e with
       | None => x = e
       | Some _ =>
           Behaviour.is_bundler_failure (stack_of e) x
           \/ x = SyntaxError \/ x = TypeError
       end.
Proof.
  intros Hpop Hfields Hs Hapi Hop Hresp Hsend.
  destruct (sendTransaction_submission E st st1 this transaction t s api op response
              Hpop Hfields Hs Hapi Hop Hresp) as (st2 & Hrun & _).
  rewrite Hrun, Hsend. cbn [fst].
  destruct (body_of e) as [body |] eqn:Hbody.
  - destruct (unwrapError E e) as [x | x] eqn:Htranslated.
    + exists x. split; [reflexivity |]. left.
      eapply unwrapError_translated; eassumption.
    + exists x. split; [reflexivity |]. right.
      eapply unwrapError_raises, Htranslated.
  - rewrite (unwrapError_no_body E e Hbody). now exists e.
Qed.

Lemma sendTransaction_refused_witness :
  exists x : thrown,
    fst (sendTransaction
           (Demo.with_submission (Throw (Demo.relay_error None)) Demo.env)
           0%nat Scenario.limited_request Demo.state) = Throw x
    /\ x = Demo.relay_error None.
Proof.
  set (E := Demo.with_submission (Throw (Demo.relay_error None)) Demo.env).
  apply (sendTransaction_refused E Demo.state
           (snd (populateTransaction E 0%nat (zero_fees Scenario.limited_request)
                   Demo.state))
           0%nat Scenario.limited_request
           (set_from (Some "0x00000000000000000000000000000000000005e1")
              (zero_fees Scenario.limited_request))
           (set_address (Some "0x00000000000000000000000000000000000005e1")
              Demo.signer)
           Demo.api Demo.operation (mkResponse "0xhash") (Demo.relay_error None)).
  - vm_compute. reflexivity.
  - vm_compute. reflexivity.
  - reflexivity.
  - vm_compute. reflexivity.
  - reflexivity.
  - reflexivity.
  - reflexivity.
Defined.
